(** * CEPE_Buyers_v2: the trading decision engine and its P&L accounting

    A shallow embedding of
      - [calculate_charges], [place_order] and the strategy classes of
        [trade_PE_CE1.py] (module [PECE1]) and [trade_CE4.py] (module [CE4]),
      - [strike_prices] of [findstrikeprice.py] (module [FindStrike]) and of
        [findstrikeprice2.py] (module [FindStrike2]).

    Python floats are idealised as exact rationals ([Q]); [round(v, 2)] is
    written out as round-half-even on the hundredths.  Network calls
    (the LTP fetch, the order POST, instrument resolution) are inputs of the
    model: every function that performs one takes its outcome as an
    argument. *)

From Stdlib Require Import QArith Qabs ZArith List String Ascii Bool Lia Lqa.
Import ListNotations.
Open Scope Q_scope.

(** ** Python values *)

Module Py.

(** [x < y] and [x <= y] on numbers. *)
Definition ltb (x y : Q) : bool := negb (Qle_bool y x).
Definition leb (x y : Q) : bool := Qle_bool x y.

(** Truth value of a number-or-None: [None] and [0] are false. *)
Definition truthy (v : option Q) : bool :=
  match v with
  | None => false
  | Some q => negb (Qeq_bool q 0)
  end.

(** [a or b]. *)
Definition or_else (a b : option Q) : option Q :=
  if truthy a then a else b.

(** Nearest integer, ties to the even one. *)
Definition round_half_even (x : Q) : Z :=
  let n := Qnum x in
  let d := Zpos (Qden x) in
  let f := (n / d)%Z in
  match (2 * (n mod d) ?= d)%Z with
  | Lt => f
  | Gt => (f + 1)%Z
  | Eq => if Z.even f then f else (f + 1)%Z
  end.

(** [round(v, 2)]. *)
Definition round2 (v : Q) : Q := inject_Z (round_half_even (v * 100)) / 100.

End Py.

(** ** Trade records *)

Inductive Side := BUY | SELL.

Inductive Leg := CE | PE.

Definition Side_eqb (a b : Side) : bool :=
  match a, b with
  | BUY, BUY | SELL, SELL => true
  | _, _ => false
  end.

(** The dict returned by [calculate_charges]. *)
Record Charges := mkCharges {
  brokerage : Q;
  stt : Q;
  txn_charges : Q;
  stamp_duty : Q;
  sebi : Q;
  ipft : Q;
  gst : Q;
  total : Q
}.

(** [{k: round(v, 2) for k, v in charges.items()}] *)
Definition round_charges (c : Charges) : Charges :=
  {| brokerage := Py.round2 (brokerage c);
     stt := Py.round2 (stt c);
     txn_charges := Py.round2 (txn_charges c);
     stamp_duty := Py.round2 (stamp_duty c);
     sebi := Py.round2 (sebi c);
     ipft := Py.round2 (ipft c);
     gst := Py.round2 (gst c);
     total := Py.round2 (total c) |}.

(** An instrument key is a string or, before the first instrument is
    resolved, [None]. *)
Definition Key := option string.

Definition Key_eqb (a b : Key) : bool :=
  match a, b with
  | None, None => true
  | Some x, Some y => String.eqb x y
  | _, _ => false
  end.

(** The [trade_data] dict of [place_order].  The wall-clock ["timestamp"] and
    the constant ["order_type": "MARKET"] are left out; ["charges": {}] is
    [None]. *)
Record Trade := mkTrade {
  instrument_key : Key;
  strike_price_mode : Leg;
  action : Side;
  quantity : Z;
  price : Q;
  live : bool;
  charges : option Charges;
  gross_profit : option Q;
  net_profit : option Q;
  day_pnl : option Q
}.

(** [t["price"]], for places where [price] is also an argument. *)
Definition trade_price (t : Trade) : Q := price t.

(** [t["instrument_key"]], for places where a strategy's attribute of the
    same name is in scope. *)
Definition trade_key (t : Trade) : Key := instrument_key t.

(** [next((t for t in reversed(trades)
          if t["instrument_key"] == key and t["action"] == "BUY"), None)] *)
Definition is_buy_of (key : Key) (t : Trade) : bool :=
  Key_eqb (instrument_key t) key && Side_eqb (action t) BUY.

Definition last_buy (trades : list Trade) (key : Key) : option Trade :=
  find (is_buy_of key) (rev trades).

(** What the network answers during one call of [place_order]:
    [rest_ltp] is the result of [get_ltp_rest(key)] (asked only when no
    usable price was passed in), [post_ok] tells whether the live order POST
    went through without an exception, [save_ok] whether the trades file
    could be read and rewritten. *)
Record Gateway := mkGateway {
  rest_ltp : option Q;
  post_ok : bool;
  save_ok : bool
}.

(** One round of the instrument search: the key returned by
    [get_new_instrument] and the LTP then fetched for it. *)
Record Attempt := mkAttempt {
  new_key : Key;
  new_ltp : option Q
}.

(** [not new_key]: [None] and the empty string are false. *)
Definition key_truthy (k : Key) : bool :=
  match k with
  | None => false
  | Some s => negb (String.eqb s EmptyString)
  end.

(** What a tick makes the strategy ask of its collaborators. *)
Inductive Event :=
| PlaceOrder (key : Key) (side : Side) (at_price : Q) (ok : bool)
| GetNewInstrument.

(** Result of a call that can raise (arithmetic or comparison on [None]) or
    stay in its retry loop for as long as the answers supplied last. *)
Inductive Outcome (A : Type) :=
| Ok (a : A)
| TypeError
| Retrying.
Arguments Ok {A} a.
Arguments TypeError {A}.
Arguments Retrying {A}.

Definition bind {A B : Type} (o : Outcome A) (k : A -> Outcome B) : Outcome B :=
  match o with
  | Ok a => k a
  | TypeError => TypeError
  | Retrying => Retrying
  end.

Notation "x <- c ;; k" := (bind c (fun x => k))
  (at level 61, c at next level, right associativity).

(** Reading an attribute that must hold a number: using [None] in
    arithmetic or in an ordering comparison raises. *)
Definition number (v : option Q) : Outcome Q :=
  match v with
  | Some q => Ok q
  | None => TypeError
  end.

(** ** trade_PE_CE1.py *)

Module PECE1.

Definition LTP_LOWER_BOUND : Q := 100.
Definition LTP_UPPER_BOUND : Q := 200.
Definition LOT_SIZE : Z := 70.
Definition STOP_LOSS_OFFSET : Q := 20.
Definition TRAIL_OFFSET : Q := 3.
Definition TRAIL_THRESHOLD : Q := 2.
Definition TRAIL_INITIAL : Q := 1.
Definition BROKERAGE_PER_ORDER : Q := 20.
Definition STT_RATE : Q := 625 # 1000000.
Definition TRANSACTION_RATE : Q := 3503 # 10000000.
Definition STAMP_DUTY_RATE : Q := 3 # 100000.
Definition SEBI_TURNOVER : Q := 10 / 10000000.
Definition IPFT_RATE : Q := (50 # 100) / 100000.
Definition GST_RATE : Q := 18 # 100.

Definition calculate_charges (entry_price exit_price : Q) (qty : Z) : Charges :=
  let turnover := (entry_price + exit_price) * inject_Z qty in
  let brokerage := 2 * BROKERAGE_PER_ORDER in
  let stt := Qabs exit_price * inject_Z qty * STT_RATE in
  let txn_charges := turnover * TRANSACTION_RATE in
  let stamp_duty := entry_price * inject_Z qty * STAMP_DUTY_RATE in
  let sebi := turnover * SEBI_TURNOVER in
  let ipft := turnover * IPFT_RATE in
  let gst := GST_RATE * (brokerage + txn_charges) in
  let total := brokerage + stt + txn_charges + stamp_duty + sebi + ipft + gst in
  mkCharges brokerage stt txn_charges stamp_duty sebi ipft gst total.

(** The module-level accumulators. *)
Record Ledger := mkLedger {
  ce_trades : list Trade;
  pe_trades : list Trade;
  ce_day_pnl : Q;
  pe_day_pnl : Q;
  ce_capital_used : Q;
  pe_capital_used : Q;
  current_balance : Q
}.

Definition empty_ledger : Ledger :=
  mkLedger [] [] 0 0 0 0 100000.

(** [ce_trades if mode == "CE" else pe_trades] and its siblings. *)
Definition trades_of (mode : Leg) (L : Ledger) : list Trade :=
  match mode with CE => ce_trades L | PE => pe_trades L end.

Definition day_pnl_of (mode : Leg) (L : Ledger) : Q :=
  match mode with CE => ce_day_pnl L | PE => pe_day_pnl L end.

Definition capital_used_of (mode : Leg) (L : Ledger) : Q :=
  match mode with CE => ce_capital_used L | PE => pe_capital_used L end.

Definition set_trades (mode : Leg) (ts : list Trade) (L : Ledger) : Ledger :=
  match mode with
  | CE => mkLedger ts (pe_trades L) (ce_day_pnl L) (pe_day_pnl L)
            (ce_capital_used L) (pe_capital_used L) (current_balance L)
  | PE => mkLedger (ce_trades L) ts (ce_day_pnl L) (pe_day_pnl L)
            (ce_capital_used L) (pe_capital_used L) (current_balance L)
  end.

(** The three [+=] of a closing SELL. *)
Definition book_profit (mode : Leg) (net entry_price : Q) (L : Ledger) : Ledger :=
  match mode with
  | CE => mkLedger (ce_trades L) (pe_trades L)
            (ce_day_pnl L + net) (pe_day_pnl L)
            (ce_capital_used L + entry_price * inject_Z LOT_SIZE) (pe_capital_used L)
            (current_balance L + net)
  | PE => mkLedger (ce_trades L) (pe_trades L)
            (ce_day_pnl L) (pe_day_pnl L + net)
            (ce_capital_used L) (pe_capital_used L + entry_price * inject_Z LOT_SIZE)
            (current_balance L + net)
  end.

Section Mode.

(** [USE_LIVE_TRADING = TRADING_MODE == "live"]; the file ships with
    [TRADING_MODE = "paper"]. *)
Variable USE_LIVE_TRADING : bool.

(** [place_order(instrument_key, side, price, mode)].  [trade_data] is
    appended to the leg's list first and filled in afterwards through the
    same reference, so the list ends up holding the completed record; the
    reverse scan for the BUY runs over the list that already holds it. *)
Definition place_order (L : Ledger) (gw : Gateway) (instrument_key : Key)
    (side : Side) (price : option Q) (mode : Leg) : bool * Ledger :=
  match Py.or_else price (rest_ltp gw) with
  | None => (false, L)
  | Some current_price =>
    let trade_data :=
      mkTrade instrument_key mode side LOT_SIZE (Py.round2 current_price)
        USE_LIVE_TRADING None None None None in
    if negb USE_LIVE_TRADING then
      let target_list := trades_of mode L ++ [trade_data] in
      match side with
      | SELL =>
        match last_buy target_list instrument_key with
        | Some buy =>
          let entry_price := trade_price buy in
          let exit_price := trade_price trade_data in
          let gross_profit :=
            Py.round2 ((exit_price - entry_price) * inject_Z LOT_SIZE) in
          let charges :=
            round_charges (calculate_charges entry_price exit_price LOT_SIZE) in
          let net_profit := Py.round2 (gross_profit - total charges) in
          let L1 := book_profit mode net_profit entry_price L in
          let trade_data' :=
            mkTrade instrument_key mode side LOT_SIZE (trade_price trade_data)
              USE_LIVE_TRADING (Some charges) (Some gross_profit)
              (Some net_profit) (Some (day_pnl_of mode L1)) in
          (true, set_trades mode (trades_of mode L ++ [trade_data']) L1)
        | None => (true, set_trades mode target_list L)
        end
      | BUY => (true, set_trades mode target_list L)
      end
    else if post_ok gw then
      (true, set_trades mode (trades_of mode L ++ [trade_data]) L)
    else (false, L)
  end.

(** [class OptionStrategy]: the attributes of one leg. *)
Record Strategy := mkStrategy {
  mode : Leg;
  instrument_key : Key;
  bought : bool;
  entry : option Q;
  stop : option Q;
  peak : option Q;
  prev_price : option Q;
  running : bool
}.

Definition reset_position (s : Strategy) : Strategy :=
  mkStrategy (mode s) (instrument_key s) false None None None
    (prev_price s) (running s).

Definition set_prev_price (v : option Q) (s : Strategy) : Strategy :=
  mkStrategy (mode s) (instrument_key s) (bought s) (entry s) (stop s) (peak s)
    v (running s).

Definition set_peak (v : option Q) (s : Strategy) : Strategy :=
  mkStrategy (mode s) (instrument_key s) (bought s) (entry s) (stop s) v
    (prev_price s) (running s).

(** The four assignments after a successful BUY. *)
Definition open_position (ltp : Q) (s : Strategy) : Strategy :=
  mkStrategy (mode s) (instrument_key s) true (Some ltp)
    (Some (ltp - STOP_LOSS_OFFSET)) (Some ltp) (prev_price s) (running s).

Definition in_range (ltp : Q) : bool :=
  Py.leb LTP_LOWER_BOUND ltp && Py.leb ltp LTP_UPPER_BOUND.

(** [ensure_instrument]: the [while self.running] loop, one round per
    element of [answers]; the sleeps between rounds are left out.  When the
    answers run out before a round succeeds the loop is still going. *)
Fixpoint ensure_instrument (s : Strategy) (answers : list Attempt)
    : Outcome (Strategy * list Event) :=
  if negb (running s) then Ok (s, [])
  else
    match answers with
    | [] => Retrying
    | a :: rest =>
      if negb (key_truthy (new_key a)) then
        r <- ensure_instrument s rest ;; Ok (fst r, GetNewInstrument :: snd r)
      else if Py.truthy (new_ltp a)
              && match new_ltp a with
                 | Some ltp => in_range ltp
                 | None => false
                 end
      then
        Ok (mkStrategy (mode s) (new_key a) (bought s) (entry s) (stop s)
              (peak s) (new_ltp a) (running s), [GetNewInstrument])
      else
        r <- ensure_instrument s rest ;; Ok (fst r, GetNewInstrument :: snd r)
    end.

(** The trailing distance chosen inside [process_price_update]:
    [trail_exit = TRAIL_OFFSET], replaced by [TRAIL_INITIAL] when
    [ltp <= self.entry + TRAIL_THRESHOLD]. *)
Definition trail_exit (entry ltp : Q) : Q :=
  if Py.leb ltp (entry + TRAIL_THRESHOLD) then TRAIL_INITIAL else TRAIL_OFFSET.

(** The SELL arm: the order is placed and the position is reset whatever
    the order's result. *)
Definition close_position (s : Strategy) (L : Ledger) (gw : Gateway) (ltp : Q)
    : Outcome (Strategy * Ledger * list Event) :=
  let '(ok, L') := place_order L gw (instrument_key s) SELL (Some ltp) (mode s) in
  Ok (set_prev_price (Some ltp) (reset_position s), L',
      [PlaceOrder (instrument_key s) SELL ltp ok]).

Definition process_price_update (s : Strategy) (L : Ledger) (ltp : option Q)
    (gw : Gateway) (answers : list Attempt)
    : Outcome (Strategy * Ledger * list Event) :=
  match ltp with
  | None => Ok (s, L, [])
  | Some ltp =>
    if Py.ltb ltp LTP_LOWER_BOUND || Py.ltb LTP_UPPER_BOUND ltp then
      r <- ensure_instrument (reset_position s) answers ;;
      Ok (fst r, L, snd r)
    else if negb (bought s)
            && match prev_price s with
               | Some p => Py.ltb p ltp
               | None => false
               end
    then
      let '(ok, L') := place_order L gw (instrument_key s) BUY (Some ltp) (mode s) in
      let s' := if ok then open_position ltp s else s in
      Ok (set_prev_price (Some ltp) s', L',
          [PlaceOrder (instrument_key s) BUY ltp ok])
    else if bought s then
      pk <- number (peak s) ;;
      let s1 := if Py.ltb pk ltp then set_peak (Some ltp) s else s in
      pk1 <- number (peak s1) ;;
      e <- number (entry s1) ;;
      let trail_stop := pk1 - trail_exit e ltp in
      if Py.leb ltp trail_stop then close_position s1 L gw ltp
      else
        st <- number (stop s1) ;;
        if Py.leb ltp st then close_position s1 L gw ltp
        else Ok (set_prev_price (Some ltp) s1, L, [])
    else Ok (set_prev_price (Some ltp) s, L, [])
  end.

(** What the network answers during one tick. *)
Record Tick := mkTick {
  ltp : option Q;
  gateway : Gateway;
  answers : list Attempt
}.

(** [process_price_update] called on one tick after the other; the events
    are collected in order. *)
Fixpoint feed (ticks : list Tick) (s : Strategy) (L : Ledger)
    : Outcome (Strategy * Ledger * list Event) :=
  match ticks with
  | [] => Ok (s, L, [])
  | t :: rest =>
    r <- process_price_update s L (ltp t) (gateway t) (answers t) ;;
    let '(s1, L1, evs1) := r in
    r' <- feed rest s1 L1 ;;
    let '(s2, L2, evs2) := r' in
    Ok (s2, L2, evs1 ++ evs2)
  end.

End Mode.

End PECE1.

(** ** trade_CE4.py *)

Module CE4.

Definition LTP_LOWER_BOUND : Q := 0.
Definition LTP_UPPER_BOUND : Q := 200.
Definition STRIKE_PRICE_MODE : Leg := CE.
Definition LOT_SIZE : Z := 70.
Definition STOP_LOSS_OFFSET : Q := 20.
Definition TRAIL_OFFSET : Q := 3.
Definition TRAIL_THRESHOLD : Q := 2.
Definition TRAIL_INITIAL : Q := 1.
Definition BROKERAGE_PER_ORDER : Q := 20.
Definition STT_RATE : Q := 625 # 1000000.
Definition TRANSACTION_RATE : Q := 3503 # 10000000.
Definition STAMP_DUTY_RATE : Q := 3 # 100000.
Definition SEBI_TURNOVER : Q := 10 / 10000000.
Definition IPFT_RATE : Q := (50 # 100) / 100000.
Definition GST_RATE : Q := 18 # 100.

Definition calculate_charges (entry_price exit_price : Q) (qty : Z) : Charges :=
  let turnover := (entry_price + exit_price) * inject_Z qty in
  let brokerage := 2 * BROKERAGE_PER_ORDER in
  let stt := exit_price * inject_Z qty * STT_RATE in
  let txn_charges := turnover * TRANSACTION_RATE in
  let stamp_duty := entry_price * inject_Z qty * STAMP_DUTY_RATE in
  let sebi := turnover * SEBI_TURNOVER in
  let ipft := turnover * IPFT_RATE in
  let gst := GST_RATE * (brokerage + txn_charges) in
  let total := brokerage + stt + txn_charges + stamp_duty + sebi + ipft + gst in
  mkCharges brokerage stt txn_charges stamp_duty sebi ipft gst total.

(** The module-level [paper_trades] and [overall_pnl], and the contents of
    the day's two trades files (a missing file reads as the empty list). *)
Record Ledger := mkLedger {
  paper_trades : list Trade;
  overall_pnl : Q;
  paper_file : list Trade;
  live_file : list Trade
}.

Definition empty_ledger : Ledger := mkLedger [] 0 [] [].

(** [save_trade(trade_data, mode)]: the file's list with the record added
    is written back and becomes [paper_trades]; an I/O error is logged and
    changes nothing. *)
Definition save_trade (L : Ledger) (gw : Gateway) (trade_data : Trade)
    (to_live : bool) : Ledger :=
  if save_ok gw then
    if to_live then
      let trades := live_file L ++ [trade_data] in
      mkLedger trades (overall_pnl L) (paper_file L) trades
    else
      let trades := paper_file L ++ [trade_data] in
      mkLedger trades (overall_pnl L) trades (live_file L)
  else L.

Section Mode.

Variable USE_LIVE_TRADING : bool.

(** The SELL bookkeeping, identical in the paper and the live arm: the
    record completed against the last BUY found in [trades], and the new
    [overall_pnl]. *)
Definition settle_sell (trades : list Trade) (pnl : Q) (key : Key)
    (trade_data : Trade) : Trade * Q :=
  match last_buy trades key with
  | Some buy =>
    let entry_price := trade_price buy in
    let exit_price := trade_price trade_data in
    let gross_profit :=
      Py.round2 ((exit_price - entry_price) * inject_Z LOT_SIZE) in
    let charges :=
      round_charges (calculate_charges entry_price exit_price LOT_SIZE) in
    let net_profit := Py.round2 (gross_profit - total charges) in
    let pnl' := pnl + net_profit in
    (mkTrade key STRIKE_PRICE_MODE SELL LOT_SIZE exit_price USE_LIVE_TRADING
       (Some charges) (Some gross_profit) (Some net_profit) (Some pnl'),
     pnl')
  | None => (trade_data, pnl)
  end.

(** [place_order(key, side, price)]. *)
Definition place_order (L : Ledger) (gw : Gateway) (key : Key) (side : Side)
    (price : option Q) : bool * Ledger :=
  let current_price := Py.or_else price (rest_ltp gw) in
  if negb (Py.truthy current_price) then (false, L)
  else
    match current_price with
    | None => (false, L)
    | Some current_price =>
      let trade_data :=
        mkTrade key STRIKE_PRICE_MODE side LOT_SIZE (Py.round2 current_price)
          USE_LIVE_TRADING None None None None in
      if negb USE_LIVE_TRADING then
        let appended := paper_trades L ++ [trade_data] in
        let '(trade_data', pnl') :=
          match side with
          | SELL => settle_sell appended (overall_pnl L) key trade_data
          | BUY => (trade_data, overall_pnl L)
          end in
        let L1 := mkLedger (paper_trades L ++ [trade_data']) pnl'
                    (paper_file L) (live_file L) in
        (true, save_trade L1 gw trade_data' false)
      else if post_ok gw then
        let '(trade_data', pnl') :=
          match side with
          | SELL => settle_sell (paper_trades L) (overall_pnl L) key trade_data
          | BUY => (trade_data, overall_pnl L)
          end in
        let L1 := mkLedger (paper_trades L) pnl' (paper_file L) (live_file L) in
        (true, save_trade L1 gw trade_data' true)
      else (false, L)
    end.

(** [class TradingStrategy]. *)
Record Strategy := mkStrategy {
  instrument_key : Key;
  bought : bool;
  entry : option Q;
  stop : option Q;
  peak : option Q;
  prev_price : option Q;
  running : bool
}.

Definition reset_position (s : Strategy) : Strategy :=
  mkStrategy (instrument_key s) false None None None None (running s).

Definition set_prev_price (v : option Q) (s : Strategy) : Strategy :=
  mkStrategy (instrument_key s) (bought s) (entry s) (stop s) (peak s) v
    (running s).

Definition set_peak (v : option Q) (s : Strategy) : Strategy :=
  mkStrategy (instrument_key s) (bought s) (entry s) (stop s) v
    (prev_price s) (running s).

Definition open_position (ltp : Q) (s : Strategy) : Strategy :=
  mkStrategy (instrument_key s) true (Some ltp)
    (Some (ltp - STOP_LOSS_OFFSET)) (Some ltp) (prev_price s) (running s).

Definition in_range (ltp : Q) : bool :=
  Py.leb LTP_LOWER_BOUND ltp && Py.leb ltp LTP_UPPER_BOUND.

(** [find_new_instrument]: the [while True] loop, one round per element of
    [answers]. *)
Fixpoint find_new_instrument (s : Strategy) (answers : list Attempt)
    : Outcome (Strategy * list Event) :=
  match answers with
  | [] => Retrying
  | a :: rest =>
    if negb (key_truthy (new_key a)) then
      r <- find_new_instrument s rest ;; Ok (fst r, GetNewInstrument :: snd r)
    else if Py.truthy (new_ltp a)
            && match new_ltp a with
               | Some ltp => in_range ltp
               | None => false
               end
    then
      Ok (mkStrategy (new_key a) (bought s) (entry s) (stop s) (peak s)
            (new_ltp a) (running s), [GetNewInstrument])
    else
      r <- find_new_instrument s rest ;; Ok (fst r, GetNewInstrument :: snd r)
  end.

Definition trail_exit (entry ltp : Q) : Q :=
  if Py.leb ltp (entry + TRAIL_THRESHOLD) then TRAIL_INITIAL else TRAIL_OFFSET.

Definition close_position (s : Strategy) (L : Ledger) (gw : Gateway) (ltp : Q)
    : Outcome (Strategy * Ledger * list Event) :=
  let '(ok, L') := place_order L gw (instrument_key s) SELL (Some ltp) in
  Ok (set_prev_price (Some ltp) (reset_position s), L',
      [PlaceOrder (instrument_key s) SELL ltp ok]).

(** [process_price_update(ltp)]; there is no guard for [None] here, the
    first comparison raises on it. *)
Definition process_price_update (s : Strategy) (L : Ledger) (ltp : option Q)
    (gw : Gateway) (answers : list Attempt)
    : Outcome (Strategy * Ledger * list Event) :=
  ltp <- number ltp ;;
  if Py.ltb ltp LTP_LOWER_BOUND || Py.ltb LTP_UPPER_BOUND ltp then
    r <- find_new_instrument (reset_position s) answers ;;
    Ok (fst r, L, snd r)
  else if negb (bought s) && Py.truthy (prev_price s)
          && match prev_price s with
             | Some p => Py.ltb p ltp
             | None => false
             end
  then
    let '(ok, L') := place_order L gw (instrument_key s) BUY (Some ltp) in
    let s' := if ok then open_position ltp s else s in
    Ok (set_prev_price (Some ltp) s', L',
        [PlaceOrder (instrument_key s) BUY ltp ok])
  else if bought s then
    pk <- number (peak s) ;;
    let s1 := if Py.ltb pk ltp then set_peak (Some ltp) s else s in
    pk1 <- number (peak s1) ;;
    e <- number (entry s1) ;;
    let trail_stop := pk1 - trail_exit e ltp in
    if Py.leb ltp trail_stop then close_position s1 L gw ltp
    else
      st <- number (stop s1) ;;
      if Py.leb ltp st then close_position s1 L gw ltp
      else Ok (set_prev_price (Some ltp) s1, L, [])
  else Ok (set_prev_price (Some ltp) s, L, []).

Record Tick := mkTick {
  ltp : option Q;
  gateway : Gateway;
  answers : list Attempt
}.

Fixpoint feed (ticks : list Tick) (s : Strategy) (L : Ledger)
    : Outcome (Strategy * Ledger * list Event) :=
  match ticks with
  | [] => Ok (s, L, [])
  | t :: rest =>
    r <- process_price_update s L (ltp t) (gateway t) (answers t) ;;
    let '(s1, L1, evs1) := r in
    r' <- feed rest s1 L1 ;;
    let '(s2, L2, evs2) := r' in
    Ok (s2, L2, evs1 ++ evs2)
  end.

End Mode.

End CE4.

(** ** findstrikeprice.py *)

Module FindStrike.

(** One element of the option chain: ["strike_price"] and the ["ltp"] under
    ["call_options"]["market_data"] and ["put_options"]["market_data"].
    [None] is a key that is absent or null; an absent LTP reads as [0]
    through [.get("ltp", 0)], and both are false in a condition. *)
Record ChainItem := mkChainItem {
  strike_price : option Q;
  call_ltp : option Q;
  put_ltp : option Q
}.

(** The number held by a field that passed a truth test; an absent one
    reads as the default [0] of [.get("ltp", 0)]. *)
Definition ltp_or_zero (v : option Q) : Q :=
  match v with
  | Some q => q
  | None => 0
  end.

(** [ltp and price1 <= ltp <= price2] *)
Definition matches (price1 price2 : Q) (ltp : option Q) : bool :=
  Py.truthy ltp && Py.leb price1 (ltp_or_zero ltp) && Py.leb (ltp_or_zero ltp) price2.

Definition is_none {A : Type} (o : option A) : bool :=
  match o with
  | None => true
  | Some _ => false
  end.

(** The [for opt in chain] loop with its [continue] and [break];
    [ce_match] and [pe_match] hold [(strike, ltp)] pairs. *)
Fixpoint scan (price1 price2 : Q) (chain : list ChainItem)
    (ce_match pe_match : option (Q * Q)) : option (Q * Q) * option (Q * Q) :=
  match chain with
  | [] => (ce_match, pe_match)
  | opt :: rest =>
    if negb (Py.truthy (strike_price opt)) then
      scan price1 price2 rest ce_match pe_match
    else
      let strike := ltp_or_zero (strike_price opt) in
      let ce_match :=
        if is_none ce_match && matches price1 price2 (call_ltp opt)
        then Some (strike, ltp_or_zero (call_ltp opt))
        else ce_match in
      let pe_match :=
        if is_none pe_match && matches price1 price2 (put_ltp opt)
        then Some (strike, ltp_or_zero (put_ltp opt))
        else pe_match in
      if negb (is_none ce_match) && negb (is_none pe_match)
      then (ce_match, pe_match)
      else scan price1 price2 rest ce_match pe_match
  end.

(** [strike_prices(client, price1, price2)]; [expiries] is what
    [get_expiries] returned and [get_option_chain] what the chain request
    returns for an expiry. *)
Definition strike_prices (expiries : list string)
    (get_option_chain : string -> list ChainItem) (price1 price2 : Q)
    : string * Q * Q :=
  match expiries with
  | [] => ("0"%string, 0, 0)
  | expiry :: _ =>
    match get_option_chain expiry with
    | [] => ("0"%string, 0, 0)
    | chain =>
      let '(ce_match, pe_match) := scan price1 price2 chain None None in
      let CE := match ce_match with Some m => fst m | None => 0 end in
      let PE := match pe_match with Some m => fst m | None => 0 end in
      (expiry, CE, PE)
    end
  end.

End FindStrike.

(** ** findstrikeprice2.py *)

Module FindStrike2.

Inductive OptionType := CE_type | PE_type | other_type.

(** One element of the instruments list. *)
Record Instrument := mkInstrument {
  expiry : string;
  strike_price : option Q;
  option_type : OptionType
}.

(** [sorted({inst["expiry"] for inst in instruments})[0]] *)
Fixpoint smallest (first : string) (others : list string) : string :=
  match others with
  | [] => first
  | x :: rest => smallest (if String.ltb x first then x else first) rest
  end.

(** The strikes collected for one option type at the nearest expiry. *)
Definition strikes_of (ty : OptionType) (nearest_expiry : string)
    (instruments : list Instrument) : list Q :=
  flat_map
    (fun inst =>
       if negb (String.eqb (expiry inst) nearest_expiry) then []
       else if negb (Py.truthy (strike_price inst)) then []
       else match strike_price inst, option_type inst, ty with
            | Some strike, CE_type, CE_type => [strike]
            | Some strike, PE_type, PE_type => [strike]
            | _, _, _ => []
            end)
    instruments.

(** [min(strikes, key=lambda x: abs(x - bound))]: the first of the
    smallest. *)
Fixpoint nearest_from (bound best : Q) (strikes : list Q) : Q :=
  match strikes with
  | [] => best
  | x :: rest =>
    nearest_from bound
      (if Py.ltb (Qabs (x - bound)) (Qabs (best - bound)) then x else best) rest
  end.

(** [None] stands for the [ValueError] that [min] raises on an empty
    list. *)
Definition nearest (bound : Q) (strikes : list Q) : option Q :=
  match strikes with
  | [] => None
  | x :: rest => Some (nearest_from bound x rest)
  end.

(** [strike_prices(client, lower_bound, upper_bound)]; every exception ends
    in the ["0", None, None] of the [except] arm. *)
Definition strike_prices (instruments : list Instrument)
    (lower_bound upper_bound : Q) : string * option Q * option Q :=
  match instruments with
  | [] => ("0"%string, None, None)
  | first :: others =>
    let nearest_expiry := smallest (expiry first) (map expiry others) in
    match nearest lower_bound (strikes_of CE_type nearest_expiry instruments),
          nearest upper_bound (strikes_of PE_type nearest_expiry instruments) with
    | Some ce_strike, Some pe_strike =>
      (nearest_expiry, Some ce_strike, Some pe_strike)
    | _, _ => ("0"%string, None, None)
    end
  end.

End FindStrike2.

(** ** The specification's reading of two operations

    These two definitions follow the specification's words, not the code;
    they are what the code is compared with. *)

Module Spec.

(** "the most recent unmatched BUY for the same instrument ... scanning the
    log in reverse - last BUY not yet matched to a later SELL on that
    instrument": going backwards, every SELL of the instrument matches the
    nearest earlier BUY that is still free. *)
Fixpoint unmatched_scan (key : Key) (later_sells : nat) (reversed : list Trade)
    : option Trade :=
  match reversed with
  | [] => None
  | t :: rest =>
    if Key_eqb (instrument_key t) key then
      match action t, later_sells with
      | SELL, _ => unmatched_scan key (S later_sells) rest
      | BUY, O => Some t
      | BUY, S n => unmatched_scan key n rest
      end
    else unmatched_scan key later_sells rest
  end.

Definition last_unmatched_buy (trades : list Trade) (key : Key) : option Trade :=
  unmatched_scan key 0 (rev trades).

(** The BUY records of a log left without a later SELL on their
    instrument: the open positions as the trade log shows them. *)
Fixpoint open_buys (trades : list Trade) : list Trade :=
  match trades with
  | [] => []
  | t :: rest =>
    match action t with
    | BUY =>
      if existsb (fun u => Key_eqb (instrument_key u) (instrument_key t)
                           && Side_eqb (action u) SELL) rest
      then open_buys rest
      else t :: open_buys rest
    | SELL => open_buys rest
    end
  end.

(** "the first call strike whose LTP falls within [lower_bound, upper_bound]
    inclusive": the LTP of the side is there and lies within the bounds. *)
Definition in_band (lower_bound upper_bound : Q) (ltp : option Q) : bool :=
  match ltp with
  | Some q => Py.leb lower_bound q && Py.leb q upper_bound
  | None => false
  end.

Definition has_strike (opt : FindStrike.ChainItem) : bool :=
  match FindStrike.strike_price opt with
  | Some _ => true
  | None => false
  end.

(** The first element, in listed order, whose LTP on the given side is in
    the band. *)
Definition first_in_range (lower_bound upper_bound : Q)
    (side : FindStrike.ChainItem -> option Q)
    (chain : list FindStrike.ChainItem) : option FindStrike.ChainItem :=
  find (fun opt => has_strike opt && in_band lower_bound upper_bound (side opt))
       chain.

(** The same with the two truth tests of the code: the strike and the LTP
    of the side are neither absent nor [0]. *)
Definition first_traded_in_range (lower_bound upper_bound : Q)
    (side : FindStrike.ChainItem -> option Q)
    (chain : list FindStrike.ChainItem) : option FindStrike.ChainItem :=
  find (fun opt => Py.truthy (FindStrike.strike_price opt)
                   && FindStrike.matches lower_bound upper_bound (side opt))
       chain.

(** The [(strike, ltp)] pair of a chain element, and the strike reported for
    a leg, [0] when the leg has no match. *)
Definition candidate (side : FindStrike.ChainItem -> option Q)
    (opt : FindStrike.ChainItem) : Q * Q :=
  (FindStrike.ltp_or_zero (FindStrike.strike_price opt),
   FindStrike.ltp_or_zero (side opt)).

Definition strike_or_zero (found : option FindStrike.ChainItem) : Q :=
  match found with
  | Some opt => FindStrike.ltp_or_zero (FindStrike.strike_price opt)
  | None => 0
  end.

(** [select_strikes] as the specification words it, on the nearest expiry's
    chain. *)
Definition select_strikes (chain : list FindStrike.ChainItem)
    (lower_bound upper_bound : Q) : Q * Q :=
  (strike_or_zero (first_in_range lower_bound upper_bound FindStrike.call_ltp chain),
   strike_or_zero (first_in_range lower_bound upper_bound FindStrike.put_ltp chain)).

(** A chain element whose LTPs of [0] are taken out, as if the element had
    no market data on that side. *)
Definition without_zero_ltp (opt : FindStrike.ChainItem) : FindStrike.ChainItem :=
  FindStrike.mkChainItem (FindStrike.strike_price opt)
    (if Py.truthy (FindStrike.call_ltp opt) then FindStrike.call_ltp opt else None)
    (if Py.truthy (FindStrike.put_ltp opt) then FindStrike.put_ltp opt else None).

End Spec.

(** ** Inputs used in the examples *)

(** A chain whose first strike has not traded yet (both LTPs are [0]). *)
Definition untraded_first : list FindStrike.ChainItem :=
  [FindStrike.mkChainItem (Some 24000) (Some 0) (Some 0);
   FindStrike.mkChainItem (Some 24100) (Some 50) None;
   FindStrike.mkChainItem (Some 24200) (Some 40) (Some 60)].

(** The chain of the specification's scenario D: the third strike is the
    first in the call band, the first strike the first in the put band. *)
Definition scenario_d : list FindStrike.ChainItem :=
  [FindStrike.mkChainItem (Some 24000) (Some 320) (Some 120);
   FindStrike.mkChainItem (Some 24100) (Some 250) (Some 150);
   FindStrike.mkChainItem (Some 24200) (Some 180) (Some 190);
   FindStrike.mkChainItem (Some 24300) (Some 130) (Some 260)].

Definition one_expiry : list string := ["2025-09-25"%string].

(** An instruments list of one expiry, with three strikes of each type. *)
Definition three_strikes : list FindStrike2.Instrument :=
  [FindStrike2.mkInstrument "2025-09-25" (Some 54000) FindStrike2.CE_type;
   FindStrike2.mkInstrument "2025-09-25" (Some 150) FindStrike2.CE_type;
   FindStrike2.mkInstrument "2025-09-25" (Some 90) FindStrike2.CE_type;
   FindStrike2.mkInstrument "2025-09-25" (Some 54000) FindStrike2.PE_type;
   FindStrike2.mkInstrument "2025-09-25" (Some 500) FindStrike2.PE_type;
   FindStrike2.mkInstrument "2025-09-25" (Some 210) FindStrike2.PE_type].

(** ** Vocabulary of the properties *)

(** The fee schedule read as equations on the returned breakdown. *)
Definition breakdown
    (per_order_fee stt_rate txn_rate stamp_duty_rate sebi_rate ipft_rate gst_rate : Q)
    (entry_price exit_price : Q) (quantity : Z) (c : Charges) : Prop :=
  let turnover := (entry_price + exit_price) * inject_Z quantity in
  brokerage c == 2 * per_order_fee
  /\ stt c == exit_price * inject_Z quantity * stt_rate
  /\ stamp_duty c == entry_price * inject_Z quantity * stamp_duty_rate
  /\ txn_charges c == turnover * txn_rate
  /\ sebi c == turnover * sebi_rate
  /\ ipft c == turnover * ipft_rate
  /\ gst c == gst_rate * (brokerage c + txn_charges c)
  /\ total c == brokerage c + stt c + txn_charges c + stamp_duty c
                 + sebi c + ipft c + gst c.


(** A position as the specification's data model wants it: [bought] exactly
    when entry, stop and peak are set. *)
Definition holds_position (bought : bool) (entry stop peak : option Q) : Prop :=
  if bought
  then (exists e st pk, entry = Some e /\ stop = Some st /\ peak = Some pk)
  else entry = None /\ stop = None /\ peak = None.

(** An answer of the instrument search that ends the retry loop. *)
Definition acceptable (in_range : Q -> bool) (a : Attempt) : bool :=
  key_truthy (new_key a)
  && Py.truthy (new_ltp a)
  && match new_ltp a with
     | Some ltp => in_range ltp
     | None => false
     end.

Definition is_order (side : Side) (ev : Event) : bool :=
  match ev with
  | PlaceOrder _ s _ _ => Side_eqb s side
  | GetNewInstrument => false
  end.

(** The order of events a well-behaved leg produces; [long] tells whether a
    position is open before the first event.  A BUY needs a flat leg and
    opens a position when it succeeds, a SELL needs an open position and
    leaves the leg flat, an instrument search leaves the leg flat. *)
Fixpoint well_ordered (long : bool) (evs : list Event) : bool :=
  match evs with
  | [] => true
  | PlaceOrder _ BUY _ ok :: rest => negb long && well_ordered ok rest
  | PlaceOrder _ SELL _ _ :: rest => long && well_ordered false rest
  | GetNewInstrument :: rest => well_ordered false rest
  end.

(** Invariant and tick conditions of the strategy of [trade_PE_CE1.py]. *)
Module PECE1Inv.
Import PECE1.

Definition position_ok (s : Strategy) : Prop :=
  holds_position (bought s) (entry s) (stop s) (peak s).

(** The exit test of a tick on an open position: the peak after the
    tick, and whether the tick is at or under the trailing stop or the
    stop-loss. *)
Definition peak_after (pk ltp : Q) : Q := if Py.ltb pk ltp then ltp else pk.

Definition exit_signal (e st pk ltp : Q) : bool :=
  Py.leb ltp (peak_after pk ltp - trail_exit e ltp) || Py.leb ltp st.

(** A tick the strategy can get past: no price, a price in range, or an
    instrument search that meets an acceptable answer. *)
Definition answerable (t : Tick) : bool :=
  match ltp t with
  | None => true
  | Some q => in_range q || existsb (acceptable in_range) (answers t)
  end.

End PECE1Inv.

(** Invariant and tick conditions of the strategy of [trade_CE4.py]. *)
Module CE4Inv.
Import CE4.

Definition position_ok (s : Strategy) : Prop :=
  holds_position (bought s) (entry s) (stop s) (peak s).

(** The exit test of a tick on an open position. *)
Definition peak_after (pk ltp : Q) : Q := if Py.ltb pk ltp then ltp else pk.

Definition exit_signal (e st pk ltp : Q) : bool :=
  Py.leb ltp (peak_after pk ltp - trail_exit e ltp) || Py.leb ltp st.

(** A tick the strategy can get past: a price in range, or an instrument
    search that meets an acceptable answer. *)
Definition answerable (t : Tick) : bool :=
  match ltp t with
  | None => false
  | Some q => in_range q || existsb (acceptable in_range) (answers t)
  end.

End CE4Inv.

(** ** Ledgers and legs used in the examples *)

(** A leg's log as three calls of [place_order] leave it: BUY at 100,
    SELL at 101, and a second SELL at 120 on the same instrument. *)
Definition demo_key : Key := Some "NSE_FO|41234"%string.
Definition demo_gateway : Gateway := mkGateway None true true.

Definition after_buy : PECE1.Ledger :=
  snd (PECE1.place_order false PECE1.empty_ledger demo_gateway demo_key BUY
         (Some 100) PE).

Definition after_sell : PECE1.Ledger :=
  snd (PECE1.place_order false after_buy demo_gateway demo_key SELL (Some 101) PE).

Definition after_second_sell : PECE1.Ledger :=
  snd (PECE1.place_order false after_sell demo_gateway demo_key SELL (Some 120) PE).

Definition demo_buy : Trade :=
  mkTrade demo_key PE BUY 70 (Py.round2 100) false None None None None.

Definition other_key : Key := Some "NSE_FO|41250"%string.
Definition rejecting_gateway : Gateway := mkGateway None false true.

(** A flat leg that last saw 150, and a leg that bought at 150. *)
Definition flat_leg : PECE1.Strategy :=
  PECE1.mkStrategy PE demo_key false None None None (Some 150) true.

Definition long_leg : PECE1.Strategy :=
  PECE1.mkStrategy PE demo_key true (Some 150) (Some 130) (Some 150)
    (Some 150) true.

Definition flat_leg4 : CE4.Strategy :=
  CE4.mkStrategy demo_key false None None None (Some 150) true.

Definition long_leg4 : CE4.Strategy :=
  CE4.mkStrategy demo_key true (Some 150) (Some 130) (Some 150) (Some 150) true.

(** The instrument search finds [other_key] trading at 150 at once. *)
Definition found_at_once : list Attempt := [mkAttempt other_key (Some 150)].

(** Uptick to 155, a tick of 250 after which the search comes back with the
    same instrument at 150, uptick to 155 again. *)
Definition buy_drop_buy : list PECE1.Tick :=
  [PECE1.mkTick (Some 155) demo_gateway [];
   PECE1.mkTick (Some 250) demo_gateway [mkAttempt demo_key (Some 150)];
   PECE1.mkTick (Some 155) demo_gateway []].

(** ** findstrikeprice.py: the instrument token *)

Module FindToken.

(** One element of the option chain with what [get_instrument_token] reads
    of it: the ["instrument_key"] under ["call_options"] and under
    ["put_options"]; [None] stands for option data, or a key in it, that is
    absent. *)
Record OptionChainItem := mkOptionChainItem {
  quotes : FindStrike.ChainItem;
  call_key : option string;
  put_key : option string
}.

(** [s.split(sep)] for a separator of one character: the fields between
    the separators, at least one. *)
Fixpoint split (sep : ascii) (s : string) : list string :=
  match s with
  | EmptyString => [EmptyString]
  | String c rest =>
    if Ascii.eqb c sep then EmptyString :: split sep rest
    else
      match split sep rest with
      | field :: fields => String c field :: fields
      | [] => [String c EmptyString]
      end
  end.

(** [instrument_key.split('|')[-1]] *)
Definition last_field (instrument_key : string) : string :=
  last (split "|"%char instrument_key) EmptyString.

(** [chain_item.get('strike_price') == strike] *)
Definition strike_is (v : option Q) (strike : Q) : bool :=
  match v with
  | Some q => Qeq_bool q strike
  | None => false
  end.

(** The [for chain_item in data.get('data', [])] loop. *)
Fixpoint scan_token (data : list OptionChainItem) (strike : Q)
    (option_type : Leg) : option string :=
  match data with
  | [] => None
  | chain_item :: rest =>
    if strike_is (FindStrike.strike_price (quotes chain_item)) strike then
      let option_data :=
        match option_type with
        | CE => call_key chain_item
        | PE => put_key chain_item
        end in
      if key_truthy option_data then
        match option_data with
        | Some instrument_key => Some (last_field instrument_key)
        | None => scan_token rest strike option_type
        end
      else scan_token rest strike option_type
    else scan_token rest strike option_type
  end.

(** [get_instrument_token(client, expiry, strike, option_type)];
    [chain_response] is what the chain request answers for an expiry,
    [None] when the request fails or its status is not ["success"]. *)
Definition get_instrument_token
    (chain_response : string -> option (list OptionChainItem))
    (expiry : string) (strike : Q) (option_type : Leg) : option string :=
  match chain_response expiry with
  | Some data => scan_token data strike option_type
  | None => None
  end.

(** The option data a chain element has for a type, and the elements the
    loop stops at. *)
Definition option_data (option_type : Leg) (chain_item : OptionChainItem)
    : option string :=
  match option_type with
  | CE => call_key chain_item
  | PE => put_key chain_item
  end.

Definition resolves (strike : Q) (option_type : Leg)
    (chain_item : OptionChainItem) : bool :=
  strike_is (FindStrike.strike_price (quotes chain_item)) strike
  && key_truthy (option_data option_type chain_item).

(** Whether a character occurs in a string. *)
Fixpoint contains (c : ascii) (s : string) : bool :=
  match s with
  | EmptyString => false
  | String c' rest => Ascii.eqb c' c || contains c rest
  end.

End FindToken.

(** ** trade_CE4.py: resolving a new instrument *)

Module CE4Instrument.

(** The dict written to [JSON_FILE], without its ["created_at"]. *)
Record InstrumentData := mkInstrumentData {
  instrument_key : string;
  strike_ce : Q;
  strike_pe : Q;
  expiry : string
}.

(** What the market answers during one call of [get_new_instrument], and
    whether [JSON_FILE] can be opened for writing. *)
Record Market := mkMarket {
  expiries : list string;
  chain : string -> list FindToken.OptionChainItem;
  token_chain : string -> option (list FindToken.OptionChainItem);
  write_ok : bool
}.

(** [JSON_FILE] ([None]: no file) and the module's
    [current_instrument_valid]. *)
Record Cache := mkCache {
  file : option InstrumentData;
  current_instrument_valid : bool
}.

(** [save_instrument_data]: an error on opening the file is logged and
    leaves the file as it was. *)
Definition save_instrument_data (c : Cache) (can_write : bool)
    (instrument_key : string) (strike_ce strike_pe : Q) (expiry : string)
    : Cache :=
  if can_write
  then mkCache (Some (mkInstrumentData instrument_key strike_ce strike_pe expiry))
         (current_instrument_valid c)
  else c.

(** [load_instrument_data()]; [readable] is false when the file cannot be
    read or parsed. *)
Definition load_instrument_data (c : Cache) (readable : bool)
    : option InstrumentData :=
  if readable then file c else None.

(** [get_new_instrument()].  Nothing in the body raises on a chain of
    numbers and strings, so the first of the three attempts returns. *)
Definition get_new_instrument (m : Market) (c : Cache)
    : option (string * Q * Q) * Cache :=
  let '(expiry, ce_strike, pe_strike) :=
    FindStrike.strike_prices (expiries m)
      (fun e => map FindToken.quotes (chain m e))
      CE4.LTP_LOWER_BOUND CE4.LTP_UPPER_BOUND in
  if String.eqb expiry "0" then (None, c)
  else
    let strike :=
      match CE4.STRIKE_PRICE_MODE with CE => ce_strike | PE => pe_strike end in
    let token :=
      FindToken.get_instrument_token (token_chain m) expiry strike
        CE4.STRIKE_PRICE_MODE in
    if negb (key_truthy token) then (None, c)
    else
      match token with
      | None => (None, c)
      | Some token =>
        let instrument_key := ("NSE_FO|" ++ token)%string in
        let c1 :=
          save_instrument_data c (write_ok m) instrument_key ce_strike
            pe_strike expiry in
        (Some (instrument_key, ce_strike, pe_strike),
         mkCache (file c1) true)
      end.

End CE4Instrument.

(** ** findstrikeprice2.py: the instrument token *)

Module FindToken2.

(** An element of the instruments list with its ["instrument_token"]. *)
Record Listed := mkListed {
  listing : FindStrike2.Instrument;
  instrument_token : option string
}.

(** [inst.get("strike_price") == strike] *)
Definition strike_is (v strike : option Q) : bool :=
  match v, strike with
  | Some q, Some k => Qeq_bool q k
  | None, None => true
  | _, _ => false
  end.

(** [inst.get("option_type") == option_type] *)
Definition type_is (ty : FindStrike2.OptionType) (option_type : Leg) : bool :=
  match ty, option_type with
  | FindStrike2.CE_type, CE => true
  | FindStrike2.PE_type, PE => true
  | _, _ => false
  end.

(** The [for inst in instruments] loop: the token of the first instrument
    with that expiry, strike and type, whatever that token is. *)
Fixpoint scan_token (instruments : list Listed) (expiry : string)
    (strike : option Q) (option_type : Leg) : option string :=
  match instruments with
  | [] => None
  | inst :: rest =>
    if String.eqb (FindStrike2.expiry (listing inst)) expiry
       && strike_is (FindStrike2.strike_price (listing inst)) strike
       && type_is (FindStrike2.option_type (listing inst)) option_type
    then instrument_token inst
    else scan_token rest expiry strike option_type
  end.

(** [get_instrument_token(client, expiry, strike, option_type)];
    [response] is [None] when the request raises. *)
Definition get_instrument_token (response : option (list Listed))
    (expiry : string) (strike : option Q) (option_type : Leg) : option string :=
  match response with
  | Some instruments => scan_token instruments expiry strike option_type
  | None => None
  end.

(** The instruments the loop stops at. *)
Definition resolves (expiry : string) (strike : option Q) (option_type : Leg)
    (inst : Listed) : bool :=
  String.eqb (FindStrike2.expiry (listing inst)) expiry
  && strike_is (FindStrike2.strike_price (listing inst)) strike
  && type_is (FindStrike2.option_type (listing inst)) option_type.

Definition type_of (leg : Leg) : FindStrike2.OptionType :=
  match leg with
  | CE => FindStrike2.CE_type
  | PE => FindStrike2.PE_type
  end.

End FindToken2.

(** ** trade_PE_CE1.py: resolving a new instrument *)

Module PECE1Instrument.

(** The dict written to [instrument_data_<mode>.json], without its
    ["created_at"]. *)
Record InstrumentData := mkInstrumentData {
  instrument_key : string;
  strike_ce : option Q;
  strike_pe : option Q;
  expiry : string
}.

(** What the two requests of one call answer, and whether the leg's file
    can be opened for writing. *)
Record Market := mkMarket {
  instruments : list FindToken2.Listed;
  token_response : option (list FindToken2.Listed);
  write_ok : bool
}.

(** The two files, one per leg. *)
Definition Files := Leg -> option InstrumentData.

Definition save_instrument_data (files : Files) (can_write : bool)
    (instrument_key : string) (strike_ce strike_pe : option Q)
    (expiry : string) (mode : Leg) : Files :=
  if can_write
  then fun leg =>
         match leg, mode with
         | CE, CE | PE, PE =>
           Some (mkInstrumentData instrument_key strike_ce strike_pe expiry)
         | _, _ => files leg
         end
  else files.

Definition load_instrument_data (files : Files) (readable : bool) (mode : Leg)
    : option InstrumentData :=
  if readable then files mode else None.

(** [get_new_instrument(mode)] *)
Definition get_new_instrument (m : Market) (files : Files) (mode : Leg)
    : option (string * option Q * option Q) * Files :=
  let '(expiry, ce_strike, pe_strike) :=
    FindStrike2.strike_prices (map FindToken2.listing (instruments m))
      PECE1.LTP_LOWER_BOUND PECE1.LTP_UPPER_BOUND in
  if String.eqb expiry "0" then (None, files)
  else
    let strike := match mode with CE => ce_strike | PE => pe_strike end in
    let token :=
      FindToken2.get_instrument_token (token_response m) expiry strike mode in
    if negb (key_truthy token) then (None, files)
    else
      match token with
      | None => (None, files)
      | Some token =>
        let instrument_key := ("NSE_FO|" ++ token)%string in
        (Some (instrument_key, ce_strike, pe_strike),
         save_instrument_data files (write_ok m) instrument_key ce_strike
           pe_strike expiry mode)
      end.

End PECE1Instrument.

(** ** trade_PE_CE1.py: the log buffer *)

Module PECE1Journal.

(** An element of [log_messages]. *)
Record LogEntry := mkLogEntry {
  timestamp : string;
  message : string
}.

(** [l[-n:]] *)
Definition last_n {A : Type} (n : nat) (l : list A) : list A :=
  skipn (List.length l - n) l.

Section Indicators.

(** The two literals of [mode_ind], and [USE_LIVE_TRADING]. *)
Variables LIVE_IND PAPER_IND : string.
Variable USE_LIVE_TRADING : bool.

(** The dict that [log(msg)] appends, [timestamp] being the formatted
    clock reading. *)
Definition entry (timestamp msg : string) : LogEntry :=
  let mode_ind := if USE_LIVE_TRADING then LIVE_IND else PAPER_IND in
  mkLogEntry timestamp (timestamp ++ " [" ++ mode_ind ++ "] - " ++ msg).

(** [log(msg)] *)
Definition log (log_messages : list LogEntry) (timestamp msg : string)
    : list LogEntry :=
  let log_messages := log_messages ++ [entry timestamp msg] in
  if (100 <? List.length log_messages)%nat
  then last_n 100 log_messages
  else log_messages.

(** One call of [log] after the other; a line is a clock reading and a
    message. *)
Definition log_all (log_messages : list LogEntry)
    (lines : list (string * string)) : list LogEntry :=
  fold_left (fun buffer line => log buffer (fst line) (snd line)) lines
    log_messages.

End Indicators.

End PECE1Journal.

(** ** trade_CE4.py: market hours *)

Module CE4Clock.

(** A [datetime.time] without time zone, as [now.time()] gives. *)
Record Time := mkTime {
  hour : Z;
  minute : Z;
  second : Z;
  microsecond : Z
}.

(** [dtime(h, m)] *)
Definition dtime (h m : Z) : Time := mkTime h m 0 0.

(** [a <= b] on times: the order of the tuples
    (hour, minute, second, microsecond). *)
Definition leb (a b : Time) : bool :=
  (hour a <? hour b)%Z
  || ((hour a =? hour b)%Z
      && ((minute a <? minute b)%Z
          || ((minute a =? minute b)%Z
              && ((second a <? second b)%Z
                  || ((second a =? second b)%Z
                      && (microsecond a <=? microsecond b)%Z))))).

(** [is_market_open(now)], on the time of day of [now]. *)
Definition is_market_open (now : Time) : bool :=
  leb (dtime 9 20) now && leb now (dtime 15 30).

(** The ranges that [datetime.time] enforces on its fields. *)
Definition valid (t : Time) : Prop :=
  (0 <= hour t < 24 /\ 0 <= minute t < 60 /\ 0 <= second t < 60
   /\ 0 <= microsecond t < 1000000)%Z.

(** Microseconds since midnight. *)
Definition of_day (t : Time) : Z :=
  (((hour t * 60 + minute t) * 60 + second t) * 1000000 + microsecond t)%Z.

End CE4Clock.

(** ** trade_PE_CE1.py: the cache of index instruments *)

Module PECE1Index.

(** An element of the instruments file, with the fields that are read;
    [instrument.get(field, '')] makes an absent field the empty string. *)
Record IndexInstrument := mkIndexInstrument {
  segment : string;
  trading_symbol : string;
  name : string;
  exchange_token : string;
  instrument_key : string
}.

(** [instruments_cache]: a dict, as its items in order of first insertion;
    no key occurs twice. *)
Definition Cache := list (string * IndexInstrument).

(** [d[k] = v] *)
Fixpoint assign (k : string) (v : IndexInstrument) (d : Cache) : Cache :=
  match d with
  | [] => [(k, v)]
  | (k', v') :: rest =>
    if String.eqb k' k then (k, v) :: rest else (k', v') :: assign k v rest
  end.

(** [d[k]] guarded by [k in d] *)
Fixpoint lookup (k : string) (d : Cache) : option IndexInstrument :=
  match d with
  | [] => None
  | (k', v') :: rest => if String.eqb k' k then Some v' else lookup k rest
  end.

(** [f"{segment}|{symbol}"] *)
Definition cache_key (segment symbol : string) : string :=
  (segment ++ "|" ++ symbol)%string.

(** The body of the [for instrument in instruments_data] loop. *)
Definition cache_one (d : Cache) (instrument : IndexInstrument) : Cache :=
  let d :=
    assign (cache_key (segment instrument) (trading_symbol instrument))
      instrument d in
  if String.eqb (segment instrument) "NSE_INDEX"
  then assign (cache_key (segment instrument) (name instrument)) instrument d
  else d.

(** The two module variables. *)
Record Store := mkStore {
  instruments_cache : Cache;
  cache_expiry : option Q
}.

(** [download_instruments()]: [response] is the parsed instruments file,
    [None] when the request or the parsing raises; [now] is
    [dt.now().timestamp()]. *)
Definition download_instruments (response : option (list IndexInstrument))
    (now : Q) (st : Store) : bool * Store :=
  match response with
  | Some instruments_data =>
    (true,
     mkStore (fold_left cache_one instruments_data [])
       (Some (now + 6 * 60 * 60)))
  | None => (false, st)
  end.

(** [not instruments_cache or not cache_expiry
     or dt.now().timestamp() > cache_expiry] *)
Definition stale (st : Store) (now : Q) : bool :=
  match instruments_cache st with
  | [] => true
  | _ :: _ =>
    negb (Py.truthy (cache_expiry st))
    || match cache_expiry st with
       | Some expiry => Py.ltb expiry now
       | None => true
       end
  end.

(** [get_cached_instrument(segment, symbol)]; [now_check] and
    [now_download] are the two clock readings. *)
Definition get_cached_instrument (st : Store) (now_check now_download : Q)
    (response : option (list IndexInstrument)) (segment symbol : string)
    : option IndexInstrument * Store :=
  let '(ok, st1) :=
    if stale st now_check
    then download_instruments response now_download st
    else (true, st) in
  if negb ok then (None, st1)
  else
    let key := cache_key segment symbol in
    match lookup key (instruments_cache st1) with
    | Some instrument => (Some instrument, st1)
    | None =>
      if String.eqb segment "NSE_INDEX" then
        let name_key := cache_key segment symbol in
        match lookup name_key (instruments_cache st1) with
        | Some instrument => (Some instrument, st1)
        | None => (None, st1)
        end
      else (None, st1)
    end.

(** The instruments that a lookup of segment and symbol can return: those
    of the segment with that trading symbol or, for an index, that name. *)
Definition listed_as (segment symbol : string) (instrument : IndexInstrument)
    : bool :=
  String.eqb (PECE1Index.segment instrument) segment
  && (String.eqb (trading_symbol instrument) symbol
      || (String.eqb (PECE1Index.segment instrument) "NSE_INDEX"
          && String.eqb (name instrument) symbol)).

End PECE1Index.

(** ** trade_PE_CE1.py: the summary of the books *)

Module PECE1Books.
Import PECE1.

(** [sum(...)]: from [0], left to right. *)
Definition sum (values : list Q) : Q := fold_left Qplus values 0.

(** [t.get("charges", {}).get("total", 0)] *)
Definition charges_total (t : Trade) : Q :=
  match charges t with
  | Some c => total c
  | None => 0
  end.

(** The three dicts returned by [get_full_summary]. *)
Record LegSummary := mkLegSummary {
  leg_day_pnl : Q;
  leg_capital_used : Q;
  leg_trades : list Trade
}.

Record Overall := mkOverall {
  overall_day_pnl : Q;
  overall_capital_used : Q;
  overall_charges : Q;
  overall_balance : Q
}.

Record Summary := mkSummary {
  ce : LegSummary;
  pe : LegSummary;
  overall : Overall
}.

Definition get_full_summary (L : Ledger) : Summary :=
  let overall_day_pnl := ce_day_pnl L + pe_day_pnl L in
  let overall_capital_used := ce_capital_used L + pe_capital_used L in
  let all_trades := ce_trades L ++ pe_trades L in
  let overall_charges := sum (map charges_total all_trades) in
  mkSummary
    (mkLegSummary (ce_day_pnl L) (ce_capital_used L) (ce_trades L))
    (mkLegSummary (pe_day_pnl L) (pe_capital_used L) (pe_trades L))
    (mkOverall overall_day_pnl overall_capital_used
       (Py.round2 overall_charges) (Py.round2 (current_balance L))).

(** The net profits recorded in a log, in the order of the log. *)
Definition nets (log : list Trade) : list Q :=
  flat_map
    (fun t =>
       match net_profit t with
       | Some n => [n]
       | None => []
       end)
    log.

(** [acc += v] for each value in turn, from [start]. *)
Definition running (start : Q) (values : list Q) : Q :=
  fold_left Qplus values start.

(** The last ["day_pnl"] written into a record of the log; [0.0], the value
    the accumulators start with, when no record has one. *)
Definition last_day_pnl (log : list Trade) : Q :=
  fold_left
    (fun acc t =>
       match day_pnl t with
       | Some p => p
       | None => acc
       end)
    log 0.

(** A record either has none of the profit fields, or all of them, with
    the net profit that [place_order] assigns:
    [round(gross_profit - charges["total"], 2)]. *)
Definition settled (t : Trade) : Prop :=
  match gross_profit t, net_profit t, charges t, day_pnl t with
  | Some g, Some n, Some c, Some _ => n = Py.round2 (g - total c)
  | None, None, None, None => True
  | _, _, _, _ => False
  end.

(** The accumulators agree with the logs: each leg's day P&L is what
    adding the net profits recorded in its log, one after the other from
    [0.0], gives, and it is the ["day_pnl"] written into the last record of
    the log that has one. *)
Definition balanced (L : Ledger) : Prop :=
  ce_day_pnl L == running 0 (nets (ce_trades L))
  /\ pe_day_pnl L == running 0 (nets (pe_trades L))
  /\ ce_day_pnl L == last_day_pnl (ce_trades L)
  /\ pe_day_pnl L == last_day_pnl (pe_trades L)
  /\ Forall settled (ce_trades L)
  /\ Forall settled (pe_trades L).

(** From [L] to [L'] the log of [leg] has grown by records whose net
    profits, added one after the other, take the leg's day P&L and the
    balance from their values in [L] to their values in [L']. *)
Definition booked (leg : Leg) (L L' : Ledger) : Prop :=
  exists added,
    trades_of leg L' = trades_of leg L ++ added
    /\ day_pnl_of leg L' == running (day_pnl_of leg L) (nets added)
    /\ current_balance L' == running (current_balance L) (nets added).

End PECE1Books.

(** ** trade_PE_CE1.py: the runner of one leg *)

Module PECE1Loop.
Import PECE1.

(** What the collaborators answer during one pass of the [while] loop of
    [run_option_loop]; clock readings are seconds. *)
Record Poll := mkPoll {
  fetched : option Q;              (* get_ltp_rest(strategy.instrument_key) *)
  order_gateway : Gateway;         (* inside process_price_update *)
  range_answers : list Attempt;    (* ensure_instrument inside it *)
  clock_tick : Q;                  (* dt.now(ist) after the update *)
  error_answers : list Attempt;    (* ensure_instrument after three errors *)
  clock_check : Q;                 (* dt.now(ist) of the staleness test *)
  stale_answers : list Attempt;    (* ensure_instrument after it *)
  clock_reset : Q                  (* dt.now(ist) after that *)
}.

(** The local variables of [run_option_loop] and the module's ledger. *)
Record Loop := mkLoop {
  strategy : Strategy;
  ledger : Ledger;
  errors : Z;
  last_price_time : Q
}.

(** [OptionStrategy.__init__(mode)]: [cached] is [None] when
    [load_instrument_data] returned nothing usable, otherwise the
    ["instrument_key"] of the dict it returned; [ltp] is what [get_ltp_rest]
    then answered. *)
Definition init (mode : Leg) (cached : option Key) (ltp : option Q) : Strategy :=
  match cached with
  | Some key => mkStrategy mode key false None None None ltp true
  | None => mkStrategy mode None false None None None None true
  end.

(** The attributes as [process_price_update] leaves them when it raises:
    the only assignment made before a comparison or sum on [None] is the
    raised peak. *)
Definition state_at_raise (s : Strategy) (ltp : option Q) : Strategy :=
  match peak s, ltp with
  | Some pk, Some x => if Py.ltb pk x then set_peak (Some x) s else s
  | _, _ => s
  end.

Section Mode.

Variable USE_LIVE_TRADING : bool.

(** [errors += 1] and what the third error in a row sets off. *)
Definition count_error (p : Poll) (st : Loop) : Outcome (Loop * list Event) :=
  let errors' := (errors st + 1)%Z in
  if (3 <=? errors')%Z then
    r <- ensure_instrument (reset_position (strategy st)) (error_answers p) ;;
    Ok (mkLoop (fst r) (ledger st) 0 (last_price_time st), snd r)
  else
    Ok (mkLoop (strategy st) (ledger st) errors' (last_price_time st), []).

(** [if (dt.now(ist) - last_price_time).total_seconds() > 60: ...] *)
Definition stale_check (p : Poll) (st : Loop) (evs : list Event)
    : Outcome (Loop * list Event) :=
  if Py.ltb 60 (clock_check p - last_price_time st) then
    r <- ensure_instrument (reset_position (strategy st)) (stale_answers p) ;;
    Ok (mkLoop (fst r) (ledger st) (errors st) (clock_reset p), evs ++ snd r)
  else Ok (st, evs).

(** The body of the [while] loop, with its [try] ... [except Exception]:
    an exception out of [process_price_update] ends the pass at once. *)
Definition iteration (p : Poll) (st : Loop) : Outcome (Loop * list Event) :=
  if Py.truthy (fetched p) then
    match process_price_update USE_LIVE_TRADING (strategy st) (ledger st)
            (fetched p) (order_gateway p) (range_answers p) with
    | Ok (s', L', evs) => stale_check p (mkLoop s' L' 0 (clock_tick p)) evs
    | TypeError =>
      Ok (mkLoop (state_at_raise (strategy st) (fetched p)) (ledger st)
            (errors st) (last_price_time st), [])
    | Retrying => Retrying
    end
  else
    r <- count_error p st ;;
    stale_check p (fst r) (snd r).

(** The [while] loop: [polls] holds one element for each pass made while
    the leg's flag ([ce_running] or [pe_running]) was found set; the loop
    ends when the flag is found cleared or [strategy.running] is false. *)
Fixpoint loop (polls : list Poll) (st : Loop) : Outcome (Loop * list Event) :=
  match polls with
  | [] => Ok (st, [])
  | p :: rest =>
    if negb (running (strategy st)) then Ok (st, [])
    else
      r <- iteration p st ;;
      r' <- loop rest (fst r) ;;
      Ok (fst r', snd r ++ snd r')
  end.

(** What the collaborators answer before and after the loop. *)
Record Session := mkSession {
  cached : option Key;             (* load_instrument_data(mode) *)
  first_ltp : option Q;            (* get_ltp_rest in __init__ *)
  first_answers : list Attempt;    (* ensure_instrument before the loop *)
  start_time : Q;                  (* dt.now(ist) before the loop *)
  polls : list Poll;
  exit_price : option Q;           (* get_ltp_rest after the loop *)
  exit_gateway : Gateway           (* inside the closing place_order *)
}.

(** [run_option_loop(mode)] with [mode] one of ["CE"] and ["PE"], as
    [api_start] calls it. *)
Definition run_option_loop (mode : Leg) (L : Ledger) (w : Session)
    : Outcome (Strategy * Ledger * list Event) :=
  let strategy0 := init mode (cached w) (first_ltp w) in
  r0 <- (if negb (key_truthy (instrument_key strategy0))
         then ensure_instrument strategy0 (first_answers w)
         else Ok (strategy0, [])) ;;
  r <- loop (polls w) (mkLoop (fst r0) L 0 (start_time w)) ;;
  let st := fst r in
  let evs := snd r0 ++ snd r in
  if bought (strategy st) then
    match exit_price w with
    | Some x =>
      if Py.truthy (exit_price w) then
        let '(ok, L') :=
          place_order USE_LIVE_TRADING (ledger st) (exit_gateway w)
            (instrument_key (strategy st)) SELL (Some x) mode in
        Ok (strategy st, L',
            evs ++ [PlaceOrder (instrument_key (strategy st)) SELL x ok])
      else Ok (strategy st, ledger st, evs)
    | None => Ok (strategy st, ledger st, evs)
    end
  else Ok (strategy st, ledger st, evs).

End Mode.

End PECE1Loop.

(** ** Vocabulary of the properties of a leg's log *)

Module PECE1Log.
Import PECE1.

(** The position held was opened by the last record of the leg's log. *)
Definition opened_by (s : Strategy) (L : Ledger) : Prop :=
  bought s = true ->
  exists e earlier b,
    entry s = Some e
    /\ trades_of (mode s) L = earlier ++ [b]
    /\ action b = BUY
    /\ trade_key b = instrument_key s
    /\ price b = Py.round2 e.

(** Every SELL of a log stands right after a BUY of the same instrument
    and carries the gross profit of the two recorded prices; [prev] is the
    record before the first one. *)
Fixpoint paired (prev : option Trade) (trades : list Trade) : Prop :=
  match trades with
  | [] => True
  | t :: rest =>
    match action t with
    | BUY => gross_profit t = None
    | SELL =>
      exists b,
        prev = Some b /\ action b = BUY /\ trade_key b = trade_key t
        /\ gross_profit t
           = Some (Py.round2 ((price t - price b) * inject_Z LOT_SIZE))
    end
    /\ paired (Some t) rest
  end.

(** The orders of a trace that went through, as the log records them. *)
Definition recorded_orders (evs : list Event) : list (Key * Side * Q) :=
  flat_map
    (fun ev =>
       match ev with
       | PlaceOrder key side x true => [(key, side, Py.round2 x)]
       | _ => []
       end)
    evs.

Definition order_of (t : Trade) : Key * Side * Q :=
  (trade_key t, action t, price t).

Definition other (leg : Leg) : Leg :=
  match leg with CE => PE | PE => CE end.

(** From [L] to [L'] the log of [leg] has grown by the orders of [evs]
    that went through, and the other leg's log and accumulators are as
    they were. *)
Definition grows (leg : Leg) (L L' : Ledger) (evs : list Event) : Prop :=
  trades_of (other leg) L' = trades_of (other leg) L
  /\ day_pnl_of (other leg) L' = day_pnl_of (other leg) L
  /\ capital_used_of (other leg) L' = capital_used_of (other leg) L
  /\ exists new,
       trades_of leg L' = trades_of leg L ++ new
       /\ map order_of new = recorded_orders evs.

(** The stop-loss and the peak of a position held are those its entry
    gives: the stop stays [STOP_LOSS_OFFSET] under the entry, the peak is
    never under it. *)
Definition coherent (s : Strategy) : Prop :=
  bought s = true ->
  exists e pk,
    entry s = Some e /\ stop s = Some (e - STOP_LOSS_OFFSET)
    /\ peak s = Some pk /\ e <= pk.

End PECE1Log.

(** Uptick to 155 (BUY), 156 (a new peak, held), 154 (at the trailing
    stop 156 - 1 or under it: SELL). *)
Definition buy_hold_sell : list PECE1.Tick :=
  [PECE1.mkTick (Some 155) demo_gateway [];
   PECE1.mkTick (Some 156) demo_gateway [];
   PECE1.mkTick (Some 154) demo_gateway []].

(** A pass that gets the price [x] at second [t], and a pass that gets no
    price (the search it may set off finds [other_key] at once). *)
Definition tick_poll (x t : Q) : PECE1Loop.Poll :=
  PECE1Loop.mkPoll (Some x) demo_gateway [] t [] t [] t.


(** A session that starts from the cached instrument at 150, buys at 155,
    holds at 156, is stopped, and squares off at 153. *)
Definition demo_session : PECE1Loop.Session :=
  PECE1Loop.mkSession (Some demo_key) (Some 150) [] 0
    [tick_poll 155 2; tick_poll 156 4] (Some 153) demo_gateway.


(** The chain of scenario D with the instrument keys of its options, and
    a market that answers both chain requests with it. *)
Definition keyed_chain : list FindToken.OptionChainItem :=
  [FindToken.mkOptionChainItem
     (FindStrike.mkChainItem (Some 24000) (Some 320) (Some 120))
     (Some "NSE_FO|41230"%string) (Some "NSE_FO|41231"%string);
   FindToken.mkOptionChainItem
     (FindStrike.mkChainItem (Some 24100) (Some 150) (Some 250))
     (Some "NSE_FO|41234"%string) (Some "NSE_FO|41235"%string)].

Definition demo_market : CE4Instrument.Market :=
  CE4Instrument.mkMarket one_expiry (fun _ => keyed_chain)
    (fun _ => Some keyed_chain) true.

Definition no_cache : CE4Instrument.Cache := CE4Instrument.mkCache None false.

(** The instruments of [three_strikes] with their tokens, and a market
    that answers both requests with them. *)
Definition listed_strikes : list FindToken2.Listed :=
  [FindToken2.mkListed
     (FindStrike2.mkInstrument "2025-09-25" (Some 54000) FindStrike2.CE_type)
     (Some "51001"%string);
   FindToken2.mkListed
     (FindStrike2.mkInstrument "2025-09-25" (Some 150) FindStrike2.CE_type)
     (Some "51002"%string);
   FindToken2.mkListed
     (FindStrike2.mkInstrument "2025-09-25" (Some 90) FindStrike2.CE_type)
     (Some "51003"%string);
   FindToken2.mkListed
     (FindStrike2.mkInstrument "2025-09-25" (Some 54000) FindStrike2.PE_type)
     (Some "51004"%string);
   FindToken2.mkListed
     (FindStrike2.mkInstrument "2025-09-25" (Some 500) FindStrike2.PE_type)
     (Some "51005"%string);
   FindToken2.mkListed
     (FindStrike2.mkInstrument "2025-09-25" (Some 210) FindStrike2.PE_type)
     (Some "51006"%string)].

Definition listed_market : PECE1Instrument.Market :=
  PECE1Instrument.mkMarket listed_strikes (Some listed_strikes) true.

Definition no_files : PECE1Instrument.Files := fun _ => None.

(** A listing with an index that is listed twice and an equity. *)
Definition index_listing : list PECE1Index.IndexInstrument :=
  [ PECE1Index.mkIndexInstrument "NSE_INDEX" "NIFTY" "Nifty 50" "26000"
      "NSE_INDEX|Nifty 50";
    PECE1Index.mkIndexInstrument "NSE_EQ" "INFY" "INFOSYS" "1594"
      "NSE_EQ|INE009A01021";
    PECE1Index.mkIndexInstrument "NSE_INDEX" "NIFTY 50" "Nifty 50" "26001"
      "NSE_INDEX|Nifty 50" ].

(** * Properties *)

(** ** Rounding to two decimals *)

Module PyFacts.

Lemma ltb_lt (x y : Q) : Py.ltb x y = true <-> x < y.
Proof.
  unfold Py.ltb. rewrite negb_true_iff.
  split; intros H.
  - apply Qnot_le_lt. intros Hle. apply Qle_bool_iff in Hle. congruence.
  - destruct (Qle_bool y x) eqn:E; [|reflexivity].
    apply Qle_bool_iff in E. exfalso. apply (Qlt_not_le _ _ H E).
Qed.

Lemma leb_le (x y : Q) : Py.leb x y = true <-> x <= y.
Proof. apply Qle_bool_iff. Qed.

Lemma ltb_ge (x y : Q) : Py.ltb x y = false <-> y <= x.
Proof.
  unfold Py.ltb. rewrite negb_false_iff. apply Qle_bool_iff.
Qed.

Lemma leb_gt (x y : Q) : Py.leb x y = false <-> y < x.
Proof.
  rewrite <- ltb_lt. unfold Py.ltb, Py.leb.
  destruct (Qle_bool x y); simpl; split; congruence.
Qed.

Lemma truthy_some (q : Q) : Py.truthy (Some q) = true <-> ~ q == 0.
Proof.
  simpl. rewrite negb_true_iff. split; intros H.
  - intros E. apply Qeq_bool_iff in E. congruence.
  - destruct (Qeq_bool q 0) eqn:E; [|reflexivity].
    apply Qeq_bool_iff in E. contradiction.
Qed.

End PyFacts.

(** ** The charge calculator *)

(** C7: for positive entry price, exit price and quantity,
    [calculate_charges] (in trade_PE_CE1.py and in trade_CE4.py) returns
    brokerage = 2 * the flat fee per order, stt on the exit leg only, stamp
    duty on the entry leg only, transaction charges, sebi and ipft fees
    proportional to the turnover, gst on brokerage + transaction charges,
    and a total that is the sum of the seven components.  Being a function
    of its three arguments, it returns the same breakdown on every call. *)
Theorem calculate_charges_breakdown (entry_price exit_price : Q) (quantity : Z) :
  0 < entry_price -> 0 < exit_price -> (0 < quantity)%Z ->
  breakdown PECE1.BROKERAGE_PER_ORDER PECE1.STT_RATE PECE1.TRANSACTION_RATE
    PECE1.STAMP_DUTY_RATE PECE1.SEBI_TURNOVER PECE1.IPFT_RATE PECE1.GST_RATE
    entry_price exit_price quantity
    (PECE1.calculate_charges entry_price exit_price quantity)
  /\ breakdown CE4.BROKERAGE_PER_ORDER CE4.STT_RATE CE4.TRANSACTION_RATE
    CE4.STAMP_DUTY_RATE CE4.SEBI_TURNOVER CE4.IPFT_RATE CE4.GST_RATE
    entry_price exit_price quantity
    (CE4.calculate_charges entry_price exit_price quantity).
Proof.
  intros He Hx Hq.
  assert (Habs : Qabs exit_price == exit_price)
    by (apply Qabs_pos; apply Qlt_le_weak; exact Hx).
  split; unfold breakdown; cbn [brokerage stt txn_charges stamp_duty sebi ipft
    gst total PECE1.calculate_charges CE4.calculate_charges];
    repeat split; try reflexivity.
  rewrite Habs. reflexivity.
Qed.

Lemma calculate_charges_breakdown_witness :
  breakdown 20 (625 # 1000000) (3503 # 10000000) (3 # 100000)
    (10 / 10000000) ((50 # 100) / 100000) (18 # 100) 100 101 70
    (PECE1.calculate_charges 100 101 70)
  /\ total (CE4.calculate_charges 100 101 70) == 2886453039 # 50000000.
Proof.
  split.
  - apply (calculate_charges_breakdown 100 101 70); reflexivity.
  - reflexivity.
Defined.

(** ** The ledger: [place_order] *)

Section LastBuy.

Variable key : Key.

Lemma last_buy_skips_sell (trades : list Trade) (t : Trade) :
  action t = SELL -> last_buy (trades ++ [t]) key = last_buy trades key.
Proof.
  intros Ht. unfold last_buy. rewrite rev_unit. simpl.
  unfold is_buy_of at 1. rewrite Ht, andb_false_r. reflexivity.
Qed.

(** The reverse scan stops at the last BUY of the instrument, whatever
    follows it in the log. *)
Lemma last_buy_found (before after : list Trade) (b : Trade) :
  is_buy_of key b = true ->
  forallb (fun t => negb (is_buy_of key t)) after = true ->
  last_buy (before ++ b :: after) key = Some b.
Proof.
  intros Hb Hafter. unfold last_buy.
  rewrite rev_app_distr. simpl. rewrite <- app_assoc. simpl.
  assert (Hrev : forallb (fun t => negb (is_buy_of key t)) (rev after) = true).
  { rewrite forallb_forall in *. intros t Ht. apply Hafter.
    apply in_rev. exact Ht. }
  induction (rev after) as [|a l IH]; simpl.
  - rewrite Hb. reflexivity.
  - simpl in Hrev. apply andb_true_iff in Hrev. destruct Hrev as [Ha Hl].
    apply negb_true_iff in Ha. rewrite Ha. apply IH. exact Hl.
Qed.

Lemma last_buy_none (trades : list Trade) :
  forallb (fun t => negb (is_buy_of key t)) trades = true ->
  last_buy trades key = None.
Proof.
  intros H. unfold last_buy.
  assert (Hrev : forall t, In t (rev trades) -> is_buy_of key t = false).
  { intros t Ht. rewrite forallb_forall in H. apply negb_true_iff.
    apply H. apply in_rev. exact Ht. }
  induction (rev trades) as [|a l IH]; simpl.
  - reflexivity.
  - rewrite (Hrev a) by (left; reflexivity).
    apply IH. intros t Ht. apply Hrev. right. exact Ht.
Qed.

Lemma last_buy_is_buy (trades : list Trade) (b : Trade) :
  last_buy trades key = Some b -> In b trades /\ is_buy_of key b = true.
Proof.
  unfold last_buy. intros H. apply find_some in H.
  destruct H as [Hin Hb]. split; [apply in_rev; exact Hin | exact Hb].
Qed.

End LastBuy.


Lemma or_else_passed (x : Q) (alt : option Q) :
  0 < x -> Py.or_else (Some x) alt = Some x.
Proof.
  intros Hx. unfold Py.or_else.
  replace (Py.truthy (Some x)) with true; [reflexivity|].
  symmetry. apply PyFacts.truthy_some. intros E. rewrite E in Hx.
  apply (Qlt_irrefl 0 Hx).
Qed.


Lemma demo_buy_is_last :
  last_buy (PECE1.trades_of PE after_buy) demo_key = Some demo_buy.
Proof. vm_compute. reflexivity. Qed.



(** C6 (amended): a SELL is paired with the most recent BUY of the same
    instrument in the leg's log, found by the reverse scan, whether or not
    an earlier SELL was already paired with that BUY; when the log holds no
    BUY of the instrument the SELL record is still appended, with gross
    profit, net profit, charges and day P&L left empty, the leg's
    accumulators are unchanged, and [place_order] reports success. *)
Theorem sell_pairs_last_buy (L : PECE1.Ledger) (gw : Gateway) (key : Key)
    (leg : Leg) (x : Q) :
  0 < x ->
  (forall (before after : list Trade) (b : Trade),
      PECE1.trades_of leg L = before ++ b :: after ->
      is_buy_of key b = true ->
      forallb (fun t => negb (is_buy_of key t)) after = true ->
      exists (t : Trade) (L' : PECE1.Ledger),
        PECE1.place_order false L gw key SELL (Some x) leg = (true, L')
        /\ PECE1.trades_of leg L' = PECE1.trades_of leg L ++ [t]
        /\ action t = SELL /\ price t = Py.round2 x
        /\ gross_profit t
            = Some (Py.round2 ((Py.round2 x - price b) * inject_Z PECE1.LOT_SIZE)))
  /\ (forallb (fun t => negb (is_buy_of key t)) (PECE1.trades_of leg L) = true ->
      exists (t : Trade) (L' : PECE1.Ledger),
        PECE1.place_order false L gw key SELL (Some x) leg = (true, L')
        /\ PECE1.trades_of leg L' = PECE1.trades_of leg L ++ [t]
        /\ action t = SELL /\ price t = Py.round2 x
        /\ gross_profit t = None /\ net_profit t = None
        /\ charges t = None /\ day_pnl t = None
        /\ PECE1.day_pnl_of leg L' = PECE1.day_pnl_of leg L
        /\ PECE1.capital_used_of leg L' = PECE1.capital_used_of leg L
        /\ PECE1.current_balance L' = PECE1.current_balance L).
Proof.
  intros Hx. split.
  - intros before after b Hlog Hb Hafter.
    unfold PECE1.place_order. rewrite (or_else_passed x _ Hx). simpl negb.
    cbv iota. rewrite last_buy_skips_sell by reflexivity.
    assert (Hlast : last_buy (PECE1.trades_of leg L) key = Some b)
      by (rewrite Hlog; apply last_buy_found; assumption).
    rewrite Hlast.
    eexists. eexists. split; [reflexivity|].
    split; [destruct leg; reflexivity|].
    repeat split.
  - intros Hnone.
    unfold PECE1.place_order. rewrite (or_else_passed x _ Hx). simpl negb.
    cbv iota. rewrite last_buy_skips_sell by reflexivity.
    rewrite (last_buy_none key _ Hnone).
    eexists. eexists. split; [reflexivity|].
    split; [destruct leg; reflexivity|].
    destruct leg; repeat split.
Qed.

Lemma sell_pairs_last_buy_witness :
  (exists (t : Trade) (L' : PECE1.Ledger),
      PECE1.place_order false after_sell demo_gateway demo_key SELL (Some 120) PE
        = (true, L')
      /\ PECE1.trades_of PE L' = PECE1.trades_of PE after_sell ++ [t]
      /\ action t = SELL /\ price t = Py.round2 120
      /\ gross_profit t
          = Some (Py.round2 ((Py.round2 120 - price demo_buy)
                             * inject_Z PECE1.LOT_SIZE)))
  /\ (exists (t : Trade) (L' : PECE1.Ledger),
      PECE1.place_order false PECE1.empty_ledger demo_gateway demo_key SELL
        (Some 120) PE = (true, L')
      /\ PECE1.trades_of PE L' = PECE1.trades_of PE PECE1.empty_ledger ++ [t]
      /\ action t = SELL /\ price t = Py.round2 120
      /\ gross_profit t = None /\ net_profit t = None
      /\ charges t = None /\ day_pnl t = None
      /\ PECE1.day_pnl_of PE L' = PECE1.day_pnl_of PE PECE1.empty_ledger
      /\ PECE1.capital_used_of PE L' = PECE1.capital_used_of PE PECE1.empty_ledger
      /\ PECE1.current_balance L' = PECE1.current_balance PECE1.empty_ledger).
Proof.
  assert (Hx : 0 < 120) by reflexivity.
  split.
  - assert (Hlog : PECE1.trades_of PE after_sell
                   = [] ++ demo_buy :: tl (PECE1.pe_trades after_sell))
      by (vm_compute; reflexivity).
    assert (Hafter : forallb (fun t => negb (is_buy_of demo_key t))
                       (tl (PECE1.pe_trades after_sell)) = true)
      by (vm_compute; reflexivity).
    exact (proj1 (sell_pairs_last_buy after_sell demo_gateway demo_key PE 120 Hx)
             [] (tl (PECE1.pe_trades after_sell)) demo_buy Hlog eq_refl Hafter).
  - exact (proj2 (sell_pairs_last_buy PECE1.empty_ledger demo_gateway demo_key
                    PE 120 Hx) eq_refl).
Defined.

(** C6 as stated fails: with the log BUY at 100, SELL at 101 the only BUY is
    already matched, so no unmatched BUY is left for a second SELL; the
    second SELL (at 120) is nevertheless paired with that BUY and booked
    with a gross profit of (120 - 100) * 70 = 1400, which also moves the
    leg's day P&L. *)
Lemma second_sell_reuses_matched_buy :
  Spec.last_unmatched_buy (PECE1.pe_trades after_sell) demo_key = None
  /\ last_buy (PECE1.pe_trades after_sell) demo_key = Some demo_buy
  /\ exists t g,
       PECE1.pe_trades after_second_sell = PECE1.pe_trades after_sell ++ [t]
       /\ action t = SELL
       /\ gross_profit t = Some g /\ g == 1400
       /\ ~ PECE1.pe_day_pnl after_second_sell == PECE1.pe_day_pnl after_sell.
Proof.
  split; [vm_compute; reflexivity|].
  split; [vm_compute; reflexivity|].
  eexists. eexists. split; [vm_compute; reflexivity|].
  split; [reflexivity|]. split; [reflexivity|].
  split; [vm_compute; reflexivity|].
  vm_compute. intros H. discriminate H.
Qed.

(** ** The position state machine *)

Lemma out_of_range_negb (lower upper ltp : Q) :
  Py.ltb ltp lower || Py.ltb upper ltp
  = negb (Py.leb lower ltp && Py.leb ltp upper).
Proof.
  unfold Py.ltb, Py.leb.
  destruct (Qle_bool lower ltp), (Qle_bool ltp upper); reflexivity.
Qed.

Lemma well_ordered_searches (long : bool) (evs rest : list Event) :
  evs <> [] -> Forall (eq GetNewInstrument) evs ->
  well_ordered long (evs ++ rest) = well_ordered false rest.
Proof.
  intros Hne Hall. revert long.
  induction Hall as [|ev evs Hev Hall IH]; [contradiction|].
  intros long. subst ev. simpl.
  destruct evs as [|ev' evs']; [reflexivity|].
  apply IH. discriminate.
Qed.

Module PECE1Facts.
Import PECE1 PECE1Inv.

Lemma ensure_instrument_ok (s s' : Strategy) (answers : list Attempt)
    (evs : list Event) :
  running s = true ->
  ensure_instrument s answers = Ok (s', evs) ->
  evs <> [] /\ Forall (eq GetNewInstrument) evs
  /\ mode s' = mode s /\ running s' = true
  /\ bought s' = bought s /\ entry s' = entry s
  /\ stop s' = stop s /\ peak s' = peak s
  /\ exists a q, In a answers /\ acceptable in_range a = true
       /\ instrument_key s' = new_key a
       /\ new_ltp a = Some q /\ prev_price s' = Some q /\ in_range q = true.
Proof.
  intros Hrun. revert s' evs.
  induction answers as [|a rest IH]; intros s' evs H; simpl in H;
    rewrite Hrun in H; simpl in H; [discriminate|].
  assert (Hrec : forall r : Outcome (Strategy * list Event),
             (x <- r ;; Ok (fst x, GetNewInstrument :: snd x)) = Ok (s', evs) ->
             exists evs0, r = Ok (s', evs0) /\ evs = GetNewInstrument :: evs0).
  { intros [[s0 evs0]| |] Hr; simpl in Hr; try discriminate.
    inversion Hr; subst. exists evs0. split; reflexivity. }
  assert (Hstep : forall evs0, ensure_instrument s rest = Ok (s', evs0) ->
             evs = GetNewInstrument :: evs0 ->
             evs <> [] /\ Forall (eq GetNewInstrument) evs
             /\ mode s' = mode s /\ running s' = true
             /\ bought s' = bought s /\ entry s' = entry s
             /\ stop s' = stop s /\ peak s' = peak s
             /\ exists a0 q, In a0 (a :: rest) /\ acceptable in_range a0 = true
                  /\ instrument_key s' = new_key a0
                  /\ new_ltp a0 = Some q /\ prev_price s' = Some q
                  /\ in_range q = true).
  { intros evs0 H0 ->. destruct (IH _ _ H0)
      as (_ & Hall & Hm & Hr & Hb & He & Hs & Hp & a0 & q & Hin & Hrest).
    split; [discriminate|]. split; [constructor; [reflexivity|exact Hall]|].
    repeat (split; [assumption|]).
    exists a0, q. split; [right; exact Hin|exact Hrest]. }
  destruct (key_truthy (new_key a)) eqn:Hk; simpl in H.
  - destruct (Py.truthy (new_ltp a)) eqn:Ht; simpl in H.
    + destruct (new_ltp a) as [q|] eqn:Hq; [|discriminate Ht].
      destruct (in_range q) eqn:Hin.
      * inversion H; subst. simpl.
        split; [discriminate|]. split; [repeat constructor|].
        repeat (split; [first [reflexivity|assumption]|]).
        exists a, q. split; [left; reflexivity|].
        unfold acceptable. rewrite Hk, Hq, Ht, Hin.
        repeat split; reflexivity.
      * destruct (Hrec _ H) as (evs0 & H0 & Hevs). exact (Hstep evs0 H0 Hevs).
    + destruct (Hrec _ H) as (evs0 & H0 & Hevs). exact (Hstep evs0 H0 Hevs).
  - destruct (Hrec _ H) as (evs0 & H0 & Hevs). exact (Hstep evs0 H0 Hevs).
Qed.

Lemma ensure_instrument_total (s : Strategy) (answers : list Attempt) :
  existsb (acceptable in_range) answers = true ->
  exists s' evs, ensure_instrument s answers = Ok (s', evs).
Proof.
  intros Hex. destruct (running s) eqn:Hrun.
  - induction answers as [|a rest IH]; [discriminate|].
    simpl. rewrite Hrun. simpl.
    simpl in Hex. unfold acceptable at 1 in Hex.
    destruct (key_truthy (new_key a)); simpl in *.
    + destruct (Py.truthy (new_ltp a)); simpl in *.
      * destruct (new_ltp a) as [q|]; simpl in *.
        -- destruct (in_range q); simpl in *.
           ++ eexists. eexists. reflexivity.
           ++ destruct (IH Hex) as (s' & evs & ->). simpl.
              eexists. eexists. reflexivity.
        -- destruct (IH Hex) as (s' & evs & ->). simpl.
           eexists. eexists. reflexivity.
      * destruct (IH Hex) as (s' & evs & ->). simpl.
        eexists. eexists. reflexivity.
    + destruct (IH Hex) as (s' & evs & ->). simpl.
      eexists. eexists. reflexivity.
  - exists s, []. destruct answers; simpl; rewrite Hrun; reflexivity.
Qed.

Section Step.

Variable live : bool.

Lemma range_check (ltp : Q) :
  Py.ltb ltp LTP_LOWER_BOUND || Py.ltb LTP_UPPER_BOUND ltp = negb (in_range ltp).
Proof. apply out_of_range_negb. Qed.

(** An out-of-range tick: nothing is ordered, the position is dropped and
    the instrument search runs until an instrument with an in-range LTP is
    found, whose LTP becomes the previous price. *)
Lemma step_out_of_range (s s' : Strategy) (L L' : Ledger) (ltp : Q)
    (gw : Gateway) (answers : list Attempt) (evs : list Event) :
  running s = true -> in_range ltp = false ->
  process_price_update live s L (Some ltp) gw answers = Ok (s', L', evs) ->
  L' = L /\ bought s' = false
  /\ entry s' = None /\ stop s' = None /\ peak s' = None
  /\ running s' = true /\ mode s' = mode s
  /\ evs <> [] /\ Forall (eq GetNewInstrument) evs
  /\ exists a q, In a answers /\ acceptable in_range a = true
       /\ instrument_key s' = new_key a
       /\ prev_price s' = Some q /\ in_range q = true.
Proof.
  intros Hrun Hout H. unfold process_price_update in H.
  rewrite range_check, Hout in H. simpl in H.
  destruct (ensure_instrument (reset_position s) answers) as [[s1 evs1]| |] eqn:E;
    simpl in H; try discriminate.
  inversion H; subst.
  destruct (ensure_instrument_ok (reset_position s) s' answers evs Hrun E)
    as (Hne & Hall & Hm & Hr & Hb & He & Hs & Hp & a & q & Hin & Hacc & Hk & _ & Hq & Hrg).
  simpl in *. repeat (split; [first [reflexivity|assumption]|]).
  exists a, q. repeat (split; [assumption|]). assumption.
Qed.

Lemma step_out_of_range_total (s : Strategy) (L : Ledger) (ltp : Q)
    (gw : Gateway) (answers : list Attempt) :
  in_range ltp = false ->
  existsb (acceptable in_range) answers = true ->
  exists s' evs,
    process_price_update live s L (Some ltp) gw answers = Ok (s', L, evs).
Proof.
  intros Hout Hex. unfold process_price_update.
  rewrite range_check, Hout. simpl.
  destruct (ensure_instrument_total (reset_position s) answers Hex)
    as (s' & evs & ->).
  simpl. eexists. eexists. reflexivity.
Qed.

(** An in-range tick on a well-formed position: the call returns, the
    previous price is the tick, the position stays well-formed, and the
    events keep the order of [well_ordered]. *)
Lemma step_in_range (s : Strategy) (L : Ledger) (ltp : Q) (gw : Gateway)
    (answers : list Attempt) :
  in_range ltp = true -> position_ok s ->
  exists s' L' evs,
    process_price_update live s L (Some ltp) gw answers = Ok (s', L', evs)
    /\ prev_price s' = Some ltp /\ position_ok s'
    /\ running s' = running s /\ mode s' = mode s
    /\ instrument_key s' = instrument_key s
    /\ (forall rest, well_ordered (bought s') rest = true ->
          well_ordered (bought s) (evs ++ rest) = true).
Proof.
  intros Hin Hpos. unfold process_price_update.
  rewrite range_check, Hin. simpl.
  unfold position_ok, holds_position in Hpos.
  destruct (bought s) eqn:Hb; simpl.
  - destruct Hpos as (e & st & pk & He & Hs & Hp).
    rewrite Hp. simpl.
    assert (Hclose : forall s1, bought s1 = true -> running s1 = running s ->
              mode s1 = mode s -> instrument_key s1 = instrument_key s ->
              exists s' L' evs,
                close_position live s1 L gw ltp = Ok (s', L', evs)
                /\ prev_price s' = Some ltp /\ position_ok s'
                /\ running s' = running s /\ mode s' = mode s
                /\ instrument_key s' = instrument_key s
                /\ (forall rest, well_ordered (bought s') rest = true ->
                      well_ordered true (evs ++ rest) = true)).
    { intros s1 Hb1 Hr1 Hm1 Hk1. unfold close_position.
      destruct (place_order live L gw (instrument_key s1) SELL (Some ltp) (mode s1))
        as [ok L1].
      eexists. eexists. eexists. split; [reflexivity|].
      simpl. split; [reflexivity|].
      split; [unfold position_ok, holds_position; simpl; repeat split|].
      repeat (split; [assumption|]).
      intros rest Hrest. exact Hrest. }
    destruct (Py.ltb pk ltp); simpl; rewrite ?He, ?Hp; simpl.
    + destruct (Py.leb ltp (ltp - trail_exit e ltp)).
      * apply Hclose; reflexivity || assumption.
      * rewrite Hs. simpl. destruct (Py.leb ltp st).
        -- apply Hclose; reflexivity || assumption.
        -- eexists. eexists. eexists. split; [reflexivity|].
           simpl. rewrite Hb. repeat (split; [reflexivity|]).
           split; [unfold position_ok, holds_position; simpl; rewrite Hb;
                   exists e, st, ltp; rewrite He, Hs; repeat split|].
           repeat (split; [reflexivity|]). intros rest Hrest. exact Hrest.
    + destruct (Py.leb ltp (pk - trail_exit e ltp)).
      * apply Hclose; reflexivity || assumption.
      * rewrite Hs. simpl. destruct (Py.leb ltp st).
        -- apply Hclose; reflexivity || assumption.
        -- eexists. eexists. eexists. split; [reflexivity|].
           simpl. rewrite Hb. repeat (split; [reflexivity|]).
           split; [unfold position_ok, holds_position; simpl; rewrite Hb;
                   exists e, st, pk; rewrite He, Hs, Hp; repeat split|].
           repeat (split; [reflexivity|]). intros rest Hrest. exact Hrest.
  - destruct Hpos as (He & Hs & Hp).
    assert (Hidle : exists s' L' evs,
              Ok (set_prev_price (Some ltp) s, L, @nil Event) = Ok (s', L', evs)
              /\ prev_price s' = Some ltp /\ position_ok s'
              /\ running s' = running s /\ mode s' = mode s
              /\ instrument_key s' = instrument_key s
              /\ (forall rest, well_ordered (bought s') rest = true ->
                    well_ordered false (evs ++ rest) = true)).
    { eexists. eexists. eexists. split; [reflexivity|].
      simpl. split; [reflexivity|].
      split; [unfold position_ok, holds_position; simpl; rewrite Hb;
              repeat split; assumption|].
      repeat (split; [reflexivity|]). rewrite Hb. intros rest Hrest. exact Hrest. }
    destruct (prev_price s) as [p|] eqn:Hprev; simpl; [|exact Hidle].
    destruct (Py.ltb p ltp); simpl; [|exact Hidle].
    destruct (place_order live L gw (instrument_key s) BUY (Some ltp) (mode s))
      as [ok L1].
    eexists. eexists. eexists. split; [reflexivity|].
    destruct ok; simpl.
    + split; [reflexivity|].
      split; [unfold position_ok, holds_position; simpl;
              eexists; eexists; eexists; repeat split|].
      repeat (split; [reflexivity|]). intros rest Hrest. exact Hrest.
    + split; [reflexivity|].
      split; [unfold position_ok, holds_position; simpl; rewrite Hb;
              repeat split; assumption|].
      repeat (split; [reflexivity|]). rewrite Hb. intros rest Hrest. exact Hrest.
Qed.

Lemma step_long (s : Strategy) (L : Ledger) (ltp e st pk : Q) (gw : Gateway)
    (answers : list Attempt) :
  in_range ltp = true -> bought s = true ->
  entry s = Some e -> stop s = Some st -> peak s = Some pk ->
  exists s' L',
    process_price_update live s L (Some ltp) gw answers
    = Ok (s', L',
          if exit_signal e st pk ltp
          then [PlaceOrder (instrument_key s) SELL ltp
                  (fst (place_order live L gw (instrument_key s) SELL
                          (Some ltp) (mode s)))]
          else [])
    /\ (exit_signal e st pk ltp = true -> bought s' = false)
    /\ (exit_signal e st pk ltp = false ->
          L' = L /\ bought s' = true /\ entry s' = Some e /\ stop s' = Some st
          /\ peak s' = Some (peak_after pk ltp)).
Proof.
  intros Hin Hb He Hs Hp. unfold process_price_update.
  rewrite range_check, Hin, Hb, Hp. simpl.
  unfold exit_signal, peak_after, close_position.
  destruct (Py.ltb pk ltp); simpl; rewrite ?He, ?Hs, ?Hp; simpl.
  - destruct (Py.leb ltp (ltp - trail_exit e ltp)); simpl.
    + destruct (place_order live L gw (instrument_key s) SELL (Some ltp) (mode s)).
      eexists. eexists. split; [reflexivity|].
      split; [reflexivity|discriminate].
    + destruct (Py.leb ltp st); simpl.
      * destruct (place_order live L gw (instrument_key s) SELL (Some ltp) (mode s)).
        eexists. eexists. split; [reflexivity|].
        split; [reflexivity|discriminate].
      * eexists. eexists. split; [reflexivity|].
        split; [discriminate|]. intros _. simpl. rewrite Hb, He, Hs.
        repeat split.
  - destruct (Py.leb ltp (pk - trail_exit e ltp)); simpl.
    + destruct (place_order live L gw (instrument_key s) SELL (Some ltp) (mode s)).
      eexists. eexists. split; [reflexivity|].
      split; [reflexivity|discriminate].
    + destruct (Py.leb ltp st); simpl.
      * destruct (place_order live L gw (instrument_key s) SELL (Some ltp) (mode s)).
        eexists. eexists. split; [reflexivity|].
        split; [reflexivity|discriminate].
      * eexists. eexists. split; [reflexivity|].
        split; [discriminate|]. intros _. simpl. rewrite Hb, He, Hs, Hp.
        repeat split.
Qed.

Lemma ensure_instrument_events (s s' : Strategy) (answers : list Attempt)
    (evs : list Event) :
  ensure_instrument s answers = Ok (s', evs) ->
  Forall (eq GetNewInstrument) evs.
Proof.
  destruct (running s) eqn:Hrun.
  - intros H. apply (ensure_instrument_ok s s' answers evs Hrun H).
  - destruct answers; simpl; rewrite Hrun; simpl; intros H; inversion H;
      constructor.
Qed.

(** No BUY is placed from a state that holds a position. *)
Lemma no_buy_while_long (s s' : Strategy) (L L' : Ledger) (ltp : option Q)
    (gw : Gateway) (answers : list Attempt) (evs : list Event) :
  bought s = true ->
  process_price_update live s L ltp gw answers = Ok (s', L', evs) ->
  forallb (fun ev => negb (is_order BUY ev)) evs = true.
Proof.
  intros Hb H. unfold process_price_update in H.
  destruct ltp as [ltp|]; [|inversion H; reflexivity].
  destruct (Py.ltb ltp LTP_LOWER_BOUND || Py.ltb LTP_UPPER_BOUND ltp).
  - destruct (ensure_instrument (reset_position s) answers) as [[s1 evs1]| |] eqn:E;
      simpl in H; try discriminate.
    inversion H; subst. apply ensure_instrument_events in E. clear H.
    induction E as [|ev l Hev E IH]; [reflexivity|].
    subst ev. simpl. exact IH.
  - rewrite Hb in H. simpl in H. unfold close_position in H.
    destruct (peak s) as [pk|]; simpl in H; [|discriminate].
    destruct (place_order live L gw
                (instrument_key (if Py.ltb pk ltp then set_peak (Some ltp) s else s))
                SELL (Some ltp)
                (mode (if Py.ltb pk ltp then set_peak (Some ltp) s else s)))
      as [ok L1].
    destruct (peak (if Py.ltb pk ltp then set_peak (Some ltp) s else s));
      simpl in H; [|discriminate].
    destruct (entry (if Py.ltb pk ltp then set_peak (Some ltp) s else s));
      simpl in H; [|discriminate].
    match type of H with
    | (if ?c then _ else _) = _ => destruct c
    end; [inversion H; reflexivity|].
    destruct (stop (if Py.ltb pk ltp then set_peak (Some ltp) s else s));
      simpl in H; [|discriminate].
    match type of H with
    | (if ?c then _ else _) = _ => destruct c
    end; inversion H; reflexivity.
Qed.

Lemma step_none (s : Strategy) (L : Ledger) (gw : Gateway)
    (answers : list Attempt) :
  process_price_update live s L None gw answers = Ok (s, L, []).
Proof. reflexivity. Qed.

Lemma step_total (s : Strategy) (L : Ledger) (t : Tick) :
  running s = true -> position_ok s -> answerable t = true ->
  exists s' L' evs,
    process_price_update live s L (ltp t) (gateway t) (answers t)
    = Ok (s', L', evs)
    /\ running s' = true /\ position_ok s'
    /\ (forall rest, well_ordered (bought s') rest = true ->
          well_ordered (bought s) (evs ++ rest) = true).
Proof.
  intros Hrun Hpos Hans. unfold answerable in Hans.
  destruct (ltp t) as [q|] eqn:Hq.
  - destruct (in_range q) eqn:Hin.
    + destruct (step_in_range s L q (gateway t) (answers t) Hin Hpos)
        as (s' & L' & evs & H & _ & Hpos' & Hrun' & _ & _ & Hord).
      exists s', L', evs. rewrite Hrun' . repeat (split; [assumption|]).
      exact Hord.
    + simpl in Hans.
      destruct (step_out_of_range_total s L q (gateway t) (answers t) Hin Hans)
        as (s' & evs & H).
      destruct (step_out_of_range s s' L L q (gateway t) (answers t) evs Hrun Hin H)
        as (_ & Hb & He & Hs & Hp & Hrun' & _ & Hne & Hall & _).
      exists s', L, evs. split; [exact H|]. split; [exact Hrun'|].
      split; [unfold position_ok, holds_position; rewrite Hb; repeat split;
              assumption|].
      intros rest Hrest. rewrite (well_ordered_searches _ evs rest Hne Hall).
      rewrite Hb in Hrest. exact Hrest.
  - exists s, L, []. rewrite step_none. repeat (split; [first [reflexivity|assumption]|]).
    intros rest Hrest. exact Hrest.
Qed.

Lemma step_ordered (s s' : Strategy) (L L' : Ledger) (t : Tick)
    (evs : list Event) :
  running s = true ->
  process_price_update live s L (ltp t) (gateway t) (answers t)
  = Ok (s', L', evs) ->
  running s' = true
  /\ (forall rest, well_ordered (bought s') rest = true ->
        well_ordered (bought s) (evs ++ rest) = true).
Proof.
  intros Hrun H. destruct (ltp t) as [q|] eqn:Hq.
  - destruct (in_range q) eqn:Hin.
    + unfold process_price_update in H. rewrite range_check, Hin in H.
      simpl in H. unfold close_position in H.
      destruct (bought s) eqn:Hb; simpl in H.
      * destruct (peak s) as [pk|]; simpl in H; [|discriminate].
        destruct (place_order live L (gateway t)
                    (instrument_key (if Py.ltb pk q then set_peak (Some q) s else s))
                    SELL (Some q)
                    (mode (if Py.ltb pk q then set_peak (Some q) s else s)))
          as [ok L1].
        assert (Hs1 : bought (if Py.ltb pk q then set_peak (Some q) s else s) = true
                      /\ running (if Py.ltb pk q then set_peak (Some q) s else s) = true)
          by (destruct (Py.ltb pk q); simpl; split; assumption).
        destruct Hs1 as [Hb1 Hr1].
        destruct (peak (if Py.ltb pk q then set_peak (Some q) s else s));
          simpl in H; [|discriminate].
        destruct (entry (if Py.ltb pk q then set_peak (Some q) s else s));
          simpl in H; [|discriminate].
        match type of H with
        | (if ?c then _ else _) = _ => destruct c
        end; [inversion H; subst; simpl; split; [assumption|];
              intros rest Hrest; exact Hrest|].
        destruct (stop (if Py.ltb pk q then set_peak (Some q) s else s));
          simpl in H; [|discriminate].
        match type of H with
        | (if ?c then _ else _) = _ => destruct c
        end; inversion H; subst; simpl; (split; [assumption|]);
          intros rest Hrest; [exact Hrest|].
        rewrite Hb1 in Hrest. exact Hrest.
      * destruct (prev_price s) as [p|]; simpl in H.
        -- destruct (Py.ltb p q); simpl in H.
           ++ destruct (place_order live L (gateway t) (instrument_key s) BUY
                          (Some q) (mode s)) as [ok L1].
              inversion H; subst. destruct ok; simpl; (split; [assumption|]);
                intros rest Hrest; [exact Hrest|].
              rewrite Hb in Hrest. exact Hrest.
           ++ inversion H; subst; simpl. split; [assumption|].
              intros rest Hrest. rewrite Hb in Hrest. exact Hrest.
        -- inversion H; subst; simpl. split; [assumption|].
           intros rest Hrest. rewrite Hb in Hrest. exact Hrest.
    + destruct (step_out_of_range s s' L L' q (gateway t) (answers t) evs Hrun Hin H)
        as (_ & Hb & _ & _ & _ & Hrun' & _ & Hne & Hall & _).
      split; [exact Hrun'|]. intros rest Hrest.
      rewrite (well_ordered_searches _ evs rest Hne Hall).
      rewrite Hb in Hrest. exact Hrest.
  - simpl in H. inversion H; subst. split; [assumption|].
    intros rest Hrest. exact Hrest.
Qed.

(** In every run the orders alternate. *)
Lemma feed_ordered (ticks : list Tick) :
  forall (s s' : Strategy) (L L' : Ledger) (evs : list Event),
    running s = true ->
    feed live ticks s L = Ok (s', L', evs) ->
    well_ordered (bought s) evs = true.
Proof.
  induction ticks as [|t rest IH]; intros s s' L L' evs Hrun H; simpl in H.
  - inversion H. reflexivity.
  - destruct (process_price_update live s L (ltp t) (gateway t) (answers t))
      as [[[s1 L1] evs1]| |] eqn:E; simpl in H; try discriminate.
    destruct (feed live rest s1 L1) as [[[s2 L2] evs2]| |] eqn:E2;
      simpl in H; try discriminate.
    inversion H; subst.
    destruct (step_ordered s s1 L L1 t evs1 Hrun E) as [Hrun1 Hord].
    apply Hord. apply (IH s1 s' L1 L' evs2 Hrun1 E2).
Qed.

(** A run over answerable ticks from a well-formed state returns. *)
Lemma feed_total (ticks : list Tick) :
  forall (s : Strategy) (L : Ledger),
    running s = true -> position_ok s ->
    forallb answerable ticks = true ->
    exists s' L' evs, feed live ticks s L = Ok (s', L', evs).
Proof.
  induction ticks as [|t rest IH]; intros s L Hrun Hpos Hall; simpl.
  - eexists. eexists. eexists. reflexivity.
  - simpl in Hall. apply andb_true_iff in Hall. destruct Hall as [Ht Hrest].
    destruct (step_total s L t Hrun Hpos Ht)
      as (s1 & L1 & evs1 & -> & Hrun1 & Hpos1 & _).
    simpl. destruct (IH s1 L1 Hrun1 Hpos1 Hrest) as (s2 & L2 & evs2 & ->).
    simpl. eexists. eexists. eexists. reflexivity.
Qed.

End Step.

End PECE1Facts.

Module CE4Facts.
Import CE4 CE4Inv.

Lemma find_new_instrument_ok (s s' : Strategy) (answers : list Attempt)
    (evs : list Event) :
  find_new_instrument s answers = Ok (s', evs) ->
  evs <> [] /\ Forall (eq GetNewInstrument) evs
  /\ running s' = running s
  /\ bought s' = bought s /\ entry s' = entry s
  /\ stop s' = stop s /\ peak s' = peak s
  /\ exists a q, In a answers /\ acceptable in_range a = true
       /\ instrument_key s' = new_key a
       /\ new_ltp a = Some q /\ prev_price s' = Some q /\ in_range q = true.
Proof.
  revert s' evs.
  induction answers as [|a rest IH]; intros s' evs H; simpl in H;
    [discriminate|].
  assert (Hrec : forall r : Outcome (Strategy * list Event),
             (x <- r ;; Ok (fst x, GetNewInstrument :: snd x)) = Ok (s', evs) ->
             exists evs0, r = Ok (s', evs0) /\ evs = GetNewInstrument :: evs0).
  { intros [[s0 evs0]| |] Hr; simpl in Hr; try discriminate.
    inversion Hr; subst. exists evs0. split; reflexivity. }
  assert (Hstep : forall evs0, find_new_instrument s rest = Ok (s', evs0) ->
             evs = GetNewInstrument :: evs0 ->
             evs <> [] /\ Forall (eq GetNewInstrument) evs
             /\ running s' = running s
             /\ bought s' = bought s /\ entry s' = entry s
             /\ stop s' = stop s /\ peak s' = peak s
             /\ exists a0 q, In a0 (a :: rest) /\ acceptable in_range a0 = true
                  /\ instrument_key s' = new_key a0
                  /\ new_ltp a0 = Some q /\ prev_price s' = Some q
                  /\ in_range q = true).
  { intros evs0 H0 ->. destruct (IH _ _ H0)
      as (_ & Hall & Hr & Hb & He & Hs & Hp & a0 & q & Hin & Hrest).
    split; [discriminate|]. split; [constructor; [reflexivity|exact Hall]|].
    repeat (split; [assumption|]).
    exists a0, q. split; [right; exact Hin|exact Hrest]. }
  destruct (key_truthy (new_key a)) eqn:Hk; simpl in H.
  - destruct (Py.truthy (new_ltp a)) eqn:Ht; simpl in H.
    + destruct (new_ltp a) as [q|] eqn:Hq; [|discriminate Ht].
      destruct (in_range q) eqn:Hin.
      * inversion H; subst. simpl.
        split; [discriminate|]. split; [repeat constructor|].
        repeat (split; [reflexivity|]).
        exists a, q. split; [left; reflexivity|].
        unfold acceptable. rewrite Hk, Hq, Ht, Hin.
        repeat split; reflexivity.
      * destruct (Hrec _ H) as (evs0 & H0 & Hevs). exact (Hstep evs0 H0 Hevs).
    + destruct (Hrec _ H) as (evs0 & H0 & Hevs). exact (Hstep evs0 H0 Hevs).
  - destruct (Hrec _ H) as (evs0 & H0 & Hevs). exact (Hstep evs0 H0 Hevs).
Qed.

Lemma find_new_instrument_total (s : Strategy) (answers : list Attempt) :
  existsb (acceptable in_range) answers = true ->
  exists s' evs, find_new_instrument s answers = Ok (s', evs).
Proof.
  intros Hex. induction answers as [|a rest IH]; [discriminate|].
  simpl. simpl in Hex. unfold acceptable at 1 in Hex.
  destruct (key_truthy (new_key a)); simpl in *.
  - destruct (Py.truthy (new_ltp a)); simpl in *.
    + destruct (new_ltp a) as [q|]; simpl in *.
      * destruct (in_range q); simpl in *.
        -- eexists. eexists. reflexivity.
        -- destruct (IH Hex) as (s' & evs & ->). simpl.
           eexists. eexists. reflexivity.
      * destruct (IH Hex) as (s' & evs & ->). simpl.
        eexists. eexists. reflexivity.
    + destruct (IH Hex) as (s' & evs & ->). simpl.
      eexists. eexists. reflexivity.
  - destruct (IH Hex) as (s' & evs & ->). simpl.
    eexists. eexists. reflexivity.
Qed.

Section Step.

Variable live : bool.

Lemma ce4_range_check (ltp : Q) :
  Py.ltb ltp LTP_LOWER_BOUND || Py.ltb LTP_UPPER_BOUND ltp = negb (in_range ltp).
Proof. apply out_of_range_negb. Qed.

Lemma ce4_step_out_of_range (s s' : Strategy) (L L' : Ledger) (ltp : Q)
    (gw : Gateway) (answers : list Attempt) (evs : list Event) :
  in_range ltp = false ->
  process_price_update live s L (Some ltp) gw answers = Ok (s', L', evs) ->
  L' = L /\ bought s' = false
  /\ entry s' = None /\ stop s' = None /\ peak s' = None
  /\ evs <> [] /\ Forall (eq GetNewInstrument) evs
  /\ exists a q, In a answers /\ acceptable in_range a = true
       /\ instrument_key s' = new_key a
       /\ prev_price s' = Some q /\ in_range q = true.
Proof.
  intros Hout H. unfold process_price_update in H. simpl in H.
  rewrite ce4_range_check, Hout in H. simpl in H.
  destruct (find_new_instrument (reset_position s) answers) as [[s1 evs1]| |] eqn:E;
    simpl in H; try discriminate.
  inversion H; subst.
  destruct (find_new_instrument_ok (reset_position s) s' answers evs E)
    as (Hne & Hall & Hr & Hb & He & Hs & Hp & a & q & Hin & Hacc & Hk & _ & Hq & Hrg).
  simpl in *. repeat (split; [first [reflexivity|assumption]|]).
  exists a, q. repeat (split; [assumption|]). assumption.
Qed.

Lemma ce4_step_out_of_range_total (s : Strategy) (L : Ledger) (ltp : Q)
    (gw : Gateway) (answers : list Attempt) :
  in_range ltp = false ->
  existsb (acceptable in_range) answers = true ->
  exists s' evs,
    process_price_update live s L (Some ltp) gw answers = Ok (s', L, evs).
Proof.
  intros Hout Hex. unfold process_price_update. simpl.
  rewrite ce4_range_check, Hout. simpl.
  destruct (find_new_instrument_total (reset_position s) answers Hex)
    as (s' & evs & ->).
  simpl. eexists. eexists. reflexivity.
Qed.

Lemma ce4_step_in_range (s : Strategy) (L : Ledger) (ltp : Q) (gw : Gateway)
    (answers : list Attempt) :
  in_range ltp = true -> position_ok s ->
  exists s' L' evs,
    process_price_update live s L (Some ltp) gw answers = Ok (s', L', evs)
    /\ prev_price s' = Some ltp /\ position_ok s'
    /\ instrument_key s' = instrument_key s
    /\ (forall rest, well_ordered (bought s') rest = true ->
          well_ordered (bought s) (evs ++ rest) = true).
Proof.
  intros Hin Hpos. unfold process_price_update. simpl.
  rewrite ce4_range_check, Hin. simpl.
  unfold position_ok, holds_position in Hpos.
  destruct (bought s) eqn:Hb; simpl.
  - destruct Hpos as (e & st & pk & He & Hs & Hp).
    rewrite Hp. simpl.
    assert (Hclose : forall s1, bought s1 = true ->
              instrument_key s1 = instrument_key s ->
              exists s' L' evs,
                close_position live s1 L gw ltp = Ok (s', L', evs)
                /\ prev_price s' = Some ltp /\ position_ok s'
                /\ instrument_key s' = instrument_key s
                /\ (forall rest, well_ordered (bought s') rest = true ->
                      well_ordered true (evs ++ rest) = true)).
    { intros s1 Hb1 Hk1. unfold close_position.
      destruct (place_order live L gw (instrument_key s1) SELL (Some ltp))
        as [ok L1].
      eexists. eexists. eexists. split; [reflexivity|].
      simpl. split; [reflexivity|].
      split; [unfold position_ok, holds_position; simpl; repeat split|].
      repeat (split; [assumption|]).
      intros rest Hrest. exact Hrest. }
    destruct (Py.ltb pk ltp); simpl; rewrite ?He, ?Hp; simpl.
    + destruct (Py.leb ltp (ltp - trail_exit e ltp)).
      * apply Hclose; reflexivity || assumption.
      * rewrite Hs. simpl. destruct (Py.leb ltp st).
        -- apply Hclose; reflexivity || assumption.
        -- eexists. eexists. eexists. split; [reflexivity|].
           simpl. rewrite Hb. repeat (split; [reflexivity|]).
           split; [unfold position_ok, holds_position; simpl; rewrite Hb;
                   exists e, st, ltp; rewrite He, Hs; repeat split|].
           repeat (split; [reflexivity|]). intros rest Hrest. exact Hrest.
    + destruct (Py.leb ltp (pk - trail_exit e ltp)).
      * apply Hclose; reflexivity || assumption.
      * rewrite Hs. simpl. destruct (Py.leb ltp st).
        -- apply Hclose; reflexivity || assumption.
        -- eexists. eexists. eexists. split; [reflexivity|].
           simpl. rewrite Hb. repeat (split; [reflexivity|]).
           split; [unfold position_ok, holds_position; simpl; rewrite Hb;
                   exists e, st, pk; rewrite He, Hs, Hp; repeat split|].
           repeat (split; [reflexivity|]). intros rest Hrest. exact Hrest.
  - destruct Hpos as (He & Hs & Hp).
    assert (Hidle : exists s' L' evs,
              Ok (set_prev_price (Some ltp) s, L, @nil Event) = Ok (s', L', evs)
              /\ prev_price s' = Some ltp /\ position_ok s'
              /\ instrument_key s' = instrument_key s
              /\ (forall rest, well_ordered (bought s') rest = true ->
                    well_ordered false (evs ++ rest) = true)).
    { eexists. eexists. eexists. split; [reflexivity|].
      simpl. split; [reflexivity|].
      split; [unfold position_ok, holds_position; simpl; rewrite Hb;
              repeat split; assumption|].
      repeat (split; [reflexivity|]). rewrite Hb. intros rest Hrest. exact Hrest. }
    destruct (Py.truthy (prev_price s)); simpl; [|exact Hidle].
    destruct (prev_price s) as [p|] eqn:Hprev; simpl; [|exact Hidle].
    destruct (Py.ltb p ltp); simpl; [|exact Hidle].
    destruct (place_order live L gw (instrument_key s) BUY (Some ltp))
      as [ok L1].
    eexists. eexists. eexists. split; [reflexivity|].
    destruct ok; simpl.
    + split; [reflexivity|].
      split; [unfold position_ok, holds_position; simpl;
              eexists; eexists; eexists; repeat split|].
      repeat (split; [reflexivity|]). intros rest Hrest. exact Hrest.
    + split; [reflexivity|].
      split; [unfold position_ok, holds_position; simpl; rewrite Hb;
              repeat split; assumption|].
      repeat (split; [reflexivity|]). rewrite Hb. intros rest Hrest. exact Hrest.
Qed.

Lemma ce4_step_long (s : Strategy) (L : Ledger) (ltp e st pk : Q) (gw : Gateway)
    (answers : list Attempt) :
  in_range ltp = true -> bought s = true ->
  entry s = Some e -> stop s = Some st -> peak s = Some pk ->
  exists s' L',
    process_price_update live s L (Some ltp) gw answers
    = Ok (s', L',
          if exit_signal e st pk ltp
          then [PlaceOrder (instrument_key s) SELL ltp
                  (fst (place_order live L gw (instrument_key s) SELL
                          (Some ltp)))]
          else [])
    /\ (exit_signal e st pk ltp = true -> bought s' = false)
    /\ (exit_signal e st pk ltp = false ->
          L' = L /\ bought s' = true /\ entry s' = Some e /\ stop s' = Some st
          /\ peak s' = Some (peak_after pk ltp)).
Proof.
  intros Hin Hb He Hs Hp. unfold process_price_update. simpl.
  rewrite ce4_range_check, Hin, Hb, Hp. simpl.
  unfold exit_signal, peak_after, close_position.
  destruct (Py.ltb pk ltp); simpl; rewrite ?He, ?Hs, ?Hp; simpl.
  - destruct (Py.leb ltp (ltp - trail_exit e ltp)); simpl.
    + destruct (place_order live L gw (instrument_key s) SELL (Some ltp)).
      eexists. eexists. split; [reflexivity|].
      split; [reflexivity|discriminate].
    + destruct (Py.leb ltp st); simpl.
      * destruct (place_order live L gw (instrument_key s) SELL (Some ltp)).
        eexists. eexists. split; [reflexivity|].
        split; [reflexivity|discriminate].
      * eexists. eexists. split; [reflexivity|].
        split; [discriminate|]. intros _. simpl. rewrite Hb, He, Hs.
        repeat split.
  - destruct (Py.leb ltp (pk - trail_exit e ltp)); simpl.
    + destruct (place_order live L gw (instrument_key s) SELL (Some ltp)).
      eexists. eexists. split; [reflexivity|].
      split; [reflexivity|discriminate].
    + destruct (Py.leb ltp st); simpl.
      * destruct (place_order live L gw (instrument_key s) SELL (Some ltp)).
        eexists. eexists. split; [reflexivity|].
        split; [reflexivity|discriminate].
      * eexists. eexists. split; [reflexivity|].
        split; [discriminate|]. intros _. simpl. rewrite Hb, He, Hs, Hp.
        repeat split.
Qed.

Lemma ce4_no_buy_while_long (s s' : Strategy) (L L' : Ledger) (ltp : option Q)
    (gw : Gateway) (answers : list Attempt) (evs : list Event) :
  bought s = true ->
  process_price_update live s L ltp gw answers = Ok (s', L', evs) ->
  forallb (fun ev => negb (is_order BUY ev)) evs = true.
Proof.
  intros Hb H. unfold process_price_update in H.
  destruct ltp as [ltp|]; simpl in H; [|discriminate].
  destruct (Py.ltb ltp LTP_LOWER_BOUND || Py.ltb LTP_UPPER_BOUND ltp).
  - destruct (find_new_instrument (reset_position s) answers) as [[s1 evs1]| |] eqn:E;
      simpl in H; try discriminate.
    inversion H; subst. apply find_new_instrument_ok in E.
    destruct E as (_ & E & _). clear H.
    induction E as [|ev l Hev E IH]; [reflexivity|].
    subst ev. simpl. exact IH.
  - rewrite Hb in H. simpl in H. unfold close_position in H.
    destruct (peak s) as [pk|]; simpl in H; [|discriminate].
    destruct (place_order live L gw
                (instrument_key (if Py.ltb pk ltp then set_peak (Some ltp) s else s))
                SELL (Some ltp))
      as [ok L1].
    destruct (peak (if Py.ltb pk ltp then set_peak (Some ltp) s else s));
      simpl in H; [|discriminate].
    destruct (entry (if Py.ltb pk ltp then set_peak (Some ltp) s else s));
      simpl in H; [|discriminate].
    match type of H with
    | (if ?c then _ else _) = _ => destruct c
    end; [inversion H; reflexivity|].
    destruct (stop (if Py.ltb pk ltp then set_peak (Some ltp) s else s));
      simpl in H; [|discriminate].
    match type of H with
    | (if ?c then _ else _) = _ => destruct c
    end; inversion H; reflexivity.
Qed.

Lemma ce4_step_total (s : Strategy) (L : Ledger) (t : Tick) :
  position_ok s -> answerable t = true ->
  exists s' L' evs,
    process_price_update live s L (ltp t) (gateway t) (answers t)
    = Ok (s', L', evs)
    /\ position_ok s'
    /\ (forall rest, well_ordered (bought s') rest = true ->
          well_ordered (bought s) (evs ++ rest) = true).
Proof.
  intros Hpos Hans. unfold answerable in Hans.
  destruct (ltp t) as [q|] eqn:Hq; [|discriminate].
  destruct (in_range q) eqn:Hin.
  - destruct (ce4_step_in_range s L q (gateway t) (answers t) Hin Hpos)
      as (s' & L' & evs & H & _ & Hpos' & _ & Hord).
    exists s', L', evs. repeat (split; [assumption|]).
    exact Hord.
  - simpl in Hans.
    destruct (ce4_step_out_of_range_total s L q (gateway t) (answers t) Hin Hans)
      as (s' & evs & H).
    destruct (ce4_step_out_of_range s s' L L q (gateway t) (answers t) evs Hin H)
      as (_ & Hb & He & Hs & Hp & Hne & Hall & _).
    exists s', L, evs. split; [exact H|].
    split; [unfold position_ok, holds_position; rewrite Hb; repeat split;
            assumption|].
    intros rest Hrest. rewrite (well_ordered_searches _ evs rest Hne Hall).
    rewrite Hb in Hrest. exact Hrest.
Qed.

Lemma ce4_step_ordered (s s' : Strategy) (L L' : Ledger) (t : Tick)
    (evs : list Event) :
  process_price_update live s L (ltp t) (gateway t) (answers t)
  = Ok (s', L', evs) ->
  forall rest, well_ordered (bought s') rest = true ->
    well_ordered (bought s) (evs ++ rest) = true.
Proof.
  intros H. destruct (ltp t) as [q|] eqn:Hq; [|discriminate H].
  destruct (in_range q) eqn:Hin.
  - unfold process_price_update in H. simpl in H.
    rewrite ce4_range_check, Hin in H.
    simpl in H. unfold close_position in H.
    destruct (bought s) eqn:Hb; simpl in H.
    + destruct (peak s) as [pk|]; simpl in H; [|discriminate].
      destruct (place_order live L (gateway t)
                  (instrument_key (if Py.ltb pk q then set_peak (Some q) s else s))
                  SELL (Some q))
        as [ok L1].
      assert (Hb1 : bought (if Py.ltb pk q then set_peak (Some q) s else s) = true)
        by (destruct (Py.ltb pk q); simpl; assumption).
      destruct (peak (if Py.ltb pk q then set_peak (Some q) s else s));
        simpl in H; [|discriminate].
      destruct (entry (if Py.ltb pk q then set_peak (Some q) s else s));
        simpl in H; [|discriminate].
      match type of H with
      | (if ?c then _ else _) = _ => destruct c
      end; [inversion H; subst; simpl; intros rest Hrest; exact Hrest|].
      destruct (stop (if Py.ltb pk q then set_peak (Some q) s else s));
        simpl in H; [|discriminate].
      match type of H with
      | (if ?c then _ else _) = _ => destruct c
      end; inversion H; subst; simpl; intros rest Hrest; [exact Hrest|].
      rewrite Hb1 in Hrest. exact Hrest.
    + destruct (Py.truthy (prev_price s)); simpl in H.
      * destruct (prev_price s) as [p|]; simpl in H.
        -- destruct (Py.ltb p q); simpl in H.
           ++ destruct (place_order live L (gateway t) (instrument_key s) BUY
                          (Some q)) as [ok L1].
              inversion H; subst. destruct ok; simpl;
                intros rest Hrest; [exact Hrest|].
              rewrite Hb in Hrest. exact Hrest.
           ++ inversion H; subst; simpl.
              intros rest Hrest. rewrite Hb in Hrest. exact Hrest.
        -- inversion H; subst; simpl.
           intros rest Hrest. rewrite Hb in Hrest. exact Hrest.
      * inversion H; subst; simpl.
        intros rest Hrest. rewrite Hb in Hrest. exact Hrest.
  - destruct (ce4_step_out_of_range s s' L L' q (gateway t) (answers t) evs Hin H)
      as (_ & Hb & _ & _ & _ & Hne & Hall & _).
    intros rest Hrest.
    rewrite (well_ordered_searches _ evs rest Hne Hall).
    rewrite Hb in Hrest. exact Hrest.
Qed.

Lemma ce4_feed_ordered (ticks : list Tick) :
  forall (s s' : Strategy) (L L' : Ledger) (evs : list Event),
    feed live ticks s L = Ok (s', L', evs) ->
    well_ordered (bought s) evs = true.
Proof.
  induction ticks as [|t rest IH]; intros s s' L L' evs H; simpl in H.
  - inversion H. reflexivity.
  - destruct (process_price_update live s L (ltp t) (gateway t) (answers t))
      as [[[s1 L1] evs1]| |] eqn:E; simpl in H; try discriminate.
    destruct (feed live rest s1 L1) as [[[s2 L2] evs2]| |] eqn:E2;
      simpl in H; try discriminate.
    inversion H; subst.
    apply (ce4_step_ordered s s1 L L1 t evs1 E).
    apply (IH s1 s' L1 L' evs2 E2).
Qed.

Lemma ce4_feed_total (ticks : list Tick) :
  forall (s : Strategy) (L : Ledger),
    position_ok s ->
    forallb answerable ticks = true ->
    exists s' L' evs, feed live ticks s L = Ok (s', L', evs).
Proof.
  induction ticks as [|t rest IH]; intros s L Hpos Hall; simpl.
  - eexists. eexists. eexists. reflexivity.
  - simpl in Hall. apply andb_true_iff in Hall. destruct Hall as [Ht Hrest].
    destruct (ce4_step_total s L t Hpos Ht)
      as (s1 & L1 & evs1 & -> & Hpos1 & _).
    simpl. destruct (IH s1 L1 Hpos1 Hrest) as (s2 & L2 & evs2 & ->).
    simpl. eexists. eexists. eexists. reflexivity.
Qed.

End Step.

End CE4Facts.

(** ** The instrument that the search installs *)

Module SearchFacts.

(** The search of trade_PE_CE1.py ends with the first answer that has a
    key and an LTP inside the range; that key and that LTP are installed. *)
Lemma ensure_instrument_first (s s' : PECE1.Strategy)
    (answers : list Attempt) (evs : list Event) :
  PECE1.running s = true ->
  PECE1.ensure_instrument s answers = Ok (s', evs) ->
  exists a q,
    find (acceptable PECE1.in_range) answers = Some a
    /\ PECE1.instrument_key s' = new_key a
    /\ new_ltp a = Some q
    /\ PECE1.prev_price s' = Some q
    /\ PECE1.in_range q = true.
Proof.
  intros Hrun. revert s' evs.
  induction answers as [|a rest IH]; intros s' evs H; simpl in H;
    rewrite Hrun in H; simpl in H; [discriminate|].
  assert (Hrec : forall r : Outcome (PECE1.Strategy * list Event),
             (x <- r ;; Ok (fst x, GetNewInstrument :: snd x)) = Ok (s', evs) ->
             exists evs0, r = Ok (s', evs0)).
  { intros [[s0 evs0]| |] Hr; simpl in Hr; try discriminate.
    inversion Hr; subst. exists evs0. reflexivity. }
  cbn [find]. unfold acceptable at 1.
  destruct (key_truthy (new_key a)) eqn:Hk; simpl in H; cbn [andb].
  - destruct (Py.truthy (new_ltp a)) eqn:Ht; simpl in H; cbn [andb].
    + destruct (new_ltp a) as [q|] eqn:Hq; [|discriminate Ht].
      destruct (PECE1.in_range q) eqn:Hin.
      * inversion H; subst. exists a, q. cbn. rewrite Hq.
        repeat split; [exact Hin].
      * destruct (Hrec _ H) as (evs0 & H0). exact (IH _ _ H0).
    + destruct (Hrec _ H) as (evs0 & H0). exact (IH _ _ H0).
  - destruct (Hrec _ H) as (evs0 & H0). exact (IH _ _ H0).
Qed.

(** The same for the search of trade_CE4.py. *)
Lemma find_new_instrument_first (s s' : CE4.Strategy)
    (answers : list Attempt) (evs : list Event) :
  CE4.find_new_instrument s answers = Ok (s', evs) ->
  exists a q,
    find (acceptable CE4.in_range) answers = Some a
    /\ CE4.instrument_key s' = new_key a
    /\ new_ltp a = Some q
    /\ CE4.prev_price s' = Some q
    /\ CE4.in_range q = true.
Proof.
  revert s' evs.
  induction answers as [|a rest IH]; intros s' evs H; simpl in H;
    [discriminate|].
  assert (Hrec : forall r : Outcome (CE4.Strategy * list Event),
             (x <- r ;; Ok (fst x, GetNewInstrument :: snd x)) = Ok (s', evs) ->
             exists evs0, r = Ok (s', evs0)).
  { intros [[s0 evs0]| |] Hr; simpl in Hr; try discriminate.
    inversion Hr; subst. exists evs0. reflexivity. }
  cbn [find]. unfold acceptable at 1.
  destruct (key_truthy (new_key a)) eqn:Hk; simpl in H; cbn [andb].
  - destruct (Py.truthy (new_ltp a)) eqn:Ht; simpl in H; cbn [andb].
    + destruct (new_ltp a) as [q|] eqn:Hq; [|discriminate Ht].
      destruct (CE4.in_range q) eqn:Hin.
      * inversion H; subst. exists a, q. cbn. rewrite Hq.
        repeat split; [exact Hin].
      * destruct (Hrec _ H) as (evs0 & H0). exact (IH _ _ H0).
    + destruct (Hrec _ H) as (evs0 & H0). exact (IH _ _ H0).
  - destruct (Hrec _ H) as (evs0 & H0). exact (IH _ _ H0).
Qed.

(** An out-of-range tick installs the instrument of the first acceptable
    answer and stores its LTP as the previous price. *)
Lemma step_selects (live : bool) (s s' : PECE1.Strategy)
    (L L' : PECE1.Ledger) (ltp : Q) (gw : Gateway) (answers : list Attempt)
    (evs : list Event) :
  PECE1.running s = true -> PECE1.in_range ltp = false ->
  PECE1.process_price_update live s L (Some ltp) gw answers
  = Ok (s', L', evs) ->
  exists a q,
    find (acceptable PECE1.in_range) answers = Some a
    /\ PECE1.instrument_key s' = new_key a
    /\ new_ltp a = Some q
    /\ PECE1.prev_price s' = Some q
    /\ PECE1.in_range q = true.
Proof.
  intros Hrun Hout H. unfold PECE1.process_price_update in H.
  rewrite PECE1Facts.range_check, Hout in H. simpl in H.
  destruct (PECE1.ensure_instrument (PECE1.reset_position s) answers)
    as [[s1 evs1]| |] eqn:E; simpl in H; try discriminate.
  inversion H; subst.
  exact (ensure_instrument_first (PECE1.reset_position s) s' answers evs Hrun E).
Qed.

Lemma ce4_step_selects (live : bool) (s s' : CE4.Strategy)
    (L L' : CE4.Ledger) (ltp : Q) (gw : Gateway) (answers : list Attempt)
    (evs : list Event) :
  CE4.in_range ltp = false ->
  CE4.process_price_update live s L (Some ltp) gw answers
  = Ok (s', L', evs) ->
  exists a q,
    find (acceptable CE4.in_range) answers = Some a
    /\ CE4.instrument_key s' = new_key a
    /\ new_ltp a = Some q
    /\ CE4.prev_price s' = Some q
    /\ CE4.in_range q = true.
Proof.
  intros Hout H. unfold CE4.process_price_update in H. simpl in H.
  rewrite CE4Facts.ce4_range_check, Hout in H. simpl in H.
  destruct (CE4.find_new_instrument (CE4.reset_position s) answers)
    as [[s1 evs1]| |] eqn:E; simpl in H; try discriminate.
  inversion H; subst.
  exact (find_new_instrument_first (CE4.reset_position s) s' answers evs E).
Qed.

End SearchFacts.

(** *** C2: the trailing distance *)

(** C2 (amended): on every in-range tick in the LONG state the exit test is
    [ltp <= peak - trail_exit] or [ltp <= stop], with the peak already raised
    to the tick; the trailing distance is TRAIL_INITIAL = 1 while
    [ltp <= entry + TRAIL_THRESHOLD] and TRAIL_OFFSET = 3 once
    [ltp > entry + TRAIL_THRESHOLD], so the distance applied near the entry
    is strictly smaller (tighter) than the one applied beyond the threshold.
    Same in trade_PE_CE1.py and trade_CE4.py. *)
Theorem trailing_distance_by_threshold :
  (forall (live : bool) (s : PECE1.Strategy) (L : PECE1.Ledger) (gw : Gateway)
          (answers : list Attempt) (e st pk ltp : Q),
      PECE1.in_range ltp = true -> PECE1.bought s = true ->
      PECE1.entry s = Some e -> PECE1.stop s = Some st -> PECE1.peak s = Some pk ->
      (ltp <= e + PECE1.TRAIL_THRESHOLD ->
       PECE1.trail_exit e ltp = PECE1.TRAIL_INITIAL)
      /\ (e + PECE1.TRAIL_THRESHOLD < ltp ->
          PECE1.trail_exit e ltp = PECE1.TRAIL_OFFSET)
      /\ PECE1.TRAIL_INITIAL < PECE1.TRAIL_OFFSET
      /\ exists s' L',
           PECE1.process_price_update live s L (Some ltp) gw answers
           = Ok (s', L',
                 if PECE1Inv.exit_signal e st pk ltp
                 then [PlaceOrder (PECE1.instrument_key s) SELL ltp
                         (fst (PECE1.place_order live L gw (PECE1.instrument_key s)
                                 SELL (Some ltp) (PECE1.mode s)))]
                 else []))
  /\ (forall (live : bool) (s : CE4.Strategy) (L : CE4.Ledger) (gw : Gateway)
          (answers : list Attempt) (e st pk ltp : Q),
      CE4.in_range ltp = true -> CE4.bought s = true ->
      CE4.entry s = Some e -> CE4.stop s = Some st -> CE4.peak s = Some pk ->
      (ltp <= e + CE4.TRAIL_THRESHOLD ->
       CE4.trail_exit e ltp = CE4.TRAIL_INITIAL)
      /\ (e + CE4.TRAIL_THRESHOLD < ltp ->
          CE4.trail_exit e ltp = CE4.TRAIL_OFFSET)
      /\ CE4.TRAIL_INITIAL < CE4.TRAIL_OFFSET
      /\ exists s' L',
           CE4.process_price_update live s L (Some ltp) gw answers
           = Ok (s', L',
                 if CE4Inv.exit_signal e st pk ltp
                 then [PlaceOrder (CE4.instrument_key s) SELL ltp
                         (fst (CE4.place_order live L gw (CE4.instrument_key s)
                                 SELL (Some ltp)))]
                 else [])).
Proof.
  split.
  - intros live s L gw answers e st pk ltp Hin Hb He Hs Hp.
    split; [|split; [|split]].
    + intros H. unfold PECE1.trail_exit.
      apply PyFacts.leb_le in H. rewrite H. reflexivity.
    + intros H. unfold PECE1.trail_exit.
      apply PyFacts.leb_gt in H. rewrite H. reflexivity.
    + reflexivity.
    + destruct (PECE1Facts.step_long live s L ltp e st pk gw answers Hin Hb He Hs Hp)
        as (s' & L' & H & _).
      exists s', L'. exact H.
  - intros live s L gw answers e st pk ltp Hin Hb He Hs Hp.
    split; [|split; [|split]].
    + intros H. unfold CE4.trail_exit.
      apply PyFacts.leb_le in H. rewrite H. reflexivity.
    + intros H. unfold CE4.trail_exit.
      apply PyFacts.leb_gt in H. rewrite H. reflexivity.
    + reflexivity.
    + destruct (CE4Facts.ce4_step_long live s L ltp e st pk gw answers Hin Hb He Hs Hp)
        as (s' & L' & H & _).
      exists s', L'. exact H.
Qed.

Lemma trailing_distance_by_threshold_witness :
  (151 <= 150 + PECE1.TRAIL_THRESHOLD ->
   PECE1.trail_exit 150 151 = PECE1.TRAIL_INITIAL)
  /\ (150 + PECE1.TRAIL_THRESHOLD < 151 ->
      PECE1.trail_exit 150 151 = PECE1.TRAIL_OFFSET)
  /\ PECE1.TRAIL_INITIAL < PECE1.TRAIL_OFFSET
  /\ exists s' L',
       PECE1.process_price_update false long_leg PECE1.empty_ledger (Some 151)
         demo_gateway []
       = Ok (s', L',
             if PECE1Inv.exit_signal 150 130 150 151
             then [PlaceOrder (PECE1.instrument_key long_leg) SELL 151
                     (fst (PECE1.place_order false PECE1.empty_ledger demo_gateway
                             (PECE1.instrument_key long_leg) SELL (Some 151)
                             (PECE1.mode long_leg)))]
             else []).
Proof.
  assert (Hin : PECE1.in_range 151 = true) by reflexivity.
  exact (proj1 trailing_distance_by_threshold false long_leg PECE1.empty_ledger
           demo_gateway [] 150 130 150 151 Hin eq_refl eq_refl eq_refl eq_refl).
Defined.

(** C2 as stated fails: with entry 150 the tick 160 is beyond the
    threshold and the tick 151 within it, and the distance used at 160 (3)
    is not smaller than the one used at 151 (1).  A tick of 158 under a peak
    of 160 is therefore held, a tick of 151 under a peak of 152 is sold. *)
Lemma trailing_distance_is_wider_beyond_threshold :
  150 + PECE1.TRAIL_THRESHOLD < 160
  /\ 151 <= 150 + PECE1.TRAIL_THRESHOLD
  /\ PECE1.trail_exit 150 160 = 3
  /\ PECE1.trail_exit 150 151 = 1
  /\ ~ PECE1.trail_exit 150 160 < PECE1.trail_exit 150 151
  /\ PECE1Inv.exit_signal 150 130 160 158 = false
  /\ PECE1Inv.exit_signal 150 130 152 151 = true.
Proof.
  repeat split; try reflexivity; try discriminate.
Qed.

(** *** C3: a failed order *)

(** C3, evaluated where the code departs from it: in live mode the leg
    holds a position bought at 150 (stop 130, peak 150); the tick 140 is at
    or under the trailing stop, the SELL is placed and rejected by the
    gateway, and the position is dropped all the same: [bought] is false and
    entry, stop and peak are cleared, though nothing was sold.  A rejected
    BUY, in contrast, leaves the leg flat.  Same in trade_CE4.py. *)
Theorem failed_sell_drops_position :
  PECE1.process_price_update true long_leg PECE1.empty_ledger (Some 140)
    rejecting_gateway []
  = Ok (PECE1.mkStrategy PE demo_key false None None None (Some 140) true,
        PECE1.empty_ledger,
        [PlaceOrder demo_key SELL 140 false])
  /\ CE4.process_price_update true long_leg4 CE4.empty_ledger (Some 140)
       rejecting_gateway []
     = Ok (CE4.mkStrategy demo_key false None None None (Some 140) true,
           CE4.empty_ledger,
           [PlaceOrder demo_key SELL 140 false])
  /\ PECE1.process_price_update true flat_leg PECE1.empty_ledger (Some 155)
       rejecting_gateway []
     = Ok (PECE1.mkStrategy PE demo_key false None None None (Some 155) true,
           PECE1.empty_ledger,
           [PlaceOrder demo_key BUY 155 false]).
Proof.
  repeat split; vm_compute; reflexivity.
Qed.

(** *** C4: a tick outside the range *)

Lemma in_range_bounds (lower upper q : Q) :
  Py.leb lower q && Py.leb q upper = true <-> lower <= q /\ q <= upper.
Proof.
  rewrite andb_true_iff, !PyFacts.leb_le. reflexivity.
Qed.

Lemma in_range_differs (lower upper q ltp : Q) :
  Py.leb lower q && Py.leb q upper = true ->
  Py.leb lower ltp && Py.leb ltp upper = false ->
  ~ q == ltp.
Proof.
  intros Hq Hltp E. apply in_range_bounds in Hq. destruct Hq as [H1 H2].
  rewrite E in H1, H2.
  assert (H : Py.leb lower ltp && Py.leb ltp upper = true)
    by (apply in_range_bounds; split; assumption).
  congruence.
Qed.

(** C4 (amended): for every tick outside [lower_bound, upper_bound] the
    position is dropped and the instrument search is started; no SELL (no
    order at all) is placed, also when the leg is LONG, and the ledger is
    left as it was.  When the search ends, the leg is FLAT (bought false,
    entry, stop and peak cleared), the instrument installed is that of the
    first answer of the search that has a key and an LTP inside the range,
    and that LTP is stored as the previous price; the search does end as
    soon as it meets such an answer.  In trade_PE_CE1.py this is for a leg
    whose [running] flag is set; trade_CE4.py has no such guard. *)
Theorem out_of_range_tick_drops_position :
  (forall (live : bool) (s s' : PECE1.Strategy) (L L' : PECE1.Ledger) (ltp : Q)
          (gw : Gateway) (answers : list Attempt) (evs : list Event),
      PECE1.running s = true -> PECE1.in_range ltp = false ->
      PECE1.process_price_update live s L (Some ltp) gw answers = Ok (s', L', evs) ->
      L' = L /\ evs <> [] /\ Forall (eq GetNewInstrument) evs
      /\ PECE1.bought s' = false /\ PECE1.entry s' = None
      /\ PECE1.stop s' = None /\ PECE1.peak s' = None
      /\ exists a q,
           find (acceptable PECE1.in_range) answers = Some a
           /\ PECE1.instrument_key s' = new_key a
           /\ new_ltp a = Some q
           /\ PECE1.prev_price s' = Some q
           /\ PECE1.in_range q = true)
  /\ (forall (live : bool) (s : PECE1.Strategy) (L : PECE1.Ledger) (ltp : Q)
          (gw : Gateway) (answers : list Attempt),
      PECE1.in_range ltp = false ->
      existsb (acceptable PECE1.in_range) answers = true ->
      exists s' evs,
        PECE1.process_price_update live s L (Some ltp) gw answers
        = Ok (s', L, evs))
  /\ (forall (live : bool) (s s' : CE4.Strategy) (L L' : CE4.Ledger) (ltp : Q)
          (gw : Gateway) (answers : list Attempt) (evs : list Event),
      CE4.in_range ltp = false ->
      CE4.process_price_update live s L (Some ltp) gw answers = Ok (s', L', evs) ->
      L' = L /\ evs <> [] /\ Forall (eq GetNewInstrument) evs
      /\ CE4.bought s' = false /\ CE4.entry s' = None
      /\ CE4.stop s' = None /\ CE4.peak s' = None
      /\ exists a q,
           find (acceptable CE4.in_range) answers = Some a
           /\ CE4.instrument_key s' = new_key a
           /\ new_ltp a = Some q
           /\ CE4.prev_price s' = Some q
           /\ CE4.in_range q = true)
  /\ (forall (live : bool) (s : CE4.Strategy) (L : CE4.Ledger) (ltp : Q)
          (gw : Gateway) (answers : list Attempt),
      CE4.in_range ltp = false ->
      existsb (acceptable CE4.in_range) answers = true ->
      exists s' evs,
        CE4.process_price_update live s L (Some ltp) gw answers
        = Ok (s', L, evs)).
Proof.
  split; [|split; [|split]].
  - intros live s s' L L' ltp gw answers evs Hrun Hout H.
    destruct (PECE1Facts.step_out_of_range live s s' L L' ltp gw answers evs
                Hrun Hout H)
      as (HL & Hb & He & Hs & Hp & _ & _ & Hne & Hall & _).
    repeat (split; [assumption|]).
    exact (SearchFacts.step_selects live s s' L L' ltp gw answers evs
             Hrun Hout H).
  - intros live s L ltp gw answers Hout Hex.
    exact (PECE1Facts.step_out_of_range_total live s L ltp gw answers Hout Hex).
  - intros live s s' L L' ltp gw answers evs Hout H.
    destruct (CE4Facts.ce4_step_out_of_range live s s' L L' ltp gw answers evs Hout H)
      as (HL & Hb & He & Hs & Hp & Hne & Hall & _).
    repeat (split; [assumption|]).
    exact (SearchFacts.ce4_step_selects live s s' L L' ltp gw answers evs
             Hout H).
  - intros live s L ltp gw answers Hout Hex.
    exact (CE4Facts.ce4_step_out_of_range_total live s L ltp gw answers Hout Hex).
Qed.

Lemma out_of_range_tick_drops_position_witness :
  exists s' evs,
    PECE1.process_price_update false long_leg after_buy (Some 250) demo_gateway
      found_at_once = Ok (s', after_buy, evs)
    /\ evs <> [] /\ Forall (eq GetNewInstrument) evs
    /\ PECE1.bought s' = false /\ PECE1.entry s' = None
    /\ PECE1.stop s' = None /\ PECE1.peak s' = None
    /\ PECE1.instrument_key s' = other_key
    /\ PECE1.prev_price s' = Some 150.
Proof.
  assert (Hout : PECE1.in_range 250 = false) by reflexivity.
  assert (Hex : existsb (acceptable PECE1.in_range) found_at_once = true)
    by reflexivity.
  destruct (proj1 (proj2 out_of_range_tick_drops_position) false long_leg
              after_buy 250 demo_gateway found_at_once Hout Hex)
    as (s' & evs & H).
  exists s', evs. split; [exact H|].
  destruct (proj1 out_of_range_tick_drops_position false long_leg s'
              after_buy after_buy 250 demo_gateway found_at_once evs
              eq_refl Hout H)
    as (_ & Hne & Hall & Hb & He & Hs & Hp & a & q & Ha & Hk & Hq & Hprev & _).
  injection Ha as <-. injection Hq as <-.
  repeat (split; [assumption|]). exact Hprev.
Defined.

(** C4 as stated fails: the leg is LONG (bought at 150) and the tick is
    250; the only event is the instrument search, no SELL is issued and the
    log still ends with the BUY. *)
Lemma no_sell_on_out_of_range_tick :
  PECE1.bought long_leg = true
  /\ PECE1.in_range 250 = false
  /\ exists s',
       PECE1.process_price_update false long_leg after_buy (Some 250)
         demo_gateway found_at_once
       = Ok (s', after_buy, [GetNewInstrument])
       /\ existsb (is_order SELL) [GetNewInstrument] = false
       /\ PECE1.bought s' = false
       /\ PECE1.pe_trades after_buy = [demo_buy].
Proof.
  split; [reflexivity|]. split; [reflexivity|].
  eexists. split; [vm_compute; reflexivity|].
  split; [reflexivity|]. split; [reflexivity|].
  vm_compute. reflexivity.
Qed.

(** *** C8: one position per leg *)

(** C8 (amended): a BUY is never issued while the position is open: a tick
    processed with [bought] true places no BUY, and in every run the events
    keep the order of [well_ordered] (a successful BUY is followed by no
    other BUY before a SELL or an instrument search has emptied the
    position), runs over answerable ticks from a well-formed position being
    runs that return.  The strategy object thus tracks one position at most;
    the leg's trade log is not bounded that way, as a position dropped by an
    out-of-range tick leaves its BUY without a SELL. *)
Theorem buy_only_when_flat :
  (forall (live : bool) (s s' : PECE1.Strategy) (L L' : PECE1.Ledger)
          (ltp : option Q) (gw : Gateway) (answers : list Attempt)
          (evs : list Event),
      PECE1.bought s = true ->
      PECE1.process_price_update live s L ltp gw answers = Ok (s', L', evs) ->
      forallb (fun ev => negb (is_order BUY ev)) evs = true)
  /\ (forall (live : bool) (ticks : list PECE1.Tick) (s s' : PECE1.Strategy)
          (L L' : PECE1.Ledger) (evs : list Event),
      PECE1.running s = true ->
      PECE1.feed live ticks s L = Ok (s', L', evs) ->
      well_ordered (PECE1.bought s) evs = true)
  /\ (forall (live : bool) (ticks : list PECE1.Tick) (s : PECE1.Strategy)
          (L : PECE1.Ledger),
      PECE1.running s = true -> PECE1Inv.position_ok s ->
      forallb PECE1Inv.answerable ticks = true ->
      exists s' L' evs, PECE1.feed live ticks s L = Ok (s', L', evs))
  /\ (forall (live : bool) (s s' : CE4.Strategy) (L L' : CE4.Ledger)
          (ltp : option Q) (gw : Gateway) (answers : list Attempt)
          (evs : list Event),
      CE4.bought s = true ->
      CE4.process_price_update live s L ltp gw answers = Ok (s', L', evs) ->
      forallb (fun ev => negb (is_order BUY ev)) evs = true)
  /\ (forall (live : bool) (ticks : list CE4.Tick) (s s' : CE4.Strategy)
          (L L' : CE4.Ledger) (evs : list Event),
      CE4.feed live ticks s L = Ok (s', L', evs) ->
      well_ordered (CE4.bought s) evs = true)
  /\ (forall (live : bool) (ticks : list CE4.Tick) (s : CE4.Strategy)
          (L : CE4.Ledger),
      CE4Inv.position_ok s ->
      forallb CE4Inv.answerable ticks = true ->
      exists s' L' evs, CE4.feed live ticks s L = Ok (s', L', evs)).
Proof.
  repeat split.
  - intros live s s' L L' ltp gw answers evs.
    apply PECE1Facts.no_buy_while_long.
  - intros live ticks s s' L L' evs.
    apply PECE1Facts.feed_ordered.
  - intros live ticks s L. apply PECE1Facts.feed_total.
  - intros live s s' L L' ltp gw answers evs.
    apply CE4Facts.ce4_no_buy_while_long.
  - intros live ticks s s' L L' evs.
    apply CE4Facts.ce4_feed_ordered.
  - intros live ticks s L. apply CE4Facts.ce4_feed_total.
Qed.

Lemma buy_only_when_flat_witness :
  exists s' L' evs,
    PECE1.feed false buy_drop_buy flat_leg PECE1.empty_ledger = Ok (s', L', evs)
    /\ well_ordered (PECE1.bought flat_leg) evs = true.
Proof.
  assert (Hpos : PECE1Inv.position_ok flat_leg)
    by (repeat split; reflexivity).
  assert (Hans : forallb PECE1Inv.answerable buy_drop_buy = true)
    by reflexivity.
  destruct (proj1 (proj2 (proj2 buy_only_when_flat)) false buy_drop_buy flat_leg
              PECE1.empty_ledger eq_refl Hpos Hans)
    as (s' & L' & evs & H).
  exists s', L', evs. split; [exact H|].
  exact (proj1 (proj2 buy_only_when_flat) false buy_drop_buy flat_leg s'
           PECE1.empty_ledger L' evs eq_refl H).
Defined.

(** C8 as stated fails in its second half: after an uptick (BUY at 155), a
    tick of 250 (position dropped, the search returns the same instrument)
    and another uptick (BUY at 155), the leg's log holds two BUY records and
    no SELL: two open, unmatched BUYs. *)
Lemma two_unmatched_buys_in_log :
  exists s' L' b1 b2,
    PECE1.feed false buy_drop_buy flat_leg PECE1.empty_ledger
    = Ok (s', L',
          [PlaceOrder demo_key BUY 155 true; GetNewInstrument;
           PlaceOrder demo_key BUY 155 true])
    /\ PECE1.pe_trades L' = [b1; b2]
    /\ action b1 = BUY /\ action b2 = BUY
    /\ Spec.open_buys (PECE1.pe_trades L') = [b1; b2]
    /\ (1 < List.length (Spec.open_buys (PECE1.pe_trades L')))%nat.
Proof.
  eexists. eexists. eexists. eexists.
  split; [vm_compute; reflexivity|].
  split; [reflexivity|].
  split; [reflexivity|]. split; [reflexivity|].
  split; [vm_compute; reflexivity|].
  vm_compute. apply le_n.
Qed.

(** *** C9: the previous price *)

(** C9 (amended): after a call with a price inside the range, on a
    well-formed position, the stored previous price is the ltp passed in,
    whatever the branch (entry, exit, no action, failed order).  After a call
    with a price outside the range the function returns early and the stored
    previous price is the LTP of the instrument the search selected (the
    first answer with a key and an LTP inside the range, whose key is
    installed), which lies inside the range and so differs from the ltp
    passed in.  In trade_PE_CE1.py a call with ltp None changes nothing. *)
Theorem previous_price_after_tick :
  (forall (live : bool) (s : PECE1.Strategy) (L : PECE1.Ledger) (ltp : Q)
          (gw : Gateway) (answers : list Attempt),
      PECE1.in_range ltp = true -> PECE1Inv.position_ok s ->
      exists s' L' evs,
        PECE1.process_price_update live s L (Some ltp) gw answers
        = Ok (s', L', evs)
        /\ PECE1.prev_price s' = Some ltp)
  /\ (forall (live : bool) (s s' : PECE1.Strategy) (L L' : PECE1.Ledger)
          (ltp : Q) (gw : Gateway) (answers : list Attempt) (evs : list Event),
      PECE1.running s = true -> PECE1.in_range ltp = false ->
      PECE1.process_price_update live s L (Some ltp) gw answers
      = Ok (s', L', evs) ->
      exists a q,
        find (acceptable PECE1.in_range) answers = Some a
        /\ PECE1.instrument_key s' = new_key a
        /\ new_ltp a = Some q
        /\ PECE1.prev_price s' = Some q
        /\ PECE1.in_range q = true /\ ~ q == ltp)
  /\ (forall (live : bool) (s : CE4.Strategy) (L : CE4.Ledger) (ltp : Q)
          (gw : Gateway) (answers : list Attempt),
      CE4.in_range ltp = true -> CE4Inv.position_ok s ->
      exists s' L' evs,
        CE4.process_price_update live s L (Some ltp) gw answers
        = Ok (s', L', evs)
        /\ CE4.prev_price s' = Some ltp)
  /\ (forall (live : bool) (s s' : CE4.Strategy) (L L' : CE4.Ledger)
          (ltp : Q) (gw : Gateway) (answers : list Attempt) (evs : list Event),
      CE4.in_range ltp = false ->
      CE4.process_price_update live s L (Some ltp) gw answers
      = Ok (s', L', evs) ->
      exists a q,
        find (acceptable CE4.in_range) answers = Some a
        /\ CE4.instrument_key s' = new_key a
        /\ new_ltp a = Some q
        /\ CE4.prev_price s' = Some q
        /\ CE4.in_range q = true /\ ~ q == ltp)
  /\ (forall (live : bool) (s : PECE1.Strategy) (L : PECE1.Ledger)
          (gw : Gateway) (answers : list Attempt),
      PECE1.process_price_update live s L None gw answers = Ok (s, L, [])).
Proof.
  split; [|split; [|split; [|split]]].
  - intros live s L ltp gw answers Hin Hpos.
    destruct (PECE1Facts.step_in_range live s L ltp gw answers Hin Hpos)
      as (s' & L' & evs & H & Hprev & _).
    exists s', L', evs. split; assumption.
  - intros live s s' L L' ltp gw answers evs Hrun Hout H.
    destruct (SearchFacts.step_selects live s s' L L' ltp gw answers evs
                Hrun Hout H)
      as (a & q & Ha & Hk & Hnew & Hq & Hrg).
    exists a, q. repeat (split; [assumption|]).
    exact (in_range_differs _ _ q ltp Hrg Hout).
  - intros live s L ltp gw answers Hin Hpos.
    destruct (CE4Facts.ce4_step_in_range live s L ltp gw answers Hin Hpos)
      as (s' & L' & evs & H & Hprev & _).
    exists s', L', evs. split; assumption.
  - intros live s s' L L' ltp gw answers evs Hout H.
    destruct (SearchFacts.ce4_step_selects live s s' L L' ltp gw answers evs
                Hout H)
      as (a & q & Ha & Hk & Hnew & Hq & Hrg).
    exists a, q. repeat (split; [assumption|]).
    exact (in_range_differs _ _ q ltp Hrg Hout).
  - intros live s L gw answers. reflexivity.
Qed.

Lemma previous_price_after_tick_witness :
  exists s' L' evs,
    PECE1.process_price_update false long_leg after_buy (Some 140) demo_gateway []
    = Ok (s', L', evs)
    /\ PECE1.prev_price s' = Some 140.
Proof.
  assert (Hin : PECE1.in_range 140 = true) by reflexivity.
  assert (Hpos : PECE1Inv.position_ok long_leg)
    by (exists 150, 130, 150; repeat split; reflexivity).
  exact (proj1 previous_price_after_tick false long_leg after_buy 140
           demo_gateway [] Hin Hpos).
Defined.

(** C9 as stated fails on the range-violation branch: the tick is 250, the
    search selects an instrument trading at 150, and the stored previous
    price is 150, not 250. *)
Lemma previous_price_after_rotation :
  exists s',
    PECE1.process_price_update false flat_leg PECE1.empty_ledger (Some 250)
      demo_gateway found_at_once
    = Ok (s', PECE1.empty_ledger, [GetNewInstrument])
    /\ PECE1.prev_price s' = Some 150
    /\ PECE1.prev_price s' <> Some 250
    /\ ~ 150 == 250.
Proof.
  eexists. split; [vm_compute; reflexivity|].
  split; [reflexivity|]. split; discriminate.
Qed.

(** ** The strike selectors *)

Module FindStrikeFacts.

Lemma matches_inv (price1 price2 : Q) (ltp : option Q) :
  FindStrike.matches price1 price2 ltp = true ->
  exists q, ltp = Some q /\ ~ q == 0 /\ price1 <= q /\ q <= price2.
Proof.
  unfold FindStrike.matches. intros H.
  apply andb_true_iff in H. destruct H as [H Hup].
  apply andb_true_iff in H. destruct H as [Htruthy Hlow].
  destruct ltp as [q|]; [|discriminate].
  exists q. split; [reflexivity|].
  split; [apply PyFacts.truthy_some; exact Htruthy|].
  split; apply PyFacts.leb_le; assumption.
Qed.

Lemma truthy_inv (v : option Q) :
  Py.truthy v = true -> exists q, v = Some q /\ ~ q == 0.
Proof.
  destruct v as [q|]; [|discriminate].
  intros H. exists q. split; [reflexivity|].
  apply PyFacts.truthy_some. exact H.
Qed.

(** With both matches made, the rest of the chain is not looked at. *)
Lemma scan_both_found (price1 price2 : Q) (chain : list FindStrike.ChainItem)
    (c p : Q * Q) :
  FindStrike.scan price1 price2 chain (Some c) (Some p) = (Some c, Some p).
Proof.
  destruct chain as [|opt rest]; [reflexivity|].
  simpl. destruct (Py.truthy (FindStrike.strike_price opt)); simpl.
  - reflexivity.
  - revert opt. induction rest as [|opt' rest IH]; intros opt; [reflexivity|].
    simpl. destruct (Py.truthy (FindStrike.strike_price opt')); simpl.
    + reflexivity.
    + apply (IH opt').
Qed.

(** The loop, from any pair of matches made so far. *)
Lemma scan_first_traded (price1 price2 : Q) (chain : list FindStrike.ChainItem) :
  forall ce_match pe_match,
    FindStrike.scan price1 price2 chain ce_match pe_match
    = (match ce_match with
       | Some m => Some m
       | None =>
         option_map (Spec.candidate FindStrike.call_ltp)
           (Spec.first_traded_in_range price1 price2 FindStrike.call_ltp chain)
       end,
       match pe_match with
       | Some m => Some m
       | None =>
         option_map (Spec.candidate FindStrike.put_ltp)
           (Spec.first_traded_in_range price1 price2 FindStrike.put_ltp chain)
       end).
Proof.
  unfold Spec.first_traded_in_range.
  induction chain as [|opt rest IH]; intros ce_match pe_match.
  - simpl. destruct ce_match, pe_match; reflexivity.
  - simpl. destruct (Py.truthy (FindStrike.strike_price opt)); simpl.
    + destruct ce_match as [c|], pe_match as [p|]; simpl;
        destruct (FindStrike.matches price1 price2 (FindStrike.call_ltp opt));
        destruct (FindStrike.matches price1 price2 (FindStrike.put_ltp opt));
        simpl; try reflexivity; rewrite IH; reflexivity.
    + apply IH.
Qed.

Lemma find_agree {A : Type} (f g : A -> bool) (l : list A) :
  (forall x, In x l -> f x = g x) -> find f l = find g l.
Proof.
  induction l as [|a l IH]; intros H; [reflexivity|].
  simpl. rewrite (H a (or_introl eq_refl)).
  destruct (g a); [reflexivity|].
  apply IH. intros x Hx. apply H. right. exact Hx.
Qed.

(** On a side whose LTP is not [0] the code's test is the band test. *)
Lemma matches_in_band (price1 price2 : Q) (ltp : option Q) :
  Py.truthy ltp = true ->
  FindStrike.matches price1 price2 ltp = Spec.in_band price1 price2 ltp.
Proof.
  unfold FindStrike.matches. intros H. rewrite H.
  destruct ltp as [q|]; [reflexivity|discriminate].
Qed.

Lemma truthy_has_strike (opt : FindStrike.ChainItem) :
  Py.truthy (FindStrike.strike_price opt) = true ->
  Spec.has_strike opt = true.
Proof.
  unfold Spec.has_strike.
  destruct (FindStrike.strike_price opt); [reflexivity|discriminate].
Qed.

(** An LTP of [0] counts for as much as an absent one. *)
Lemma matches_without_zero (price1 price2 : Q) (ltp : option Q) :
  FindStrike.matches price1 price2 (if Py.truthy ltp then ltp else None)
  = FindStrike.matches price1 price2 ltp.
Proof.
  destruct (Py.truthy ltp) eqn:E; [reflexivity|].
  unfold FindStrike.matches. rewrite E. reflexivity.
Qed.

Lemma scan_without_zero (price1 price2 : Q) (chain : list FindStrike.ChainItem) :
  forall ce_match pe_match,
    FindStrike.scan price1 price2 (map Spec.without_zero_ltp chain)
      ce_match pe_match
    = FindStrike.scan price1 price2 chain ce_match pe_match.
Proof.
  induction chain as [|opt rest IH]; intros ce_match pe_match; [reflexivity|].
  simpl. destruct (Py.truthy (FindStrike.strike_price opt)); simpl.
  - rewrite !matches_without_zero.
    assert (Hside : forall ltp,
               FindStrike.matches price1 price2 ltp = true ->
               (if Py.truthy ltp then ltp else None) = ltp).
    { intros ltp H. unfold FindStrike.matches in H.
      destruct (Py.truthy ltp); [reflexivity|discriminate]. }
    destruct (FindStrike.matches price1 price2 (FindStrike.call_ltp opt)) eqn:Ec;
      destruct (FindStrike.matches price1 price2 (FindStrike.put_ltp opt)) eqn:Ep;
      rewrite ?(Hside _ Ec), ?(Hside _ Ep), ?andb_false_r; rewrite !IH;
      reflexivity.
  - apply IH.
Qed.

(** A match comes from an element of the chain that passed both truth tests
    and the band test. *)
Lemma first_traded_inv (price1 price2 : Q)
    (side : FindStrike.ChainItem -> option Q) (chain : list FindStrike.ChainItem)
    (strike ltp : Q) :
  option_map (Spec.candidate side)
    (Spec.first_traded_in_range price1 price2 side chain) = Some (strike, ltp) ->
  ~ ltp == 0 /\ price1 <= ltp /\ ltp <= price2
  /\ exists opt, In opt chain /\ side opt = Some ltp
                 /\ FindStrike.strike_price opt = Some strike.
Proof.
  unfold Spec.first_traded_in_range.
  destruct (find _ chain) as [opt|] eqn:E; [|discriminate].
  apply find_some in E. destruct E as [Hin Hok].
  apply andb_true_iff in Hok. destruct Hok as [Hstrike Hltp].
  apply matches_inv in Hltp. destruct Hltp as (q & Hq & Hnz & Hlo & Hup).
  apply truthy_inv in Hstrike. destruct Hstrike as (k & Hk & _).
  simpl. unfold Spec.candidate. rewrite Hq, Hk. simpl.
  intros H. injection H as <- <-.
  split; [exact Hnz|]. split; [exact Hlo|]. split; [exact Hup|].
  exists opt. repeat split; assumption.
Qed.

End FindStrikeFacts.

Module FindStrike2Facts.

(** [min(..., key=...)] returns an element at the least distance. *)
Lemma nearest_from_least (bound : Q) (strikes : list Q) :
  forall best,
    (FindStrike2.nearest_from bound best strikes = best
     \/ In (FindStrike2.nearest_from bound best strikes) strikes)
    /\ Qabs (FindStrike2.nearest_from bound best strikes - bound)
       <= Qabs (best - bound)
    /\ forall x, In x strikes ->
         Qabs (FindStrike2.nearest_from bound best strikes - bound)
         <= Qabs (x - bound).
Proof.
  induction strikes as [|x rest IH]; intros best.
  - simpl. split; [left; reflexivity|]. split; [apply Qle_refl|].
    intros x [].
  - cbn [FindStrike2.nearest_from In].
    destruct (Py.ltb (Qabs (x - bound)) (Qabs (best - bound))) eqn:E.
    + apply PyFacts.ltb_lt in E.
      destruct (IH x) as (Hwho & Hbest & Hrest).
      split; [destruct Hwho as [Hw | Hin]; [right; left; symmetry; exact Hw
                                           |right; right; exact Hin]|].
      split; [eapply Qle_trans; [exact Hbest|apply Qlt_le_weak; exact E]|].
      intros y [<- | Hy]; [exact Hbest|apply Hrest; exact Hy].
    + apply PyFacts.ltb_ge in E.
      destruct (IH best) as (Hwho & Hbest & Hrest).
      split; [destruct Hwho as [Hw | Hin]; [left; exact Hw
                                           |right; right; exact Hin]|].
      split; [exact Hbest|].
      intros y [<- | Hy]; [eapply Qle_trans; [exact Hbest|exact E]
                          |apply Hrest; exact Hy].
Qed.

Lemma nearest_least (bound : Q) (strikes : list Q) (r : Q) :
  FindStrike2.nearest bound strikes = Some r ->
  In r strikes /\ forall x, In x strikes -> Qabs (r - bound) <= Qabs (x - bound).
Proof.
  destruct strikes as [|x rest]; [discriminate|].
  cbn [FindStrike2.nearest In]. intros H. injection H as <-.
  destruct (nearest_from_least bound rest x) as (Hwho & Hbest & Hrest).
  split; [destruct Hwho as [Hw | Hin]; [left; symmetry; exact Hw
                                       |right; exact Hin]|].
  intros y [<- | Hy]; [exact Hbest|apply Hrest; exact Hy].
Qed.

End FindStrike2Facts.

(** *** C5: which strike is selected *)

(** C5 (amended): [strike_prices] of [findstrikeprice.py] scans the chain of
    the nearest expiry in listed order and returns, for the calls and
    independently for the puts, the first element whose strike is neither
    absent nor [0] and whose LTP on that side is not [0] and lies within
    [[price1, price2]] inclusive; stopping once both are found changes
    nothing in the result.  It returns the expiry it scanned, with strike
    [0] for a leg without a match, and the expiry ["0"] with both strikes [0]
    only when there is no expiry or the chain is empty.  On a chain where
    every strike and every LTP is non-zero this is the first strike whose
    LTP is in the band.  [strike_prices] of [findstrikeprice2.py] looks at no
    LTP: it returns, among the strikes of the nearest expiry, a call strike
    at the least distance from the lower bound and a put strike at the least
    distance from the upper bound. *)
Theorem strike_prices_first_traded_in_range :
  (forall (price1 price2 : Q) (chain : list FindStrike.ChainItem),
      FindStrike.scan price1 price2 chain None None
      = (option_map (Spec.candidate FindStrike.call_ltp)
           (Spec.first_traded_in_range price1 price2 FindStrike.call_ltp chain),
         option_map (Spec.candidate FindStrike.put_ltp)
           (Spec.first_traded_in_range price1 price2 FindStrike.put_ltp chain)))
  /\ (forall (expiry : string) (later : list string)
             (get_option_chain : string -> list FindStrike.ChainItem)
             (price1 price2 : Q),
      get_option_chain expiry <> [] ->
      FindStrike.strike_prices (expiry :: later) get_option_chain price1 price2
      = (expiry,
         Spec.strike_or_zero
           (Spec.first_traded_in_range price1 price2 FindStrike.call_ltp
              (get_option_chain expiry)),
         Spec.strike_or_zero
           (Spec.first_traded_in_range price1 price2 FindStrike.put_ltp
              (get_option_chain expiry))))
  /\ (forall (expiries : list string)
             (get_option_chain : string -> list FindStrike.ChainItem)
             (price1 price2 : Q),
      expiries = []
      \/ (exists expiry later,
             expiries = expiry :: later /\ get_option_chain expiry = []) ->
      FindStrike.strike_prices expiries get_option_chain price1 price2
      = ("0"%string, 0, 0))
  /\ (forall (price1 price2 : Q) (chain : list FindStrike.ChainItem),
      (forall opt, In opt chain ->
         Py.truthy (FindStrike.strike_price opt) = true
         /\ Py.truthy (FindStrike.call_ltp opt) = true
         /\ Py.truthy (FindStrike.put_ltp opt) = true) ->
      Spec.first_traded_in_range price1 price2 FindStrike.call_ltp chain
      = Spec.first_in_range price1 price2 FindStrike.call_ltp chain
      /\ Spec.first_traded_in_range price1 price2 FindStrike.put_ltp chain
         = Spec.first_in_range price1 price2 FindStrike.put_ltp chain)
  /\ (forall (instruments : list FindStrike2.Instrument)
             (lower_bound upper_bound : Q) (nearest_expiry : string)
             (ce_strike pe_strike : Q),
      FindStrike2.strike_prices instruments lower_bound upper_bound
      = (nearest_expiry, Some ce_strike, Some pe_strike) ->
      (In ce_strike
          (FindStrike2.strikes_of FindStrike2.CE_type nearest_expiry instruments)
       /\ forall x,
            In x (FindStrike2.strikes_of FindStrike2.CE_type nearest_expiry
                    instruments) ->
            Qabs (ce_strike - lower_bound) <= Qabs (x - lower_bound))
      /\ (In pe_strike
            (FindStrike2.strikes_of FindStrike2.PE_type nearest_expiry instruments)
          /\ forall x,
               In x (FindStrike2.strikes_of FindStrike2.PE_type nearest_expiry
                       instruments) ->
               Qabs (pe_strike - upper_bound) <= Qabs (x - upper_bound))).
Proof.
  split; [|split; [|split; [|split]]].
  - intros price1 price2 chain.
    apply (FindStrikeFacts.scan_first_traded price1 price2 chain None None).
  - intros expiry later get_option_chain price1 price2 Hchain.
    unfold FindStrike.strike_prices.
    destruct (get_option_chain expiry) as [|opt rest] eqn:E; [congruence|].
    rewrite (FindStrikeFacts.scan_first_traded price1 price2 (opt :: rest)
               None None).
    unfold Spec.strike_or_zero.
    destruct (Spec.first_traded_in_range price1 price2 FindStrike.call_ltp
                (opt :: rest));
      destruct (Spec.first_traded_in_range price1 price2 FindStrike.put_ltp
                  (opt :: rest));
      reflexivity.
  - intros expiries get_option_chain price1 price2
           [-> | (expiry & later & -> & Hchain)].
    + reflexivity.
    + unfold FindStrike.strike_prices. rewrite Hchain. reflexivity.
  - intros price1 price2 chain Hall.
    unfold Spec.first_traded_in_range, Spec.first_in_range.
    split; apply FindStrikeFacts.find_agree; intros opt Hopt;
      destruct (Hall opt Hopt) as (Hs & Hc & Hp);
      rewrite Hs, (FindStrikeFacts.truthy_has_strike opt Hs);
      simpl; apply FindStrikeFacts.matches_in_band; assumption.
  - intros instruments lower_bound upper_bound nearest_expiry ce_strike
           pe_strike H.
    unfold FindStrike2.strike_prices in H.
    destruct instruments as [|first others]; [discriminate|].
    destruct (FindStrike2.nearest lower_bound _) as [ce|] eqn:Ece;
      [|discriminate].
    destruct (FindStrike2.nearest upper_bound _) as [pe|] eqn:Epe;
      [|discriminate].
    injection H as He Hce Hpe. subst ce pe. rewrite He in Ece, Epe.
    split.
    + exact (FindStrike2Facts.nearest_least _ _ _ Ece).
    + exact (FindStrike2Facts.nearest_least _ _ _ Epe).
Qed.

Lemma strike_prices_first_traded_in_range_witness :
  FindStrike.strike_prices one_expiry (fun _ => scenario_d) 100 200
  = ("2025-09-25"%string,
     Spec.strike_or_zero
       (Spec.first_traded_in_range 100 200 FindStrike.call_ltp scenario_d),
     Spec.strike_or_zero
       (Spec.first_traded_in_range 100 200 FindStrike.put_ltp scenario_d))
  /\ (In 90 (FindStrike2.strikes_of FindStrike2.CE_type "2025-09-25"
               three_strikes)
      /\ forall x,
           In x (FindStrike2.strikes_of FindStrike2.CE_type "2025-09-25"
                   three_strikes) ->
           Qabs (90 - 100) <= Qabs (x - 100)).
Proof.
  assert (Hchain : (fun _ : string => scenario_d) "2025-09-25"%string <> [])
    by discriminate.
  assert (Hsel : FindStrike2.strike_prices three_strikes 100 200
                 = ("2025-09-25"%string, Some 90, Some 210))
    by (vm_compute; reflexivity).
  split.
  - exact (proj1 (proj2 strike_prices_first_traded_in_range)
             "2025-09-25"%string [] (fun _ => scenario_d) 100 200 Hchain).
  - exact (proj1 (proj2 (proj2 (proj2 (proj2
                    strike_prices_first_traded_in_range)))
                    three_strikes 100 200 "2025-09-25"%string 90 210 Hsel)).
Defined.

(** C5 as stated fails where an LTP is [0] and the band contains [0]: the
    first strike of the chain has call and put LTP [0], which lies within
    [[0, 200]], so the first strike in the band is 24000 on both sides; the
    code returns 24100 for the calls and 24200 for the puts. *)
Lemma first_in_band_strike_not_selected :
  Spec.select_strikes untraded_first 0 200 = (24000, 24000)
  /\ FindStrike.strike_prices one_expiry (fun _ => untraded_first) 0 200
     = ("2025-09-25"%string, 24100, 24200)
  /\ ~ 24100 == 24000 /\ ~ 24200 == 24000.
Proof.
  split; [vm_compute; reflexivity|].
  split; [vm_compute; reflexivity|].
  split; discriminate.
Qed.

(** [findstrikeprice2.py] selects by closeness to a bound, not by scan
    order: of the call strikes 54000, 150, 90 listed in that order it
    returns 90 for the lower bound 100, and of the put strikes 54000, 500,
    210 it returns 210 for the upper bound 200. *)
Lemma closest_strike_selected :
  FindStrike2.strikes_of FindStrike2.CE_type "2025-09-25" three_strikes
  = [54000; 150; 90]
  /\ FindStrike2.strike_prices three_strikes 100 200
     = ("2025-09-25"%string, Some 90, Some 210).
Proof.
  split; vm_compute; reflexivity.
Qed.

(** *** C10: a strike that has not traded *)

(** C10: whatever the bounds, also when [0] lies within them, the match
    recorded for the calls (for the puts) has an LTP that is not [0], within
    the bounds, and is the strike and call LTP (put LTP) of an element of
    the chain; and the scan gives the same result on the chain in which every
    LTP of [0] is taken out, as does [strike_prices]: a strike whose LTP is
    absent or [0] is passed over as one without market data. *)
Theorem zero_ltp_never_selected (price1 price2 : Q)
    (chain : list FindStrike.ChainItem) (ce_match pe_match : option (Q * Q)) :
  FindStrike.scan price1 price2 chain None None = (ce_match, pe_match) ->
  (forall strike ltp, ce_match = Some (strike, ltp) ->
     ~ ltp == 0 /\ price1 <= ltp /\ ltp <= price2
     /\ exists opt, In opt chain /\ FindStrike.call_ltp opt = Some ltp
                    /\ FindStrike.strike_price opt = Some strike)
  /\ (forall strike ltp, pe_match = Some (strike, ltp) ->
        ~ ltp == 0 /\ price1 <= ltp /\ ltp <= price2
        /\ exists opt, In opt chain /\ FindStrike.put_ltp opt = Some ltp
                       /\ FindStrike.strike_price opt = Some strike)
  /\ FindStrike.scan price1 price2 (map Spec.without_zero_ltp chain) None None
     = (ce_match, pe_match)
  /\ forall (expiries : list string)
            (get_option_chain : string -> list FindStrike.ChainItem),
       FindStrike.strike_prices expiries
         (fun expiry => map Spec.without_zero_ltp (get_option_chain expiry))
         price1 price2
       = FindStrike.strike_prices expiries get_option_chain price1 price2.
Proof.
  intros H.
  rewrite (FindStrikeFacts.scan_first_traded price1 price2 chain None None) in H.
  injection H as Hce Hpe.
  split; [|split; [|split]].
  - intros strike ltp E. rewrite E in Hce.
    exact (FindStrikeFacts.first_traded_inv _ _ _ _ _ _ Hce).
  - intros strike ltp E. rewrite E in Hpe.
    exact (FindStrikeFacts.first_traded_inv _ _ _ _ _ _ Hpe).
  - rewrite FindStrikeFacts.scan_without_zero.
    rewrite (FindStrikeFacts.scan_first_traded price1 price2 chain None None).
    rewrite Hce, Hpe. reflexivity.
  - intros expiries get_option_chain.
    unfold FindStrike.strike_prices.
    destruct expiries as [|expiry later]; [reflexivity|].
    cbv beta.
    destruct (get_option_chain expiry) as [|opt rest]; [reflexivity|].
    cbn [map].
    change (Spec.without_zero_ltp opt :: map Spec.without_zero_ltp rest)
      with (map Spec.without_zero_ltp (opt :: rest)).
    rewrite FindStrikeFacts.scan_without_zero. reflexivity.
Qed.

Lemma zero_ltp_never_selected_witness :
  (forall strike ltp, Some (24100, 50) = Some (strike, ltp) ->
     ~ ltp == 0 /\ CE4.LTP_LOWER_BOUND <= ltp /\ ltp <= CE4.LTP_UPPER_BOUND
     /\ exists opt, In opt untraded_first /\ FindStrike.call_ltp opt = Some ltp
                    /\ FindStrike.strike_price opt = Some strike)
  /\ FindStrike.scan CE4.LTP_LOWER_BOUND CE4.LTP_UPPER_BOUND
       (map Spec.without_zero_ltp untraded_first) None None
     = (Some (24100, 50), Some (24200, 60)).
Proof.
  assert (H : FindStrike.scan CE4.LTP_LOWER_BOUND CE4.LTP_UPPER_BOUND
                untraded_first None None
              = (Some (24100, 50), Some (24200, 60)))
    by (vm_compute; reflexivity).
  split.
  - exact (proj1 (zero_ltp_never_selected CE4.LTP_LOWER_BOUND
                    CE4.LTP_UPPER_BOUND untraded_first _ _ H)).
  - exact (proj1 (proj2 (proj2 (zero_ltp_never_selected CE4.LTP_LOWER_BOUND
                                  CE4.LTP_UPPER_BOUND untraded_first _ _ H)))).
Defined.

(** ** The books of trade_PE_CE1.py *)

Module PECE1BooksFacts.
Import PECE1 PECE1Books.

Lemma running_snoc (a : Q) (values : list Q) (x : Q) :
  running a (values ++ [x]) = running a values + x.
Proof. unfold running. rewrite fold_left_app. reflexivity. Qed.

Lemma running_app (a : Q) (l1 l2 : list Q) :
  running a (l1 ++ l2) = running (running a l1) l2.
Proof. unfold running. apply fold_left_app. Qed.

Lemma running_from (values : list Q) (a b : Q) :
  a == b -> running a values == running b values.
Proof.
  unfold running. revert a b.
  induction values as [|x values IH]; intros a b E; cbn [fold_left];
    [exact E|].
  apply IH. rewrite E. reflexivity.
Qed.

Lemma nets_app (l1 l2 : list Trade) : nets (l1 ++ l2) = nets l1 ++ nets l2.
Proof. unfold nets. apply flat_map_app. Qed.

Lemma last_day_pnl_snoc (log : list Trade) (t : Trade) :
  last_day_pnl (log ++ [t])
  = match day_pnl t with
    | Some p => p
    | None => last_day_pnl log
    end.
Proof. unfold last_day_pnl. rewrite fold_left_app. reflexivity. Qed.

Lemma settled_snoc (log : list Trade) (t : Trade) :
  Forall settled log -> settled t -> Forall settled (log ++ [t]).
Proof.
  intros Hlog Ht. apply Forall_app. split; [exact Hlog|].
  constructor; [exact Ht|constructor].
Qed.

(** Appending the completed record of a SELL and booking its net profit
    keeps the accumulators in agreement with the logs. *)
Lemma balanced_booked (leg : Leg) (L : Ledger) (key : Key) (lot : Z)
    (x : Q) (is_live : bool) (g : Q) (c : Charges) (entry_price : Q) :
  balanced L ->
  balanced
    (set_trades leg
       (trades_of leg L
        ++ [mkTrade key leg SELL lot x is_live (Some c) (Some g)
              (Some (Py.round2 (g - total c)))
              (Some (day_pnl_of leg
                       (book_profit leg (Py.round2 (g - total c)) entry_price
                          L)))])
       (book_profit leg (Py.round2 (g - total c)) entry_price L)).
Proof.
  intros (Hce & Hpe & Hlce & Hlpe & Hsce & Hspe).
  set (n := Py.round2 (g - total c)). unfold balanced.
  destruct leg;
    cbn [ce_trades pe_trades ce_day_pnl pe_day_pnl ce_capital_used
         pe_capital_used current_balance set_trades book_profit trades_of
         day_pnl_of];
    rewrite ?nets_app, ?last_day_pnl_snoc;
    cbn [nets flat_map net_profit day_pnl app]; rewrite ?running_snoc.
  - split; [rewrite Hce; reflexivity|]. split; [exact Hpe|].
    split; [reflexivity|]. split; [exact Hlpe|].
    split; [|exact Hspe]. apply settled_snoc; [exact Hsce|reflexivity].
  - split; [exact Hce|]. split; [rewrite Hpe; reflexivity|].
    split; [exact Hlce|]. split; [reflexivity|].
    split; [exact Hsce|]. apply settled_snoc; [exact Hspe|reflexivity].
Qed.

(** Appending a record without profit fields changes nothing to that. *)
Lemma balanced_appended (leg : Leg) (L : Ledger) (key : Key) (side : Side)
    (lot : Z) (x : Q) (is_live : bool) :
  balanced L ->
  balanced
    (set_trades leg
       (trades_of leg L
        ++ [mkTrade key leg side lot x is_live None None None None]) L).
Proof.
  intros (Hce & Hpe & Hlce & Hlpe & Hsce & Hspe). unfold balanced.
  destruct leg;
    cbn [ce_trades pe_trades ce_day_pnl pe_day_pnl ce_capital_used
         pe_capital_used current_balance set_trades trades_of];
    rewrite ?nets_app, ?last_day_pnl_snoc;
    cbn [nets flat_map net_profit day_pnl app]; rewrite ?app_nil_r.
  - split; [exact Hce|]. split; [exact Hpe|].
    split; [exact Hlce|]. split; [exact Hlpe|].
    split; [|exact Hspe]. apply settled_snoc; [exact Hsce|exact I].
  - split; [exact Hce|]. split; [exact Hpe|].
    split; [exact Hlce|]. split; [exact Hlpe|].
    split; [exact Hsce|]. apply settled_snoc; [exact Hspe|exact I].
Qed.

(** Every call of [place_order], whatever its arguments and its result,
    leaves the accumulators in agreement with the logs. *)
Lemma place_order_balanced (is_live : bool) (L : Ledger) (gw : Gateway)
    (key : Key) (side : Side) (price : option Q) (leg : Leg) :
  balanced L -> balanced (snd (place_order is_live L gw key side price leg)).
Proof.
  intros HL. unfold place_order.
  destruct (Py.or_else price (rest_ltp gw)) as [current_price|];
    [|exact HL].
  destruct is_live; cbn [negb].
  - destruct (post_ok gw); cbn [snd]; [|exact HL].
    apply balanced_appended. exact HL.
  - destruct side; cbn [snd].
    + apply balanced_appended. exact HL.
    + destruct (last_buy _ key) as [buy|]; cbn [snd].
      * apply balanced_booked. exact HL.
      * apply balanced_appended. exact HL.
Qed.

Lemma booked_refl (leg : Leg) (L : Ledger) : booked leg L L.
Proof.
  exists []. rewrite app_nil_r. repeat split; reflexivity.
Qed.

Lemma booked_trans (leg : Leg) (L1 L2 L3 : Ledger) :
  booked leg L1 L2 -> booked leg L2 L3 -> booked leg L1 L3.
Proof.
  intros (a1 & Hlog1 & Hpnl1 & Hbal1) (a2 & Hlog2 & Hpnl2 & Hbal2).
  exists (a1 ++ a2). rewrite Hlog2, Hlog1, <- app_assoc.
  split; [reflexivity|]. rewrite nets_app, !running_app.
  split.
  - rewrite Hpnl2. apply running_from. exact Hpnl1.
  - rewrite Hbal2. apply running_from. exact Hbal1.
Qed.

Lemma trades_of_set (leg : Leg) (ts : list Trade) (L : Ledger) :
  trades_of leg (set_trades leg ts L) = ts.
Proof. destruct leg; reflexivity. Qed.

(** Every call of [place_order] moves the leg's day P&L and the balance by
    the net profit of the record it adds, when it adds one that has a net
    profit. *)
Lemma place_order_booked (is_live : bool) (L : Ledger) (gw : Gateway)
    (key : Key) (side : Side) (price : option Q) (leg : Leg) :
  booked leg L (snd (place_order is_live L gw key side price leg)).
Proof.
  assert (Happ : forall t,
             net_profit t = None ->
             booked leg L (set_trades leg (trades_of leg L ++ [t]) L)).
  { intros t Ht. exists [t]. rewrite trades_of_set.
    split; [reflexivity|].
    unfold nets. cbn [flat_map]. rewrite Ht. cbn [app running fold_left].
    destruct leg; split; reflexivity. }
  unfold place_order.
  destruct (Py.or_else price (rest_ltp gw)) as [current_price|];
    [|apply booked_refl].
  destruct is_live; cbn [negb].
  - destruct (post_ok gw); cbn [snd]; [|apply booked_refl].
    apply Happ. reflexivity.
  - destruct side; cbn [snd].
    + apply Happ. reflexivity.
    + destruct (last_buy _ key) as [buy|]; cbn [snd].
      * eexists. rewrite trades_of_set.
        split; [destruct leg; reflexivity|].
        unfold nets. cbn [flat_map net_profit app running fold_left].
        destruct leg; split; reflexivity.
      * apply Happ. reflexivity.
Qed.

End PECE1BooksFacts.

(** ** What one tick does to the ledger *)

Module PECE1StepFacts.
Import PECE1 PECE1Inv.

Section Step.

Variable live : bool.

Lemma ensure_instrument_keeps (s s' : Strategy) (answers : list Attempt)
    (evs : list Event) :
  ensure_instrument s answers = Ok (s', evs) ->
  mode s' = mode s /\ running s' = running s /\ bought s' = bought s
  /\ entry s' = entry s /\ stop s' = stop s /\ peak s' = peak s.
Proof.
  destruct (running s) eqn:Hrun.
  - intros H.
    destruct (PECE1Facts.ensure_instrument_ok s s' answers evs Hrun H)
      as (_ & _ & Hm & Hr & Hb & He & Hs & Hp & _).
    rewrite Hr. repeat split; assumption.
  - destruct answers; simpl; rewrite Hrun; simpl; intros H; inversion H;
      subst; rewrite Hrun; repeat split.
Qed.

(** The three things a tick can do: place no order (the position is then
    dropped, or kept with its entry and stop and a peak raised to the tick
    when the tick is above it), place a BUY from a flat leg, or place a SELL
    from a position, which is dropped whatever the order's result. *)
Lemma step_shape (s s' : Strategy) (L L' : Ledger) (ltp : option Q)
    (gw : Gateway) (answers : list Attempt) (evs : list Event) :
  process_price_update live s L ltp gw answers = Ok (s', L', evs) ->
  mode s' = mode s
  /\ ((L' = L /\ Forall (eq GetNewInstrument) evs
       /\ (bought s' = false
           \/ (bought s = true /\ bought s' = true
               /\ instrument_key s' = instrument_key s
               /\ entry s' = entry s /\ stop s' = stop s
               /\ (peak s' = peak s
                   \/ exists pk x, peak s = Some pk /\ ltp = Some x
                                   /\ peak s' = Some x /\ pk < x))))
      \/ (exists x ok,
             ltp = Some x /\ in_range x = true /\ bought s = false
             /\ place_order live L gw (instrument_key s) BUY (Some x) (mode s)
                = (ok, L')
             /\ evs = [PlaceOrder (instrument_key s) BUY x ok]
             /\ s' = set_prev_price (Some x)
                       (if ok then open_position x s else s))
      \/ (exists x ok e,
             ltp = Some x /\ in_range x = true /\ bought s = true
             /\ entry s = Some e
             /\ place_order live L gw (instrument_key s) SELL (Some x) (mode s)
                = (ok, L')
             /\ evs = [PlaceOrder (instrument_key s) SELL x ok]
             /\ bought s' = false)).
Proof.
  unfold process_price_update. destruct ltp as [x|].
  2:{ intros H. inversion H. subst. split; [reflexivity|].
      left. split; [reflexivity|]. split; [constructor|].
      destruct (bought s') eqn:Hb; [|left; reflexivity].
      right. repeat (split; [reflexivity|]). left. reflexivity. }
  rewrite PECE1Facts.range_check.
  destruct (in_range x) eqn:Hin; cbn [negb].
  2:{ destruct (ensure_instrument (reset_position s) answers) as [[s1 evs1]| |]
        eqn:E; cbn [bind]; intros H; inversion H; subst.
      destruct (ensure_instrument_keeps _ _ _ _ E) as (Hm & _ & Hb & _).
      split; [cbn [fst]; rewrite Hm; reflexivity|].
      left. split; [reflexivity|].
      split; [exact (PECE1Facts.ensure_instrument_events _ _ _ _ E)|].
      left. cbn [fst]. rewrite Hb. reflexivity. }
  destruct (negb (bought s) && _) eqn:Hbuy.
  - apply andb_true_iff in Hbuy. destruct Hbuy as [Hflat _].
    apply negb_true_iff in Hflat.
    destruct (place_order live L gw (instrument_key s) BUY (Some x) (mode s))
      as [ok L1] eqn:E.
    intros H. inversion H. subst.
    split; [destruct ok; reflexivity|].
    right. left. exists x, ok. repeat split; assumption.
  - destruct (bought s) eqn:Hb.
    2:{ intros H. inversion H. subst. split; [reflexivity|].
        left. split; [reflexivity|]. split; [constructor|].
        left. exact Hb. }
    assert (Hclose : forall s1 e, mode s1 = mode s ->
              instrument_key s1 = instrument_key s -> entry s = Some e ->
              close_position live s1 L gw x = Ok (s', L', evs) ->
              mode s' = mode s
              /\ exists x0 ok e0,
                   Some x = Some x0 /\ in_range x0 = true /\ true = true
                   /\ entry s = Some e0
                   /\ place_order live L gw (instrument_key s) SELL (Some x0)
                        (mode s) = (ok, L')
                   /\ evs = [PlaceOrder (instrument_key s) SELL x0 ok]
                   /\ bought s' = false).
    { intros s1 e Hm Hk He. unfold close_position. rewrite Hm, Hk.
      destruct (place_order live L gw (instrument_key s) SELL (Some x) (mode s))
        as [ok L1] eqn:E.
      intros H. inversion H. subst. split; [exact Hm|].
      exists x, ok, e. repeat split; assumption. }
    destruct (peak s) as [pk|] eqn:Hp; cbn [number bind]; [|discriminate].
    destruct (Py.ltb pk x) eqn:Hlt; cbn [peak entry stop set_peak number bind].
    + destruct (entry s) as [e|] eqn:He; cbn [number bind]; [|discriminate].
      destruct (Py.leb x (x - trail_exit e x)).
      { intros H. destruct (Hclose _ e eq_refl eq_refl eq_refl H) as [Hm Hs].
        split; [exact Hm|]. right. right. exact Hs. }
      destruct (stop s) as [st|] eqn:Hs; cbn [number bind]; [|discriminate].
      destruct (Py.leb x st).
      { intros H. destruct (Hclose _ e eq_refl eq_refl eq_refl H) as [Hm Hs'].
        split; [exact Hm|]. right. right. exact Hs'. }
      intros H. inversion H. subst. split; [reflexivity|].
      left. split; [reflexivity|]. split; [constructor|].
      right. cbn. rewrite Hb, He, Hs. repeat (split; [reflexivity|]).
      right. exists pk, x. repeat split.
      apply PyFacts.ltb_lt. exact Hlt.
    + rewrite Hp. cbn [number bind].
      destruct (entry s) as [e|] eqn:He; cbn [number bind]; [|discriminate].
      destruct (Py.leb x (pk - trail_exit e x)).
      { intros H. destruct (Hclose _ e eq_refl eq_refl eq_refl H) as [Hm Hs].
        split; [exact Hm|]. right. right. exact Hs. }
      destruct (stop s) as [st|] eqn:Hs; cbn [number bind]; [|discriminate].
      destruct (Py.leb x st).
      { intros H. destruct (Hclose _ e eq_refl eq_refl eq_refl H) as [Hm Hs'].
        split; [exact Hm|]. right. right. exact Hs'. }
      intros H. inversion H. subst. split; [reflexivity|].
      left. split; [reflexivity|]. split; [constructor|].
      right. cbn. rewrite Hb, He, Hs, Hp. repeat (split; [reflexivity|]).
      left. reflexivity.
Qed.

(** A tick places at most one order, at the tick's price and on the
    strategy's instrument, and the ledger changes through that order only. *)
Lemma step_effect (s s' : Strategy) (L L' : Ledger) (ltp : option Q)
    (gw : Gateway) (answers : list Attempt) (evs : list Event) :
  process_price_update live s L ltp gw answers = Ok (s', L', evs) ->
  mode s' = mode s
  /\ ((L' = L /\ Forall (eq GetNewInstrument) evs)
      \/ exists side x,
           ltp = Some x /\ in_range x = true
           /\ evs = [PlaceOrder (instrument_key s) side x
                       (fst (place_order live L gw (instrument_key s) side
                               (Some x) (mode s)))]
           /\ L' = snd (place_order live L gw (instrument_key s) side
                          (Some x) (mode s))).
Proof.
  intros H. apply step_shape in H.
  destruct H as [Hm [(HL & Hevs & _)
                    | [(x & ok & Hx & Hin & _ & E & Hev & _)
                      | (x & ok & e & Hx & Hin & _ & _ & E & Hev & _)]]];
    (split; [exact Hm|]).
  - left. split; assumption.
  - right. exists BUY, x. rewrite E. repeat split; assumption.
  - right. exists SELL, x. rewrite E. repeat split; assumption.
Qed.

End Step.

End PECE1StepFacts.

(** ** The log of a leg *)

Module PECE1LogFacts.
Import PECE1 PECE1Inv PECE1Log.

Lemma in_range_positive (x : Q) : in_range x = true -> 0 < x.
Proof.
  unfold in_range. intros H. apply andb_true_iff in H. destruct H as [H _].
  apply PyFacts.leb_le in H.
  apply Qlt_le_trans with (y := LTP_LOWER_BOUND); [reflexivity|exact H].
Qed.

(** What a call of [place_order] does to the two logs: nothing when it
    fails, one record at the end of the leg's log when it succeeds, and
    nothing to the other leg in either case. *)
Lemma place_order_log (is_live : bool) (L : Ledger) (gw : Gateway) (key : Key)
    (side : Side) (price : option Q) (leg : Leg) :
  let r := place_order is_live L gw key side price leg in
  trades_of (other leg) (snd r) = trades_of (other leg) L
  /\ day_pnl_of (other leg) (snd r) = day_pnl_of (other leg) L
  /\ capital_used_of (other leg) (snd r) = capital_used_of (other leg) L
  /\ (fst r = false -> snd r = L)
  /\ (fst r = true ->
      exists t current_price,
        trades_of leg (snd r) = trades_of leg L ++ [t]
        /\ Py.or_else price (rest_ltp gw) = Some current_price
        /\ order_of t = (key, side, Py.round2 current_price)).
Proof.
  unfold place_order.
  destruct (Py.or_else price (rest_ltp gw)) as [current_price|];
    [|cbn [fst snd]; repeat split; discriminate].
  assert (Happend : forall t L1,
            order_of t = (key, side, Py.round2 current_price) ->
            trades_of (other leg) L1 = trades_of (other leg) L ->
            day_pnl_of (other leg) L1 = day_pnl_of (other leg) L ->
            capital_used_of (other leg) L1 = capital_used_of (other leg) L ->
            let r := (true, set_trades leg (trades_of leg L ++ [t]) L1) in
            trades_of (other leg) (snd r) = trades_of (other leg) L
            /\ day_pnl_of (other leg) (snd r) = day_pnl_of (other leg) L
            /\ capital_used_of (other leg) (snd r)
               = capital_used_of (other leg) L
            /\ (fst r = false -> snd r = L)
            /\ (fst r = true ->
                exists t0 cp,
                  trades_of leg (snd r) = trades_of leg L ++ [t0]
                  /\ Some current_price = Some cp
                  /\ order_of t0 = (key, side, Py.round2 cp))).
  { intros t L1 Ht H1 H2 H3. cbn [fst snd].
    split; [destruct leg; exact H1|].
    split; [destruct leg; exact H2|].
    split; [destruct leg; exact H3|].
    split; [discriminate|].
    intros _. exists t, current_price.
    split; [destruct leg; reflexivity|]. split; [reflexivity|exact Ht]. }
  destruct is_live; cbn [negb].
  - destruct (post_ok gw).
    + apply Happend; reflexivity.
    + cbn [fst snd]. repeat split; discriminate.
  - destruct side.
    + apply Happend; reflexivity.
    + destruct (last_buy _ key) as [buy|].
      * apply Happend; [reflexivity|destruct leg; reflexivity..].
      * apply Happend; reflexivity.
Qed.

Section Step.

Variable live : bool.

(** The records a tick adds to the leg's log are its orders that went
    through; the other leg's log and accumulators are not touched. *)
Lemma step_log (s s' : Strategy) (L L' : Ledger) (ltp : option Q)
    (gw : Gateway) (answers : list Attempt) (evs : list Event) :
  process_price_update live s L ltp gw answers = Ok (s', L', evs) ->
  mode s' = mode s
  /\ trades_of (other (mode s)) L' = trades_of (other (mode s)) L
  /\ day_pnl_of (other (mode s)) L' = day_pnl_of (other (mode s)) L
  /\ capital_used_of (other (mode s)) L' = capital_used_of (other (mode s)) L
  /\ exists new,
       trades_of (mode s) L' = trades_of (mode s) L ++ new
       /\ map order_of new = recorded_orders evs.
Proof.
  intros H. apply PECE1StepFacts.step_effect in H.
  destruct H as [Hm [[-> Hevs] | (side & x & -> & Hin & -> & ->)]].
  - split; [exact Hm|]. repeat (split; [reflexivity|]).
    exists []. rewrite app_nil_r. split; [reflexivity|].
    induction Hevs as [|ev evs <- _ IH]; [reflexivity|exact IH].
  - split; [exact Hm|].
    pose proof (place_order_log live L gw (instrument_key s) side (Some x)
                  (mode s)) as Hlog.
    cbv zeta in Hlog. destruct Hlog as (H1 & H2 & H3 & Hfail & Hok).
    split; [exact H1|]. split; [exact H2|]. split; [exact H3|].
    destruct (fst (place_order live L gw (instrument_key s) side (Some x)
                     (mode s))) eqn:E.
    + destruct (Hok eq_refl) as (t & cp & Ht & Hcp & Hord).
      rewrite (or_else_passed x _ (in_range_positive x Hin)) in Hcp.
      injection Hcp as <-.
      exists [t]. split; [exact Ht|]. cbn. rewrite Hord. reflexivity.
    + rewrite (Hfail eq_refl). exists []. rewrite app_nil_r.
      split; reflexivity.
Qed.

Lemma recorded_orders_app (evs1 evs2 : list Event) :
  recorded_orders (evs1 ++ evs2) = recorded_orders evs1 ++ recorded_orders evs2.
Proof. unfold recorded_orders. apply flat_map_app. Qed.

Lemma feed_log (ticks : list Tick) :
  forall (s s' : Strategy) (L L' : Ledger) (evs : list Event),
    feed live ticks s L = Ok (s', L', evs) ->
    mode s' = mode s
    /\ trades_of (other (mode s)) L' = trades_of (other (mode s)) L
    /\ day_pnl_of (other (mode s)) L' = day_pnl_of (other (mode s)) L
    /\ capital_used_of (other (mode s)) L' = capital_used_of (other (mode s)) L
    /\ exists new,
         trades_of (mode s) L' = trades_of (mode s) L ++ new
         /\ map order_of new = recorded_orders evs.
Proof.
  induction ticks as [|t rest IH]; intros s s' L L' evs H.
  - inversion H. subst. repeat (split; [reflexivity|]).
    exists []. rewrite app_nil_r. split; reflexivity.
  - cbn [feed] in H.
    destruct (process_price_update live s L (ltp t) (gateway t) (answers t))
      as [[[s1 L1] evs1]| |] eqn:E1; cbn [bind] in H; try discriminate.
    destruct (feed live rest s1 L1) as [[[s2 L2] evs2]| |] eqn:E2;
      cbn [bind] in H; try discriminate.
    inversion H. subst.
    destruct (step_log _ _ _ _ _ _ _ _ E1)
      as (Hm1 & Ha1 & Hb1 & Hc1 & new1 & Hn1 & Ho1).
    destruct (IH _ _ _ _ _ E2) as (Hm2 & Ha2 & Hb2 & Hc2 & new2 & Hn2 & Ho2).
    rewrite Hm1 in *.
    split; [exact Hm2|].
    split; [rewrite Ha2; exact Ha1|].
    split; [rewrite Hb2; exact Hb1|].
    split; [rewrite Hc2; exact Hc1|].
    exists (new1 ++ new2). rewrite Hn2, Hn1, app_assoc.
    split; [reflexivity|].
    rewrite map_app, recorded_orders_app, Ho1, Ho2. reflexivity.
Qed.

End Step.

End PECE1LogFacts.

(** ** Invariants of a run of ticks *)

Module PECE1RunFacts.
Import PECE1 PECE1Inv PECE1Log PECE1Books.

Lemma Key_eqb_refl (k : Key) : Key_eqb k k = true.
Proof. destruct k as [k|]; [apply String.eqb_refl|reflexivity]. Qed.

(** A property of strategy and ledger kept by every tick is kept by a run. *)
Lemma feed_invariant (is_live : bool) (I : Strategy -> Ledger -> Prop) :
  (forall s s' L L' ltp gw answers evs,
      I s L ->
      process_price_update is_live s L ltp gw answers = Ok (s', L', evs) ->
      I s' L') ->
  forall ticks s s' L L' evs,
    I s L -> feed is_live ticks s L = Ok (s', L', evs) -> I s' L'.
Proof.
  intros Hstep. induction ticks as [|t rest IH]; intros s s' L L' evs HI H.
  - inversion H. subst. exact HI.
  - cbn [feed] in H.
    destruct (process_price_update is_live s L (ltp t) (gateway t) (answers t))
      as [[[s1 L1] evs1]| |] eqn:E1; cbn [bind] in H; try discriminate.
    destruct (feed is_live rest s1 L1) as [[[s2 L2] evs2]| |] eqn:E2;
      cbn [bind] in H; try discriminate.
    inversion H. subst.
    exact (IH _ _ _ _ _ (Hstep _ _ _ _ _ _ _ _ HI E1) E2).
Qed.

Lemma step_balanced (is_live : bool) (s s' : Strategy) (L L' : Ledger)
    (ltp : option Q) (gw : Gateway) (answers : list Attempt) (evs : list Event) :
  balanced L ->
  process_price_update is_live s L ltp gw answers = Ok (s', L', evs) ->
  balanced L'.
Proof.
  intros HL H. apply PECE1StepFacts.step_effect in H.
  destruct H as [_ [[-> _] | (side & x & _ & _ & _ & ->)]]; [exact HL|].
  apply PECE1BooksFacts.place_order_balanced. exact HL.
Qed.

Lemma step_booked (is_live : bool) (s s' : Strategy) (L L' : Ledger)
    (ltp : option Q) (gw : Gateway) (answers : list Attempt) (evs : list Event) :
  process_price_update is_live s L ltp gw answers = Ok (s', L', evs) ->
  mode s' = mode s /\ booked (mode s) L L'.
Proof.
  intros H. apply PECE1StepFacts.step_effect in H.
  destruct H as [Hm [[-> _] | (side & x & _ & _ & _ & ->)]];
    (split; [exact Hm|]).
  - apply PECE1BooksFacts.booked_refl.
  - apply PECE1BooksFacts.place_order_booked.
Qed.

Lemma feed_booked (is_live : bool) (ticks : list Tick) (s s' : Strategy)
    (L L' : Ledger) (evs : list Event) :
  feed is_live ticks s L = Ok (s', L', evs) ->
  mode s' = mode s /\ booked (mode s) L L'.
Proof.
  intros H.
  refine (feed_invariant is_live
            (fun s1 L1 => mode s1 = mode s /\ booked (mode s) L L1) _
            ticks s s' L L' evs _ H).
  - intros s0 s1 L0 L1 ltp gw answers evs0 [Hm Hb] E.
    destruct (step_booked is_live _ _ _ _ _ _ _ _ E) as [Hm1 Hb1].
    split; [rewrite Hm1; exact Hm|].
    rewrite Hm in Hb1.
    exact (PECE1BooksFacts.booked_trans _ _ _ _ Hb Hb1).
  - split; [reflexivity|apply PECE1BooksFacts.booked_refl].
Qed.

Lemma paired_buy (t : Trade) (trades : list Trade) :
  forall prev,
    paired prev trades -> action t = BUY -> gross_profit t = None ->
    paired prev (trades ++ [t]).
Proof.
  induction trades as [|a trades IH]; intros prev Hp Ht Hg.
  - cbn. rewrite Ht. split; [exact Hg|exact I].
  - cbn in *. destruct Hp as [Ha Hp]. split; [exact Ha|].
    apply IH; assumption.
Qed.

Lemma paired_sell (b t : Trade) (earlier : list Trade) :
  forall prev,
    paired prev (earlier ++ [b]) ->
    action b = BUY -> trade_key b = trade_key t -> action t = SELL ->
    gross_profit t = Some (Py.round2 ((price t - price b) * inject_Z LOT_SIZE)) ->
    paired prev ((earlier ++ [b]) ++ [t]).
Proof.
  induction earlier as [|a earlier IH]; intros prev Hp Hb Hk Ht Hg.
  - cbn in *. destruct Hp as [Hb' _]. split; [exact Hb'|].
    rewrite Ht. split; [|exact I].
    exists b. repeat split; assumption.
  - cbn in *. destruct Hp as [Ha Hp]. split; [exact Ha|].
    apply IH; assumption.
Qed.

(** In paper mode an order at a price that is not [0] goes through and adds
    the record that the code builds: for a BUY one without profit fields,
    for a SELL placed when the log ends with a BUY of the instrument one
    whose gross profit comes from the two recorded prices. *)
Lemma positive_truthy (x : Q) : 0 < x -> Py.truthy (Some x) = true.
Proof.
  intros Hx. apply PyFacts.truthy_some. intros E. rewrite E in Hx.
  apply (Qlt_irrefl 0 Hx).
Qed.

Lemma truthy_passed (x : Q) (alt : option Q) :
  Py.truthy (Some x) = true -> Py.or_else (Some x) alt = Some x.
Proof. intros H. unfold Py.or_else. rewrite H. reflexivity. Qed.

Lemma paper_buy (L : Ledger) (gw : Gateway) (key : Key) (x : Q) (leg : Leg) :
  Py.truthy (Some x) = true ->
  place_order false L gw key BUY (Some x) leg
  = (true,
     set_trades leg
       (trades_of leg L
        ++ [mkTrade key leg BUY LOT_SIZE (Py.round2 x) false None None None None])
       L).
Proof.
  intros Hx. unfold place_order. rewrite (truthy_passed x _ Hx). reflexivity.
Qed.

Lemma paper_sell (L : Ledger) (gw : Gateway) (key : Key) (x : Q) (leg : Leg)
    (earlier : list Trade) (b : Trade) :
  Py.truthy (Some x) = true -> trades_of leg L = earlier ++ [b] ->
  action b = BUY -> trade_key b = key ->
  exists t L',
    place_order false L gw key SELL (Some x) leg = (true, L')
    /\ trades_of leg L' = trades_of leg L ++ [t]
    /\ action t = SELL /\ trade_key t = key /\ price t = Py.round2 x
    /\ gross_profit t
       = Some (Py.round2 ((Py.round2 x - price b) * inject_Z LOT_SIZE)).
Proof.
  intros Hx Hlog Hb Hk. unfold place_order.
  rewrite (truthy_passed x _ Hx). cbn [negb].
  rewrite last_buy_skips_sell by reflexivity.
  assert (Hlast : last_buy (trades_of leg L) key = Some b).
  { rewrite Hlog.
    change (earlier ++ [b]) with (earlier ++ b :: []).
    apply last_buy_found; [|reflexivity].
    unfold is_buy_of. unfold trade_key in Hk. rewrite Hk, Hb, Key_eqb_refl.
    reflexivity. }
  rewrite Hlast.
  eexists. eexists. split; [reflexivity|].
  split; [destruct leg; reflexivity|].
  repeat split.
Qed.

(** In paper mode a tick keeps the log paired and the position tied to the
    last record of the log. *)
Lemma step_paired (s s' : Strategy) (L L' : Ledger) (ltp : option Q)
    (gw : Gateway) (answers : list Attempt) (evs : list Event) :
  paired None (trades_of (mode s) L) /\ opened_by s L ->
  process_price_update false s L ltp gw answers = Ok (s', L', evs) ->
  paired None (trades_of (mode s') L') /\ opened_by s' L'.
Proof.
  intros [Hp Ho] H. apply PECE1StepFacts.step_shape in H.
  destruct H as [Hm [(-> & _ & Hkeep)
                    | [(x & ok & _ & Hin & Hflat & E & _ & ->)
                      | (x & ok & e & _ & Hin & Hb & He & E & _ & Hb')]]].
  - rewrite Hm. split; [exact Hp|].
    destruct Hkeep as [Hb' | (Hb & Hb' & Hk & He & _)].
    + intros Hb. rewrite Hb' in Hb. discriminate.
    + intros _. destruct (Ho Hb) as (e & earlier & b & He0 & Hlog & Hact & Hkey & Hpr).
      exists e, earlier, b. rewrite He, Hk, Hm.
      repeat split; assumption.
  - rewrite (paper_buy L gw _ x _
               (positive_truthy x (PECE1LogFacts.in_range_positive x Hin))) in E.
    injection E as <- <-. unfold opened_by.
    cbn [mode instrument_key entry bought set_prev_price open_position].
    split.
    + replace (trades_of (mode s) (set_trades (mode s) _ L))
        with (trades_of (mode s) L
              ++ [mkTrade (instrument_key s) (mode s) BUY LOT_SIZE (Py.round2 x)
                    false None None None None])
        by (destruct (mode s); reflexivity).
      apply paired_buy; [exact Hp|reflexivity|reflexivity].
    + intros _.
      exists x, (trades_of (mode s) L),
        (mkTrade (instrument_key s) (mode s) BUY LOT_SIZE (Py.round2 x) false
           None None None None).
      split; [reflexivity|].
      split; [destruct (mode s); reflexivity|].
      repeat split.
  - destruct (Ho Hb) as (e0 & earlier & b & He0 & Hlog & Hact & Hkey & Hpr).
    destruct (paper_sell L gw (instrument_key s) x (mode s) earlier b
                (positive_truthy x (PECE1LogFacts.in_range_positive x Hin))
                Hlog Hact Hkey)
      as (t & L1 & E1 & Hlog1 & Ht & Htk & Htp & Hg).
    rewrite E1 in E. injection E as <- <-.
    rewrite Hm. split.
    + rewrite Hlog1, Hlog. rewrite Hlog in Hp.
      apply paired_sell; try assumption.
      * rewrite Htk. exact Hkey.
      * rewrite Htp. exact Hg.
    + intros Hb2. rewrite Hb' in Hb2. discriminate.
Qed.

(** A tick keeps the stop of a position [STOP_LOSS_OFFSET] under its entry
    and its peak at or above the entry. *)
Lemma step_coherent (is_live : bool) (s s' : Strategy) (L L' : Ledger)
    (ltp : option Q) (gw : Gateway) (answers : list Attempt) (evs : list Event) :
  coherent s ->
  process_price_update is_live s L ltp gw answers = Ok (s', L', evs) ->
  coherent s'.
Proof.
  intros Hc H. apply PECE1StepFacts.step_shape in H.
  destruct H as [Hm [(_ & _ & Hkeep)
                    | [(x & ok & _ & _ & Hflat & _ & _ & ->)
                      | (x & ok & e & _ & _ & _ & _ & _ & _ & Hb')]]].
  - destruct Hkeep as [Hb' | (Hb & Hb' & _ & He & Hs & Hpk)].
    + intros Hb. rewrite Hb' in Hb. discriminate.
    + intros _. destruct (Hc Hb) as (e & pk & He0 & Hs0 & Hp0 & Hle).
      destruct Hpk as [Hsame | (pk0 & x & Hp1 & _ & Hp2 & Hlt)].
      * exists e, pk. rewrite He, Hs, Hsame. repeat split; assumption.
      * exists e, x. rewrite He, Hs, Hp2. repeat split; try assumption.
        rewrite Hp0 in Hp1. injection Hp1 as <-.
        apply Qle_trans with (y := pk); [exact Hle|apply Qlt_le_weak; exact Hlt].
  - destruct ok; cbn.
    + intros _. exists x, x. repeat split. apply Qle_refl.
    + intros Hb. cbn in Hb. rewrite Hflat in Hb. discriminate.
  - intros Hb. rewrite Hb' in Hb. discriminate.
Qed.

(** With the stop [STOP_LOSS_OFFSET] under the entry and the peak not under
    it, the stop-loss test adds nothing to the trailing test. *)
Lemma exit_signal_trailing (e pk x : Q) :
  e <= pk ->
  exit_signal e (e - STOP_LOSS_OFFSET) pk x
  = Py.leb x (peak_after pk x - trail_exit e x).
Proof.
  intros Hle. unfold exit_signal.
  destruct (Py.leb x (peak_after pk x - trail_exit e x)) eqn:Htrail;
    [reflexivity|].
  cbn [orb]. apply PyFacts.leb_gt in Htrail.
  apply PyFacts.leb_gt.
  apply Qle_lt_trans with (y := peak_after pk x - trail_exit e x);
    [|exact Htrail].
  assert (Hpk : pk <= peak_after pk x).
  { unfold peak_after. destruct (Py.ltb pk x) eqn:E.
    - apply Qlt_le_weak. apply PyFacts.ltb_lt. exact E.
    - apply Qle_refl. }
  assert (Hd : trail_exit e x <= STOP_LOSS_OFFSET).
  { unfold trail_exit. destruct (Py.leb x (e + TRAIL_THRESHOLD)); discriminate. }
  lra.
Qed.

(** A tick above the peak does not meet the trailing test. *)
Lemma new_high_holds (e pk x : Q) :
  pk < x -> Py.leb x (peak_after pk x - trail_exit e x) = false.
Proof.
  intros Hlt. apply PyFacts.leb_gt. unfold peak_after.
  replace (Py.ltb pk x) with true by (symmetry; apply PyFacts.ltb_lt; exact Hlt).
  assert (Hd : 0 < trail_exit e x).
  { unfold trail_exit. destruct (Py.leb x (e + TRAIL_THRESHOLD)); reflexivity. }
  lra.
Qed.

End PECE1RunFacts.


(** *** X1: the accumulators and the logs *)

(** X1: the module starts with its accumulators in agreement with its
    logs: each leg's day P&L is what adding the net profits recorded in the
    leg's log, one after the other from 0.0, gives, it is the day_pnl
    written into the last record of the log that has one, and every record
    with profit fields has net = round(gross - charges total, 2).  Every
    call of [place_order], in paper or live mode, failed or not, and so
    every run of ticks, keeps them so.  Over a run of ticks of one leg the
    leg's day P&L and the balance move by the net profits of the records the
    run adds to the leg's log, added one after the other. *)
Theorem books_stay_balanced :
  PECE1Books.balanced PECE1.empty_ledger
  /\ (forall (is_live : bool) (L : PECE1.Ledger) (gw : Gateway) (key : Key)
             (side : Side) (price : option Q) (leg : Leg),
         PECE1Books.balanced L ->
         PECE1Books.balanced
           (snd (PECE1.place_order is_live L gw key side price leg)))
  /\ (forall (is_live : bool) (ticks : list PECE1.Tick)
             (s s' : PECE1.Strategy) (L L' : PECE1.Ledger) (evs : list Event),
         PECE1Books.balanced L ->
         PECE1.feed is_live ticks s L = Ok (s', L', evs) ->
         PECE1Books.balanced L')
  /\ (forall (is_live : bool) (ticks : list PECE1.Tick)
             (s s' : PECE1.Strategy) (L L' : PECE1.Ledger) (evs : list Event),
         PECE1.feed is_live ticks s L = Ok (s', L', evs) ->
         PECE1Books.booked (PECE1.mode s) L L').
Proof.
  split; [|split; [|split]].
  - unfold PECE1Books.balanced. cbn.
    repeat (split; [reflexivity|]). split; constructor.
  - intros is_live L gw key side price leg.
    apply PECE1BooksFacts.place_order_balanced.
  - intros is_live ticks s s' L L' evs HL H.
    refine (PECE1RunFacts.feed_invariant is_live
              (fun _ L0 => PECE1Books.balanced L0) _ ticks s s' L L' evs HL H).
    intros s0 s1 L0 L1 ltp gw answers evs0.
    apply PECE1RunFacts.step_balanced.
  - intros is_live ticks s s' L L' evs H.
    exact (proj2 (PECE1RunFacts.feed_booked is_live ticks s s' L L' evs H)).
Qed.

Lemma books_stay_balanced_witness :
  exists s' L' evs,
    PECE1.feed false buy_hold_sell flat_leg PECE1.empty_ledger = Ok (s', L', evs)
    /\ PECE1Books.balanced L'
    /\ PECE1Books.booked PE PECE1.empty_ledger L'.
Proof.
  assert (H0 : PECE1Books.balanced PECE1.empty_ledger).
  { unfold PECE1Books.balanced. cbn.
    repeat (split; [reflexivity|]). split; constructor. }
  destruct (PECE1.feed false buy_hold_sell flat_leg PECE1.empty_ledger)
    as [[[s' L'] evs]| |] eqn:E; [|vm_compute in E; discriminate E..].
  exists s', L', evs. split; [reflexivity|]. split.
  - exact (proj1 (proj2 (proj2 books_stay_balanced)) false buy_hold_sell
             flat_leg s' PECE1.empty_ledger L' evs H0 E).
  - exact (proj2 (proj2 (proj2 books_stay_balanced)) false buy_hold_sell
             flat_leg s' PECE1.empty_ledger L' evs E).
Defined.

(** *** X2: the summary *)

(** X2: after any run of ticks on accumulators that agreed with the logs,
    [get_full_summary] reports each leg's log as it is, and for each leg a
    day P&L that is what adding the net profits recorded in that log, one
    after the other from 0.0, gives, and that is the day_pnl written into
    the last record of that log that has one (0.0 when none has); the overall
    day P&L it reports is the sum of the two, its charges are the sum of the
    charges totals recorded in both logs, rounded to two decimals, and its
    balance is the balance rounded to two decimals. *)
Theorem summary_reports_the_logs (is_live : bool) (ticks : list PECE1.Tick)
    (s s' : PECE1.Strategy) (L L' : PECE1.Ledger) (evs : list Event) :
  PECE1Books.balanced L ->
  PECE1.feed is_live ticks s L = Ok (s', L', evs) ->
  let S := PECE1Books.get_full_summary L' in
  let o := PECE1Books.overall S in
  PECE1Books.leg_trades (PECE1Books.ce S) = PECE1.ce_trades L'
  /\ PECE1Books.leg_trades (PECE1Books.pe S) = PECE1.pe_trades L'
  /\ PECE1Books.leg_day_pnl (PECE1Books.ce S)
     == PECE1Books.running 0 (PECE1Books.nets (PECE1.ce_trades L'))
  /\ PECE1Books.leg_day_pnl (PECE1Books.pe S)
     == PECE1Books.running 0 (PECE1Books.nets (PECE1.pe_trades L'))
  /\ PECE1Books.leg_day_pnl (PECE1Books.ce S)
     == PECE1Books.last_day_pnl (PECE1.ce_trades L')
  /\ PECE1Books.leg_day_pnl (PECE1Books.pe S)
     == PECE1Books.last_day_pnl (PECE1.pe_trades L')
  /\ PECE1Books.overall_day_pnl o
     == PECE1Books.last_day_pnl (PECE1.ce_trades L')
        + PECE1Books.last_day_pnl (PECE1.pe_trades L')
  /\ PECE1Books.overall_charges o
     = Py.round2
         (PECE1Books.sum
            (map PECE1Books.charges_total
               (PECE1.ce_trades L' ++ PECE1.pe_trades L')))
  /\ PECE1Books.overall_balance o = Py.round2 (PECE1.current_balance L').
Proof.
  intros HL H S o.
  assert (HL' : PECE1Books.balanced L').
  { refine (PECE1RunFacts.feed_invariant is_live
              (fun _ L0 => PECE1Books.balanced L0) _ ticks s s' L L' evs HL H).
    intros s0 s1 L0 L1 ltp gw answers evs0.
    apply PECE1RunFacts.step_balanced. }
  destruct HL' as (Hce & Hpe & Hlce & Hlpe & _ & _).
  unfold o, S.
  cbn [PECE1Books.get_full_summary PECE1Books.ce PECE1Books.pe
       PECE1Books.overall PECE1Books.leg_trades PECE1Books.leg_day_pnl
       PECE1Books.overall_day_pnl PECE1Books.overall_charges
       PECE1Books.overall_balance].
  split; [reflexivity|]. split; [reflexivity|].
  split; [exact Hce|]. split; [exact Hpe|].
  split; [exact Hlce|]. split; [exact Hlpe|].
  split; [rewrite Hlce, Hlpe; reflexivity|].
  split; reflexivity.
Qed.

Lemma summary_reports_the_logs_witness :
  exists s' L' evs,
    PECE1.feed false buy_hold_sell flat_leg PECE1.empty_ledger = Ok (s', L', evs)
    /\ PECE1Books.leg_day_pnl (PECE1Books.pe (PECE1Books.get_full_summary L'))
       == PECE1Books.last_day_pnl (PECE1.pe_trades L')
    /\ PECE1Books.overall_day_pnl
         (PECE1Books.overall (PECE1Books.get_full_summary L'))
       == PECE1Books.last_day_pnl (PECE1.ce_trades L')
          + PECE1Books.last_day_pnl (PECE1.pe_trades L').
Proof.
  assert (H0 : PECE1Books.balanced PECE1.empty_ledger).
  { unfold PECE1Books.balanced. cbn.
    repeat (split; [reflexivity|]). split; constructor. }
  destruct (PECE1.feed false buy_hold_sell flat_leg PECE1.empty_ledger)
    as [[[s' L'] evs]| |] eqn:E; [|vm_compute in E; discriminate E..].
  exists s', L', evs. split; [reflexivity|].
  destruct (summary_reports_the_logs false buy_hold_sell flat_leg s'
              PECE1.empty_ledger L' evs H0 E)
    as (_ & _ & _ & _ & _ & Hpe & Hall & _).
  split; [exact Hpe|exact Hall].
Defined.

(** *** X3: the log and the orders *)

(** X3: over any run of ticks of one leg, in paper or live mode, the
    records added to the leg's log are exactly the orders of the trace that
    went through, in order, each with the strategy's instrument, the side
    and the tick's price rounded to two decimals; earlier records are left
    as they were, and the other leg's log, day P&L and capital used are not
    touched. *)
Theorem log_records_the_orders (is_live : bool) (ticks : list PECE1.Tick)
    (s s' : PECE1.Strategy) (L L' : PECE1.Ledger) (evs : list Event) :
  PECE1.feed is_live ticks s L = Ok (s', L', evs) ->
  PECE1.mode s' = PECE1.mode s
  /\ PECE1.trades_of (PECE1Log.other (PECE1.mode s)) L'
     = PECE1.trades_of (PECE1Log.other (PECE1.mode s)) L
  /\ PECE1.day_pnl_of (PECE1Log.other (PECE1.mode s)) L'
     = PECE1.day_pnl_of (PECE1Log.other (PECE1.mode s)) L
  /\ PECE1.capital_used_of (PECE1Log.other (PECE1.mode s)) L'
     = PECE1.capital_used_of (PECE1Log.other (PECE1.mode s)) L
  /\ exists new,
       PECE1.trades_of (PECE1.mode s) L' = PECE1.trades_of (PECE1.mode s) L ++ new
       /\ map PECE1Log.order_of new = PECE1Log.recorded_orders evs.
Proof.
  apply PECE1LogFacts.feed_log.
Qed.

Lemma log_records_the_orders_witness :
  exists s' L' new,
    PECE1.feed false buy_hold_sell flat_leg PECE1.empty_ledger
    = Ok (s', L',
          [PlaceOrder demo_key BUY 155 true; PlaceOrder demo_key SELL 154 true])
    /\ PECE1.trades_of PE L' = PECE1.trades_of PE PECE1.empty_ledger ++ new
    /\ map PECE1Log.order_of new
       = [(demo_key, BUY, Py.round2 155); (demo_key, SELL, Py.round2 154)].
Proof.
  destruct (PECE1.feed false buy_hold_sell flat_leg PECE1.empty_ledger)
    as [[[s' L'] evs]| |] eqn:E; [|vm_compute in E; discriminate E..].
  assert (Hevs : evs = [PlaceOrder demo_key BUY 155 true;
                        PlaceOrder demo_key SELL 154 true]).
  { vm_compute in E. injection E as _ _ <-. reflexivity. }
  destruct (log_records_the_orders false buy_hold_sell flat_leg s'
              PECE1.empty_ledger L' evs E) as (_ & _ & _ & _ & new & Hn & Ho).
  exists s', L', new. rewrite Hevs in *.
  split; [reflexivity|]. split; [exact Hn|exact Ho].
Defined.

(** *** X4: a SELL and its BUY *)

(** X4: in paper mode, over any run of ticks that starts with the position
    held, if any, opened by the last record of the leg's log, every SELL the
    strategy records stands right after a BUY of the same instrument and
    carries the gross profit (exit - entry) * LOT_SIZE of the two recorded
    prices, rounded to two decimals; no SELL of the strategy is left without
    profit fields, and the position held at the end is again the one opened
    by the last record. *)
Theorem sells_follow_their_buy (ticks : list PECE1.Tick)
    (s s' : PECE1.Strategy) (L L' : PECE1.Ledger) (evs : list Event) :
  PECE1Log.paired None (PECE1.trades_of (PECE1.mode s) L) ->
  PECE1Log.opened_by s L ->
  PECE1.feed false ticks s L = Ok (s', L', evs) ->
  PECE1Log.paired None (PECE1.trades_of (PECE1.mode s') L')
  /\ PECE1Log.opened_by s' L'.
Proof.
  intros Hp Ho H.
  refine (PECE1RunFacts.feed_invariant false
            (fun s0 L0 =>
               PECE1Log.paired None (PECE1.trades_of (PECE1.mode s0) L0)
               /\ PECE1Log.opened_by s0 L0)
            _ ticks s s' L L' evs (conj Hp Ho) H).
  intros s0 s1 L0 L1 ltp gw answers evs0.
  apply PECE1RunFacts.step_paired.
Qed.

Lemma sells_follow_their_buy_witness :
  exists s' L' evs,
    PECE1.feed false buy_hold_sell flat_leg PECE1.empty_ledger = Ok (s', L', evs)
    /\ PECE1Log.paired None (PECE1.trades_of (PECE1.mode s') L')
    /\ PECE1Log.opened_by s' L'.
Proof.
  assert (Hp : PECE1Log.paired None
                 (PECE1.trades_of (PECE1.mode flat_leg) PECE1.empty_ledger))
    by exact I.
  assert (Ho : PECE1Log.opened_by flat_leg PECE1.empty_ledger)
    by (intros Hb; discriminate Hb).
  destruct (PECE1.feed false buy_hold_sell flat_leg PECE1.empty_ledger)
    as [[[s' L'] evs]| |] eqn:E; [|vm_compute in E; discriminate E..].
  exists s', L', evs. split; [reflexivity|].
  exact (sells_follow_their_buy buy_hold_sell flat_leg s' PECE1.empty_ledger
           L' evs Hp Ho E).
Defined.

(** *** X5: the stop-loss and the trailing stop *)

(** X5: a position opened by [process_price_update] keeps its stop at
    entry - STOP_LOSS_OFFSET and its peak at or above the entry through every
    tick; on such a position an in-range tick places a SELL exactly when
    [ltp <= peak - trail_exit] (the peak already raised to the tick): the
    stop-loss test [ltp <= stop] never decides on its own, and a tick above
    the peak never closes the position. *)
Theorem trailing_stop_decides (is_live : bool) (s : PECE1.Strategy)
    (L : PECE1.Ledger) (x : Q) (gw : Gateway) (answers : list Attempt)
    (e pk : Q) :
  PECE1Log.coherent s -> PECE1.bought s = true ->
  PECE1.entry s = Some e -> PECE1.peak s = Some pk ->
  PECE1.in_range x = true ->
  (exists s' L',
      PECE1.process_price_update is_live s L (Some x) gw answers
      = Ok (s', L',
            if Py.leb x (PECE1Inv.peak_after pk x - PECE1.trail_exit e x)
            then [PlaceOrder (PECE1.instrument_key s) SELL x
                    (fst (PECE1.place_order is_live L gw (PECE1.instrument_key s)
                            SELL (Some x) (PECE1.mode s)))]
            else [])
      /\ PECE1Log.coherent s')
  /\ (pk < x ->
      Py.leb x (PECE1Inv.peak_after pk x - PECE1.trail_exit e x) = false)
  /\ (forall (ticks : list PECE1.Tick) (s' : PECE1.Strategy)
             (L' : PECE1.Ledger) (evs : list Event),
         PECE1.feed is_live ticks s L = Ok (s', L', evs) ->
         PECE1Log.coherent s').
Proof.
  intros Hc Hb He Hp Hin.
  destruct (Hc Hb) as (e0 & pk0 & He0 & Hs0 & Hp0 & Hle).
  rewrite He in He0. injection He0 as <-.
  rewrite Hp in Hp0. injection Hp0 as <-.
  split; [|split].
  - destruct (PECE1Facts.step_long is_live s L x e (e - PECE1.STOP_LOSS_OFFSET)
                pk gw answers Hin Hb He Hs0 Hp) as (s' & L' & H & _).
    rewrite (PECE1RunFacts.exit_signal_trailing e pk x Hle) in H.
    exists s', L'. split; [exact H|].
    exact (PECE1RunFacts.step_coherent is_live _ _ _ _ _ _ _ _ Hc H).
  - apply PECE1RunFacts.new_high_holds.
  - intros ticks s' L' evs H.
    refine (PECE1RunFacts.feed_invariant is_live
              (fun s0 _ => PECE1Log.coherent s0) _ ticks s s' L L' evs Hc H).
    intros s0 s1 L0 L1 ltp gw0 answers0 evs0.
    apply PECE1RunFacts.step_coherent.
Qed.

Lemma trailing_stop_decides_witness :
  exists s' L',
    PECE1.process_price_update false long_leg after_buy (Some 140)
      demo_gateway []
    = Ok (s', L',
          if Py.leb 140 (PECE1Inv.peak_after 150 140 - PECE1.trail_exit 150 140)
          then [PlaceOrder (PECE1.instrument_key long_leg) SELL 140
                  (fst (PECE1.place_order false after_buy demo_gateway
                          (PECE1.instrument_key long_leg) SELL (Some 140)
                          (PECE1.mode long_leg)))]
          else [])
    /\ PECE1Log.coherent s'.
Proof.
  assert (Hc : PECE1Log.coherent long_leg).
  { intros _. exists 150, 150. repeat split; try reflexivity. apply Qle_refl. }
  assert (Hin : PECE1.in_range 140 = true) by reflexivity.
  exact (proj1 (trailing_stop_decides false long_leg after_buy 140 demo_gateway
                  [] 150 150 Hc eq_refl eq_refl eq_refl Hin)).
Defined.

(** ** The runner of trade_PE_CE1.py *)

Module PECE1LoopFacts.
Import PECE1 PECE1Inv PECE1Log PECE1Loop.

(** A forced search, from a leg that runs: the leg comes out flat, after at
    least one round, with nothing ordered. *)
Lemma search_flat (s s' : Strategy) (answers : list Attempt) (evs : list Event) :
  running s = true ->
  ensure_instrument (reset_position s) answers = Ok (s', evs) ->
  running s' = true /\ mode s' = mode s /\ bought s' = false
  /\ entry s' = None /\ stop s' = None /\ peak s' = None
  /\ evs <> [] /\ Forall (eq GetNewInstrument) evs.
Proof.
  intros Hrun H.
  destruct (PECE1Facts.ensure_instrument_ok (reset_position s) s' answers evs
              Hrun H) as (Hne & Hall & Hm & Hr & Hb & He & Hs & Hp & _).
  repeat split; assumption.
Qed.

Lemma state_at_raise_keeps (s : Strategy) (ltp : option Q) :
  running (state_at_raise s ltp) = running s
  /\ mode (state_at_raise s ltp) = mode s
  /\ bought (state_at_raise s ltp) = bought s
  /\ entry (state_at_raise s ltp) = entry s
  /\ stop (state_at_raise s ltp) = stop s
  /\ instrument_key (state_at_raise s ltp) = instrument_key s.
Proof.
  unfold state_at_raise.
  destruct (peak s) as [pk|], ltp as [x|]; try (repeat split; reflexivity).
  destruct (Py.ltb pk x); repeat split; reflexivity.
Qed.

Section Pass.

Variable live : bool.

Section Invariant.

(** A property of strategy and ledger that ticks, forced searches and an
    exception out of a tick keep is kept by the loop. *)
Variable I : Strategy -> Ledger -> Prop.

Hypothesis I_step :
  forall s s' L L' ltp gw answers evs,
    I s L -> process_price_update live s L ltp gw answers = Ok (s', L', evs) ->
    I s' L'.

Hypothesis I_search :
  forall s s' L answers evs,
    I s L -> ensure_instrument (reset_position s) answers = Ok (s', evs) ->
    I s' L.

Hypothesis I_raise :
  forall s L ltp, I s L -> I (state_at_raise s ltp) L.

Lemma stale_check_invariant (p : Poll) (st st' : Loop) (evs0 evs : list Event) :
  I (strategy st) (ledger st) ->
  stale_check p st evs0 = Ok (st', evs) ->
  I (strategy st') (ledger st').
Proof.
  intros HI. unfold stale_check.
  destruct (Py.ltb 60 (clock_check p - last_price_time st)).
  - destruct (ensure_instrument (reset_position (strategy st)) (stale_answers p))
      as [[s1 evs1]| |] eqn:E; cbn [bind]; intros H; inversion H; subst.
    cbn [strategy ledger fst]. exact (I_search _ _ _ _ _ HI E).
  - intros H. inversion H. subst. exact HI.
Qed.

Lemma count_error_invariant (p : Poll) (st st' : Loop) (evs : list Event) :
  I (strategy st) (ledger st) ->
  count_error p st = Ok (st', evs) ->
  I (strategy st') (ledger st').
Proof.
  intros HI. unfold count_error.
  destruct (3 <=? errors st + 1)%Z.
  - destruct (ensure_instrument (reset_position (strategy st)) (error_answers p))
      as [[s1 evs1]| |] eqn:E; cbn [bind]; intros H; inversion H; subst.
    cbn [strategy ledger fst]. exact (I_search _ _ _ _ _ HI E).
  - intros H. inversion H. subst. exact HI.
Qed.

Lemma iteration_invariant (p : Poll) (st st' : Loop) (evs : list Event) :
  I (strategy st) (ledger st) ->
  iteration live p st = Ok (st', evs) ->
  I (strategy st') (ledger st').
Proof.
  intros HI. unfold iteration.
  destruct (Py.truthy (fetched p)).
  - destruct (process_price_update live (strategy st) (ledger st) (fetched p)
                (order_gateway p) (range_answers p))
      as [[[s1 L1] evs1]| |] eqn:E.
    + apply stale_check_invariant. cbn [strategy ledger].
      exact (I_step _ _ _ _ _ _ _ _ HI E).
    + intros H. inversion H. subst. cbn [strategy ledger].
      apply I_raise. exact HI.
    + discriminate.
  - destruct (count_error p st) as [[st1 evs1]| |] eqn:E; cbn [bind];
      try discriminate.
    apply stale_check_invariant. cbn [fst].
    exact (count_error_invariant _ _ _ _ HI E).
Qed.

Lemma loop_invariant (polls : list Poll) :
  forall (st st' : Loop) (evs : list Event),
    I (strategy st) (ledger st) ->
    loop live polls st = Ok (st', evs) ->
    I (strategy st') (ledger st').
Proof.
  induction polls as [|p rest IH]; intros st st' evs HI H; cbn [loop] in H.
  - inversion H. subst. exact HI.
  - destruct (negb (running (strategy st))).
    + inversion H. subst. exact HI.
    + destruct (iteration live p st) as [[st1 evs1]| |] eqn:E1; cbn [bind] in H;
        try discriminate.
      destruct (loop live rest (fst (st1, evs1))) as [[st2 evs2]| |] eqn:E2;
        cbn [bind] in H; try discriminate.
      inversion H. subst. cbn [fst] in *.
      exact (IH _ _ _ (iteration_invariant _ _ _ _ HI E1) E2).
Qed.

End Invariant.

(** The order of the events of a pass: the leg still runs after it, and
    its events lead from the position held before to the position held
    after. *)
Lemma searches_from_flat (evs rest : list Event) :
  Forall (eq GetNewInstrument) evs ->
  well_ordered false rest = true -> well_ordered false (evs ++ rest) = true.
Proof.
  intros Hall Hrest. destruct evs as [|ev evs]; [exact Hrest|].
  rewrite well_ordered_searches; [exact Hrest|discriminate|exact Hall].
Qed.

Lemma stale_check_ordered (p : Poll) (st st' : Loop) (evs0 evs : list Event)
    (long : bool) :
  running (strategy st) = true ->
  stale_check p st evs0 = Ok (st', evs) ->
  (forall rest, well_ordered (bought (strategy st)) rest = true ->
     well_ordered long (evs0 ++ rest) = true) ->
  running (strategy st') = true
  /\ forall rest, well_ordered (bought (strategy st')) rest = true ->
       well_ordered long (evs ++ rest) = true.
Proof.
  intros Hrun. unfold stale_check.
  destruct (Py.ltb 60 (clock_check p - last_price_time st)).
  - destruct (ensure_instrument (reset_position (strategy st)) (stale_answers p))
      as [[s1 evs1]| |] eqn:E; cbn [bind]; intros H Hevs0; inversion H; subst.
    cbn [strategy fst snd].
    destruct (search_flat _ _ _ _ Hrun E)
      as (Hr & _ & Hb & _ & _ & _ & Hne & Hall).
    split; [exact Hr|].
    intros rest Hrest. rewrite <- app_assoc.
    rewrite Hb in Hrest.
    destruct (bought (strategy st)) eqn:Hb0.
    + (* the position is dropped by the search *)
      assert (Hmid : well_ordered true (evs1 ++ rest) = true)
        by (rewrite (well_ordered_searches true evs1 rest Hne Hall); exact Hrest).
      apply Hevs0. exact Hmid.
    + apply Hevs0. apply searches_from_flat; assumption.
  - intros H Hevs0. inversion H. subst. split; assumption.
Qed.

Lemma iteration_ordered (p : Poll) (st st' : Loop) (evs : list Event) :
  running (strategy st) = true ->
  iteration live p st = Ok (st', evs) ->
  running (strategy st') = true
  /\ forall rest, well_ordered (bought (strategy st')) rest = true ->
       well_ordered (bought (strategy st)) (evs ++ rest) = true.
Proof.
  intros Hrun. unfold iteration.
  destruct (Py.truthy (fetched p)).
  - destruct (process_price_update live (strategy st) (ledger st) (fetched p)
                (order_gateway p) (range_answers p))
      as [[[s1 L1] evs1]| |] eqn:E.
    + destruct (PECE1Facts.step_ordered live (strategy st) s1 (ledger st) L1
                  (mkTick (fetched p) (order_gateway p) (range_answers p))
                  evs1 Hrun E) as [Hr1 Hord1].
      intros H.
      apply (stale_check_ordered p (mkLoop s1 L1 0 (clock_tick p)) st' evs1
               evs _ Hr1 H). exact Hord1.
    + intros H. inversion H. subst. cbn [strategy].
      destruct (state_at_raise_keeps (strategy st) (fetched p))
        as (Hr & _ & Hb & _).
      rewrite Hr, Hb. split; [exact Hrun|]. intros rest Hrest. exact Hrest.
    + discriminate.
  - unfold count_error.
    destruct (3 <=? errors st + 1)%Z.
    + destruct (ensure_instrument (reset_position (strategy st)) (error_answers p))
        as [[s1 evs1]| |] eqn:E; cbn [bind]; try discriminate.
      cbn [fst snd]. intros H.
      destruct (search_flat _ _ _ _ Hrun E)
        as (Hr & _ & Hb & _ & _ & _ & Hne & Hall).
      apply (stale_check_ordered p
               (mkLoop s1 (ledger st) 0 (last_price_time st)) st' evs1 evs _
               Hr H).
      cbn [strategy]. intros rest Hrest.
      rewrite (well_ordered_searches _ evs1 rest Hne Hall).
      rewrite Hb in Hrest. exact Hrest.
    + cbn [bind fst snd]. intros H.
      apply (stale_check_ordered p
               (mkLoop (strategy st) (ledger st) (errors st + 1)
                  (last_price_time st)) st' [] evs _ Hrun H).
      cbn [strategy]. intros rest Hrest. exact Hrest.
Qed.

Lemma loop_ordered (polls : list Poll) :
  forall (st st' : Loop) (evs : list Event),
    running (strategy st) = true ->
    loop live polls st = Ok (st', evs) ->
    running (strategy st') = true
    /\ forall rest, well_ordered (bought (strategy st')) rest = true ->
         well_ordered (bought (strategy st)) (evs ++ rest) = true.
Proof.
  induction polls as [|p rest IH]; intros st st' evs Hrun H; cbn [loop] in H.
  - inversion H. subst. split; [exact Hrun|]. intros r Hr. exact Hr.
  - rewrite Hrun in H. cbn [negb] in H.
    destruct (iteration live p st) as [[st1 evs1]| |] eqn:E1; cbn [bind] in H;
      try discriminate.
    destruct (loop live rest (fst (st1, evs1))) as [[st2 evs2]| |] eqn:E2;
      cbn [bind] in H; try discriminate.
    inversion H. subst. cbn [fst snd] in *.
    destruct (iteration_ordered _ _ _ _ Hrun E1) as [Hr1 Ho1].
    destruct (IH _ _ _ Hr1 E2) as [Hr2 Ho2].
    split; [exact Hr2|].
    intros r Hr. rewrite <- app_assoc. apply Ho1. apply Ho2. exact Hr.
Qed.

(** The records a pass adds to the log. *)
Lemma grows_nothing (leg : Leg) (L : Ledger) (evs : list Event) :
  Forall (eq GetNewInstrument) evs -> grows leg L L evs.
Proof.
  intros Hall. repeat (split; [reflexivity|]).
  exists []. rewrite app_nil_r. split; [reflexivity|].
  induction Hall as [|ev evs <- _ IH]; [reflexivity|exact IH].
Qed.

Lemma grows_trans (leg : Leg) (L1 L2 L3 : Ledger) (evs1 evs2 : list Event) :
  grows leg L1 L2 evs1 -> grows leg L2 L3 evs2 ->
  grows leg L1 L3 (evs1 ++ evs2).
Proof.
  intros (Ha1 & Hb1 & Hc1 & new1 & Hn1 & Ho1)
         (Ha2 & Hb2 & Hc2 & new2 & Hn2 & Ho2).
  split; [rewrite Ha2; exact Ha1|].
  split; [rewrite Hb2; exact Hb1|].
  split; [rewrite Hc2; exact Hc1|].
  exists (new1 ++ new2). rewrite Hn2, Hn1, app_assoc.
  split; [reflexivity|].
  rewrite map_app, PECE1LogFacts.recorded_orders_app, Ho1, Ho2. reflexivity.
Qed.

Lemma search_log (s s' : Strategy) (L : Ledger) (answers : list Attempt)
    (evs : list Event) :
  ensure_instrument (reset_position s) answers = Ok (s', evs) ->
  mode s' = mode s /\ grows (mode s) L L evs.
Proof.
  intros H.
  destruct (PECE1StepFacts.ensure_instrument_keeps _ _ _ _ H) as (Hm & _).
  split; [exact Hm|].
  apply grows_nothing.
  exact (PECE1Facts.ensure_instrument_events _ _ _ _ H).
Qed.

Lemma stale_check_log (p : Poll) (st st' : Loop) (evs0 evs : list Event)
    (leg : Leg) (L0 : Ledger) :
  mode (strategy st) = leg ->
  grows leg L0 (ledger st) evs0 ->
  stale_check p st evs0 = Ok (st', evs) ->
  mode (strategy st') = leg /\ grows leg L0 (ledger st') evs.
Proof.
  intros Hm Hg. unfold stale_check.
  destruct (Py.ltb 60 (clock_check p - last_price_time st)).
  - destruct (ensure_instrument (reset_position (strategy st)) (stale_answers p))
      as [[s1 evs1]| |] eqn:E; cbn [bind]; intros H; inversion H; subst.
    cbn [strategy ledger fst snd].
    destruct (search_log _ _ (ledger st) _ _ E) as [Hm1 Hg1].
    split; [exact Hm1|].
    exact (grows_trans _ _ _ _ _ _ Hg Hg1).
  - intros H. inversion H. subst. split; [reflexivity|exact Hg].
Qed.

Lemma iteration_log (p : Poll) (st st' : Loop) (evs : list Event) :
  iteration live p st = Ok (st', evs) ->
  mode (strategy st') = mode (strategy st)
  /\ grows (mode (strategy st)) (ledger st) (ledger st') evs.
Proof.
  unfold iteration.
  destruct (Py.truthy (fetched p)).
  - destruct (process_price_update live (strategy st) (ledger st) (fetched p)
                (order_gateway p) (range_answers p))
      as [[[s1 L1] evs1]| |] eqn:E.
    + destruct (PECE1LogFacts.step_log live _ _ _ _ _ _ _ _ E)
        as (Hm1 & Hg1).
      apply (stale_check_log p (mkLoop s1 L1 0 (clock_tick p))); assumption.
    + intros H. inversion H. subst. cbn [strategy ledger].
      destruct (state_at_raise_keeps (strategy st) (fetched p)) as (_ & Hm & _).
      split; [exact Hm|]. apply grows_nothing. constructor.
    + discriminate.
  - unfold count_error.
    destruct (3 <=? errors st + 1)%Z.
    + destruct (ensure_instrument (reset_position (strategy st)) (error_answers p))
        as [[s1 evs1]| |] eqn:E; cbn [bind]; try discriminate.
      cbn [fst snd].
      destruct (search_log _ _ (ledger st) _ _ E) as [Hm1 Hg1].
      apply (stale_check_log p
               (mkLoop s1 (ledger st) 0 (last_price_time st))); assumption.
    + cbn [bind fst snd].
      apply (stale_check_log p
               (mkLoop (strategy st) (ledger st) (errors st + 1)
                  (last_price_time st))); [reflexivity|].
      apply grows_nothing. constructor.
Qed.

Lemma loop_log (polls : list Poll) :
  forall (st st' : Loop) (evs : list Event),
    loop live polls st = Ok (st', evs) ->
    mode (strategy st') = mode (strategy st)
    /\ grows (mode (strategy st)) (ledger st) (ledger st') evs.
Proof.
  induction polls as [|p rest IH]; intros st st' evs H; cbn [loop] in H.
  - inversion H. subst. split; [reflexivity|]. apply grows_nothing. constructor.
  - destruct (negb (running (strategy st))).
    + inversion H. subst. split; [reflexivity|].
      apply grows_nothing. constructor.
    + destruct (iteration live p st) as [[st1 evs1]| |] eqn:E1; cbn [bind] in H;
        try discriminate.
      destruct (loop live rest (fst (st1, evs1))) as [[st2 evs2]| |] eqn:E2;
        cbn [bind] in H; try discriminate.
      inversion H. subst. cbn [fst snd] in *.
      destruct (iteration_log _ _ _ _ E1) as [Hm1 Hg1].
      destruct (IH _ _ _ E2) as [Hm2 Hg2].
      rewrite Hm1 in *. split; [exact Hm2|].
      exact (grows_trans _ _ _ _ _ _ Hg1 Hg2).
Qed.


End Pass.

End PECE1LoopFacts.

Module PECE1SessionFacts.
Import PECE1 PECE1Inv PECE1Log PECE1Loop.

Section Session.

Variable live : bool.

(** The strategy as [run_option_loop] has it when the loop starts. *)
Lemma start_flat (leg : Leg) (w : Session) (s0 : Strategy) (evs0 : list Event) :
  (if negb (key_truthy (instrument_key (init leg (cached w) (first_ltp w))))
   then ensure_instrument (init leg (cached w) (first_ltp w)) (first_answers w)
   else Ok (init leg (cached w) (first_ltp w), [])) = Ok (s0, evs0) ->
  running s0 = true /\ mode s0 = leg /\ bought s0 = false
  /\ Forall (eq GetNewInstrument) evs0.
Proof.
  assert (Hinit : running (init leg (cached w) (first_ltp w)) = true
                  /\ mode (init leg (cached w) (first_ltp w)) = leg
                  /\ bought (init leg (cached w) (first_ltp w)) = false)
    by (unfold init; destruct (cached w); repeat split).
  destruct Hinit as (Hr & Hm & Hb).
  destruct (negb (key_truthy (instrument_key (init leg (cached w) (first_ltp w))))).
  - intros H.
    destruct (PECE1Facts.ensure_instrument_ok _ _ _ _ Hr H)
      as (_ & Hall & Hm1 & Hr1 & Hb1 & _).
    rewrite Hm1, Hb1. repeat split; assumption.
  - intros H. inversion H. subst. repeat split; try assumption. constructor.
Qed.

(** The three parts of a run that returns: the strategy the loop starts
    with, the loop, and the closing order. *)
Lemma run_parts (leg : Leg) (L : Ledger) (w : Session) (s' : Strategy)
    (L' : Ledger) (evs : list Event) :
  run_option_loop live leg L w = Ok (s', L', evs) ->
  exists s0 evs0 st evs1,
    running s0 = true /\ mode s0 = leg /\ bought s0 = false
    /\ Forall (eq GetNewInstrument) evs0
    /\ loop live (polls w) (mkLoop s0 L 0 (start_time w)) = Ok (st, evs1)
    /\ s' = strategy st
    /\ ((bought s' = true
         /\ exists x ok,
              exit_price w = Some x /\ Py.truthy (Some x) = true
              /\ place_order live (ledger st) (exit_gateway w)
                   (instrument_key s') SELL (Some x) leg = (ok, L')
              /\ evs = (evs0 ++ evs1) ++ [PlaceOrder (instrument_key s') SELL x ok])
        \/ ((bought s' = false \/ Py.truthy (exit_price w) = false)
            /\ L' = ledger st /\ evs = evs0 ++ evs1)).
Proof.
  unfold run_option_loop. cbv zeta.
  destruct (if negb (key_truthy (instrument_key (init leg (cached w) (first_ltp w))))
            then ensure_instrument (init leg (cached w) (first_ltp w))
                   (first_answers w)
            else Ok (init leg (cached w) (first_ltp w), []))
    as [[s0 evs0]| |] eqn:E0; cbn [bind]; try discriminate.
  destruct (start_flat leg w s0 evs0 E0) as (Hr & Hm & Hb & Hall).
  cbn [fst snd].
  destruct (loop live (polls w) (mkLoop s0 L 0 (start_time w)))
    as [[st evs1]| |] eqn:E1; cbn [bind]; try discriminate.
  cbn [fst snd]. intros H.
  exists s0, evs0, st, evs1.
  repeat (split; [assumption|]).
  destruct (bought (strategy st)) eqn:Hb1.
  - destruct (exit_price w) as [x|] eqn:Ex.
    + destruct (Py.truthy (Some x)) eqn:Ht.
      * destruct (place_order live (ledger st) (exit_gateway w)
                    (instrument_key (strategy st)) SELL (Some x) leg)
          as [ok L1] eqn:Ep.
        inversion H. subst. split; [reflexivity|].
        left. split; [exact Hb1|]. exists x, ok. repeat split; assumption.
      * inversion H. subst. split; [reflexivity|].
        right. split; [right; reflexivity|]. split; reflexivity.
    + inversion H. subst. split; [reflexivity|].
      right. split; [right; reflexivity|]. split; reflexivity.
  - inversion H. subst. split; [reflexivity|].
    right. split; [left; exact Hb1|]. split; reflexivity.
Qed.

End Session.

End PECE1SessionFacts.

(** *** X6: the order of a leg's whole session *)

(** X6: whatever the collaborators answer, the trace of a session of
    [run_option_loop] that returns is in order from a flat leg: a BUY only
    when no position is held, a SELL only when one is, the forced searches
    (three errors in a row, no price for 60 s, a price out of range) leaving
    the leg flat.  If the loop ends with a position held and a price that is
    not [0] can be fetched, the trace ends with the closing SELL at that
    price on the instrument held; if no such price can be fetched nothing is
    ordered and the trace ends with the position still open. *)
Theorem session_is_in_order (is_live : bool) (leg : Leg) (L : PECE1.Ledger)
    (w : PECE1Loop.Session) (s' : PECE1.Strategy) (L' : PECE1.Ledger)
    (evs : list Event) :
  PECE1Loop.run_option_loop is_live leg L w = Ok (s', L', evs) ->
  well_ordered false evs = true
  /\ PECE1.mode s' = leg
  /\ (PECE1.bought s' = true -> Py.truthy (PECE1Loop.exit_price w) = true ->
      exists x ok before,
        PECE1Loop.exit_price w = Some x
        /\ evs = before ++ [PlaceOrder (PECE1.instrument_key s') SELL x ok])
  /\ (PECE1.bought s' = true -> Py.truthy (PECE1Loop.exit_price w) = false ->
      forall key x ok,
        well_ordered false (evs ++ [PlaceOrder key SELL x ok]) = true).
Proof.
  intros H.
  destruct (PECE1SessionFacts.run_parts is_live leg L w s' L' evs H)
    as (s0 & evs0 & st & evs1 & Hr0 & Hm0 & Hb0 & Hall0 & Hloop & -> & Hend).
  destruct (PECE1LoopFacts.loop_ordered is_live (PECE1Loop.polls w)
              (PECE1Loop.mkLoop s0 L 0 (PECE1Loop.start_time w)) st evs1 Hr0
              Hloop) as [_ Hord].
  destruct (PECE1LoopFacts.loop_log is_live _ _ _ _ Hloop) as [Hm _].
  cbn [PECE1Loop.strategy] in Hord, Hm. rewrite Hb0 in Hord. rewrite Hm0 in Hm.
  assert (Hafter : forall rest,
            well_ordered (PECE1.bought (PECE1Loop.strategy st)) rest = true ->
            well_ordered false ((evs0 ++ evs1) ++ rest) = true).
  { intros rest Hrest. rewrite <- app_assoc.
    apply PECE1LoopFacts.searches_from_flat; [exact Hall0|].
    apply Hord. exact Hrest. }
  destruct Hend as [(Hb & x & ok & Hx & Ht & Hp & ->) | (Hcase & -> & ->)].
  - split; [apply Hafter; rewrite Hb; reflexivity|].
    split; [exact Hm|]. split.
    + intros _ _. exists x, ok, (evs0 ++ evs1). split; [exact Hx|reflexivity].
    + intros _ Hf. rewrite Hx, Ht in Hf. discriminate.
  - split; [rewrite <- (app_nil_r (evs0 ++ evs1)); apply Hafter;
            destruct (PECE1.bought (PECE1Loop.strategy st)); reflexivity|].
    split; [exact Hm|]. split.
    + intros Hb Ht. destruct Hcase as [Hcase | Hcase];
        [rewrite Hb in Hcase | rewrite Ht in Hcase]; discriminate.
    + intros Hb _ key x ok. apply Hafter. rewrite Hb. reflexivity.
Qed.

Lemma session_is_in_order_witness :
  exists s' L' evs,
    PECE1Loop.run_option_loop false PE PECE1.empty_ledger demo_session
    = Ok (s', L', evs)
    /\ well_ordered false evs = true
    /\ exists x ok before,
         PECE1Loop.exit_price demo_session = Some x
         /\ evs = before ++ [PlaceOrder (PECE1.instrument_key s') SELL x ok].
Proof.
  destruct (PECE1Loop.run_option_loop false PE PECE1.empty_ledger demo_session)
    as [[[s' L'] evs]| |] eqn:E; [|vm_compute in E; discriminate E..].
  assert (Hb : PECE1.bought s' = true)
    by (vm_compute in E; injection E as <- _ _; reflexivity).
  destruct (session_is_in_order false PE PECE1.empty_ledger demo_session s' L'
              evs E) as (Hord & _ & Hclose & _).
  exists s', L', evs. split; [reflexivity|]. split; [exact Hord|].
  exact (Hclose Hb eq_refl).
Defined.

(** *** X7: the books over a whole session *)

(** X7: over a session of [run_option_loop] that returns, the records added
    to the leg's log are exactly the orders of the trace that went through
    (the closing one included), the other leg's log and accumulators are
    not touched, and accumulators that agreed with the logs still do (each
    leg's day P&L is the running total of the net profits in its log and the
    day_pnl of its last closed record, every net profit is
    round(gross - charges total, 2)); the leg's day P&L and the balance move
    by the net profits of the records added, added one after the other; in
    paper mode a log in which every SELL follows its BUY is still such a
    log, so the closing SELL too is settled against the BUY that opened the
    position. *)
Theorem session_keeps_the_books (is_live : bool) (leg : Leg) (L : PECE1.Ledger)
    (w : PECE1Loop.Session) (s' : PECE1.Strategy) (L' : PECE1.Ledger)
    (evs : list Event) :
  PECE1Loop.run_option_loop is_live leg L w = Ok (s', L', evs) ->
  PECE1Log.grows leg L L' evs
  /\ (PECE1Books.balanced L -> PECE1Books.balanced L')
  /\ PECE1Books.booked leg L L'
  /\ (is_live = false ->
      PECE1Log.paired None (PECE1.trades_of leg L) ->
      PECE1Log.paired None (PECE1.trades_of leg L')).
Proof.
  intros H.
  destruct (PECE1SessionFacts.run_parts is_live leg L w s' L' evs H)
    as (s0 & evs0 & st & evs1 & Hr0 & Hm0 & Hb0 & Hall0 & Hloop & -> & Hend).
  destruct (PECE1LoopFacts.loop_log is_live _ _ _ _ Hloop) as [Hm Hg].
  cbn [PECE1Loop.strategy PECE1Loop.ledger] in Hm, Hg.
  rewrite Hm0 in Hm, Hg.
  assert (Hg01 : PECE1Log.grows leg L (PECE1Loop.ledger st) (evs0 ++ evs1)).
  { apply (PECE1LoopFacts.grows_trans leg L L); [|exact Hg].
    apply PECE1LoopFacts.grows_nothing. exact Hall0. }
  assert (Hbal : PECE1Books.balanced L ->
                 PECE1Books.balanced (PECE1Loop.ledger st)).
  { intros HL.
    refine (PECE1LoopFacts.loop_invariant is_live
              (fun _ L0 => PECE1Books.balanced L0) _ _ _ (PECE1Loop.polls w)
              (PECE1Loop.mkLoop s0 L 0 (PECE1Loop.start_time w)) st evs1 HL
              Hloop).
    - intros s1 s2 L1 L2 ltp gw answers evs2.
      apply PECE1RunFacts.step_balanced.
    - intros s1 s2 L1 answers evs2 HL1 _. exact HL1.
    - intros s1 L1 ltp HL1. exact HL1. }
  assert (Hbk : PECE1.mode (PECE1Loop.strategy st) = leg
                /\ PECE1Books.booked leg L (PECE1Loop.ledger st)).
  { refine (PECE1LoopFacts.loop_invariant is_live
              (fun s1 L1 =>
                 PECE1.mode s1 = leg /\ PECE1Books.booked leg L L1)
              _ _ _ (PECE1Loop.polls w)
              (PECE1Loop.mkLoop s0 L 0 (PECE1Loop.start_time w)) st evs1 _
              Hloop).
    - intros s1 s2 L1 L2 ltp gw answers evs2 [Hm1 Hb1] E.
      destruct (PECE1RunFacts.step_booked is_live _ _ _ _ _ _ _ _ E)
        as [Hm2 Hb2].
      split; [rewrite Hm2; exact Hm1|]. rewrite Hm1 in Hb2.
      exact (PECE1BooksFacts.booked_trans _ _ _ _ Hb1 Hb2).
    - intros s1 s2 L1 answers evs2 [Hm1 Hb1] E.
      destruct (PECE1StepFacts.ensure_instrument_keeps _ _ _ _ E)
        as (Hm2 & _).
      split; [rewrite Hm2; exact Hm1|exact Hb1].
    - intros s1 L1 ltp [Hm1 Hb1].
      destruct (PECE1LoopFacts.state_at_raise_keeps s1 ltp) as (_ & Hm2 & _).
      split; [rewrite Hm2; exact Hm1|exact Hb1].
    - cbn [PECE1Loop.strategy PECE1Loop.ledger].
      split; [exact Hm0|apply PECE1BooksFacts.booked_refl]. }
  assert (Hpair : is_live = false ->
                  PECE1Log.paired None (PECE1.trades_of leg L) ->
                  PECE1.mode (PECE1Loop.strategy st) = leg
                  /\ PECE1Log.paired None
                       (PECE1.trades_of leg (PECE1Loop.ledger st))
                  /\ PECE1Log.opened_by (PECE1Loop.strategy st)
                       (PECE1Loop.ledger st)).
  { intros -> Hp.
    refine (PECE1LoopFacts.loop_invariant false
              (fun s1 L1 =>
                 PECE1.mode s1 = leg
                 /\ PECE1Log.paired None (PECE1.trades_of leg L1)
                 /\ PECE1Log.opened_by s1 L1) _ _ _ (PECE1Loop.polls w)
              (PECE1Loop.mkLoop s0 L 0 (PECE1Loop.start_time w)) st evs1 _
              Hloop).
    - intros s1 s2 L1 L2 ltp gw answers evs2 (Hm1 & Hp1 & Ho1) E.
      rewrite <- Hm1 in Hp1.
      destruct (PECE1RunFacts.step_paired _ _ _ _ _ _ _ _ (conj Hp1 Ho1) E)
        as [Hp2 Ho2].
      destruct (PECE1StepFacts.step_effect false _ _ _ _ _ _ _ _ E) as [Hm2 _].
      rewrite Hm2, Hm1 in Hp2. rewrite Hm2.
      split; [exact Hm1|]. split; assumption.
    - intros s1 s2 L1 answers evs2 (Hm1 & Hp1 & _) E.
      destruct (PECE1StepFacts.ensure_instrument_keeps _ _ _ _ E)
        as (Hm2 & _ & Hb2 & _).
      split; [rewrite Hm2; exact Hm1|]. split; [exact Hp1|].
      intros Hb. rewrite Hb2 in Hb. discriminate Hb.
    - intros s1 L1 ltp (Hm1 & Hp1 & Ho1).
      destruct (PECE1LoopFacts.state_at_raise_keeps s1 ltp)
        as (_ & Hm2 & Hb2 & He2 & _ & Hk2).
      split; [rewrite Hm2; exact Hm1|]. split; [exact Hp1|].
      intros Hb. rewrite Hb2 in Hb.
      destruct (Ho1 Hb) as (e & earlier & b & He & Hlog & Hact & Hkey & Hpr).
      exists e, earlier, b. rewrite He2, Hm2, Hk2. repeat split; assumption.
    - cbn [PECE1Loop.strategy PECE1Loop.ledger].
      split; [exact Hm0|]. split; [exact Hp|].
      intros Hb. rewrite Hb0 in Hb. discriminate Hb. }
  destruct Hend as [(Hb & x & ok & Hx & Ht & Hp & ->) | (_ & -> & ->)].
  - pose proof (PECE1LogFacts.place_order_log is_live (PECE1Loop.ledger st)
                  (PECE1Loop.exit_gateway w)
                  (PECE1.instrument_key (PECE1Loop.strategy st)) SELL (Some x)
                  leg) as Hlog.
    cbv zeta in Hlog. rewrite Hp in Hlog. cbn [fst snd] in Hlog.
    destruct Hlog as (H1 & H2 & H3 & Hfail & Hok).
    split; [|split; [|split]].
    + apply (PECE1LoopFacts.grows_trans leg L (PECE1Loop.ledger st));
        [exact Hg01|].
      split; [exact H1|]. split; [exact H2|]. split; [exact H3|].
      destruct ok.
      * destruct (Hok eq_refl) as (t & cp & Hlog & Hcp & Hord).
        rewrite (PECE1RunFacts.truthy_passed x _ Ht) in Hcp.
        injection Hcp as <-.
        exists [t]. split; [exact Hlog|]. cbn. rewrite Hord. reflexivity.
      * rewrite (Hfail eq_refl). exists []. rewrite app_nil_r.
        split; reflexivity.
    + intros HL.
      replace L' with (snd (PECE1.place_order is_live (PECE1Loop.ledger st)
                              (PECE1Loop.exit_gateway w)
                              (PECE1.instrument_key (PECE1Loop.strategy st))
                              SELL (Some x) leg)) by (rewrite Hp; reflexivity).
      apply PECE1BooksFacts.place_order_balanced. exact (Hbal HL).
    + replace L' with (snd (PECE1.place_order is_live (PECE1Loop.ledger st)
                              (PECE1Loop.exit_gateway w)
                              (PECE1.instrument_key (PECE1Loop.strategy st))
                              SELL (Some x) leg)) by (rewrite Hp; reflexivity).
      apply (PECE1BooksFacts.booked_trans leg L (PECE1Loop.ledger st));
        [exact (proj2 Hbk)|apply PECE1BooksFacts.place_order_booked].
    + intros Hlive Hpaired. subst is_live.
      destruct (Hpair eq_refl Hpaired) as (Hm1 & Hp1 & Ho1).
      destruct (Ho1 Hb) as (e & earlier & b & He & Hlog & Hact & Hkey & Hpr).
      rewrite Hm1 in Hlog.
      destruct (PECE1RunFacts.paper_sell (PECE1Loop.ledger st)
                  (PECE1Loop.exit_gateway w)
                  (PECE1.instrument_key (PECE1Loop.strategy st)) x leg earlier
                  b Ht Hlog Hact Hkey)
        as (t & L1 & E1 & Hlog1 & Hta & Htk & Htp & Hgp).
      rewrite E1 in Hp. injection Hp as _ <-.
      rewrite Hlog1, Hlog. rewrite Hlog in Hp1.
      apply PECE1RunFacts.paired_sell; try assumption.
      * rewrite Htk. exact Hkey.
      * rewrite Htp. exact Hgp.
  - split; [exact Hg01|]. split; [exact Hbal|]. split; [exact (proj2 Hbk)|].
    intros Hlive Hpaired. exact (proj1 (proj2 (Hpair Hlive Hpaired))).
Qed.

Lemma session_keeps_the_books_witness :
  exists s' L' evs,
    PECE1Loop.run_option_loop false PE PECE1.empty_ledger demo_session
    = Ok (s', L', evs)
    /\ PECE1Log.grows PE PECE1.empty_ledger L' evs
    /\ PECE1Books.booked PE PECE1.empty_ledger L'
    /\ PECE1Log.paired None (PECE1.trades_of PE L').
Proof.
  destruct (PECE1Loop.run_option_loop false PE PECE1.empty_ledger demo_session)
    as [[[s' L'] evs]| |] eqn:E; [|vm_compute in E; discriminate E..].
  destruct (session_keeps_the_books false PE PECE1.empty_ledger demo_session s'
              L' evs E) as (Hg & _ & Hb & Hp).
  exists s', L', evs. split; [reflexivity|]. split; [exact Hg|].
  split; [exact Hb|exact (Hp eq_refl I)].
Defined.

Module PECE1ErrorFacts.
Import PECE1 PECE1Inv PECE1Log PECE1Loop.


Section Pass.

Variable live : bool.





End Pass.

End PECE1ErrorFacts.

(** *** X8: a feed that is lost *)



(** ** Instrument tokens *)

Module FindTokenFacts.
Import FindToken.

Lemma split_not_nil (sep : ascii) (s : string) : split sep s <> [].
Proof.
  destruct s as [|c rest]; cbn [split]; [discriminate|].
  destruct (Ascii.eqb c sep); [discriminate|].
  destruct (split sep rest); discriminate.
Qed.

(** A string without the separator is its own single field. *)
Lemma split_whole (sep : ascii) (s : string) :
  contains sep s = false -> split sep s = [s].
Proof.
  induction s as [|c rest IH]; cbn [split contains]; [reflexivity|].
  intros H. apply orb_false_iff in H. destruct H as [Hc Hrest].
  rewrite Hc, (IH Hrest). reflexivity.
Qed.

(** The fields after a separator are the fields of what follows it. *)
Lemma split_after (sep : ascii) (pre t : string) :
  exists fields,
    fields <> []
    /\ split sep (pre ++ String sep t) = fields ++ split sep t.
Proof.
  induction pre as [|c pre IH]; cbn [append split].
  - rewrite Ascii.eqb_refl. exists [EmptyString]. split; [discriminate|reflexivity].
  - destruct IH as (fields & Hne & ->).
    destruct (Ascii.eqb c sep).
    + exists (EmptyString :: fields). split; [discriminate|reflexivity].
    + destruct fields as [|field fields]; [contradiction|].
      cbn [app]. exists (String c field :: fields).
      split; [discriminate|reflexivity].
Qed.

Lemma last_app_not_nil {A : Type} (l1 l2 : list A) (d : A) :
  l2 <> [] -> last (l1 ++ l2) d = last l2 d.
Proof.
  intros Hne. induction l1 as [|a l1 IH]; [reflexivity|].
  cbn [app]. destruct (l1 ++ l2) eqn:E.
  - apply app_eq_nil in E. destruct E as [_ E]. contradiction.
  - exact IH.
Qed.

Lemma last_field_after (pre t : string) :
  last_field (pre ++ String "|" t) = last_field t.
Proof.
  unfold last_field.
  destruct (split_after "|" pre t) as (fields & _ & ->).
  apply last_app_not_nil. apply split_not_nil.
Qed.

(** The last field of a key that ends in a field without separator is that
    field. *)
Lemma last_field_of_key (pre token : string) :
  contains "|" token = false ->
  last_field (pre ++ String "|" token) = token.
Proof.
  intros H. rewrite last_field_after. unfold last_field.
  rewrite (split_whole _ _ H). reflexivity.
Qed.

(** No field holds the separator. *)
Lemma split_fields_clean (sep : ascii) (s : string) :
  Forall (fun field => contains sep field = false) (split sep s).
Proof.
  induction s as [|c rest IH]; cbn [split].
  - constructor; [reflexivity|constructor].
  - destruct (Ascii.eqb c sep) eqn:E.
    + constructor; [reflexivity|exact IH].
    + destruct (split sep rest) as [|field fields].
      * constructor; [cbn; rewrite E; reflexivity|constructor].
      * inversion IH as [|f fs Hf Hfs]. subst.
        constructor; [cbn; rewrite E; exact Hf|exact Hfs].
Qed.

Lemma last_field_clean (s : string) : contains "|" (last_field s) = false.
Proof.
  unfold last_field.
  pose proof (split_fields_clean "|" s) as Hall.
  pose proof (split_not_nil "|" s) as Hne.
  induction (split "|" s) as [|field fields IH]; [contradiction|].
  inversion Hall as [|f fs Hf Hfs]. subst.
  destruct fields as [|field' fields']; [exact Hf|].
  apply IH; [exact Hfs|discriminate].
Qed.

(** The loop returns the last field of the key of the first element it
    stops at. *)
Lemma scan_token_first (data : list OptionChainItem) (strike : Q)
    (option_type : Leg) :
  scan_token data strike option_type
  = match find (resolves strike option_type) data with
    | Some chain_item =>
      option_map last_field (option_data option_type chain_item)
    | None => None
    end.
Proof.
  induction data as [|chain_item rest IH]; [reflexivity|].
  cbn [scan_token find]. unfold resolves at 1.
  fold (option_data option_type chain_item).
  destruct (strike_is _ strike); cbn [andb]; [|exact IH].
  destruct (option_data option_type chain_item) as [k|] eqn:E.
  - destruct (key_truthy (Some k)); [|exact IH].
    rewrite E. reflexivity.
  - cbn [key_truthy]. exact IH.
Qed.

End FindTokenFacts.

(** *** X9: the key of a new instrument (trade_CE4.py) *)

(** X9: when [get_new_instrument] of trade_CE4.py returns a key, the key is
    ["NSE_FO|"] followed by the last ['|']-separated field of the call
    instrument key of the first element, in the chain fetched for the token,
    whose strike equals the call strike selected and which has such a key;
    resolving the returned key again gives the same token, and the returned
    key is the chain's own key whenever that has the form ["NSE_FO|<token>"];
    the key is never empty, the cache file (if it can be written) holds the
    key, both strikes and the expiry, and the instrument is marked valid.
    When it returns no key, neither the file nor the flag is changed. *)
Theorem new_instrument_is_the_chain_key (m : CE4Instrument.Market)
    (c c' : CE4Instrument.Cache) :
  (forall (key : string) (ce_strike pe_strike : Q),
      CE4Instrument.get_new_instrument m c
      = (Some (key, ce_strike, pe_strike), c') ->
      exists expiry data chain_item k,
        FindStrike.strike_prices (CE4Instrument.expiries m)
          (fun e => map FindToken.quotes (CE4Instrument.chain m e))
          CE4.LTP_LOWER_BOUND CE4.LTP_UPPER_BOUND
        = (expiry, ce_strike, pe_strike)
        /\ CE4Instrument.token_chain m expiry = Some data
        /\ find (FindToken.resolves ce_strike CE) data = Some chain_item
        /\ FindToken.call_key chain_item = Some k
        /\ key = ("NSE_FO|" ++ FindToken.last_field k)%string
        /\ FindToken.last_field key = FindToken.last_field k
        /\ (forall token,
              k = ("NSE_FO|" ++ token)%string ->
              FindToken.contains "|" token = false -> key = k)
        /\ key_truthy (Some key) = true
        /\ c' = CE4Instrument.mkCache
                  (if CE4Instrument.write_ok m
                   then Some (CE4Instrument.mkInstrumentData key ce_strike
                                pe_strike expiry)
                   else CE4Instrument.file c)
                  true)
  /\ (CE4Instrument.get_new_instrument m c = (None, c') -> c' = c).
Proof.
  unfold CE4Instrument.get_new_instrument.
  destruct (FindStrike.strike_prices (CE4Instrument.expiries m)
              (fun e => map FindToken.quotes (CE4Instrument.chain m e))
              CE4.LTP_LOWER_BOUND CE4.LTP_UPPER_BOUND)
    as [[expiry ce0] pe0].
  destruct (String.eqb expiry "0").
  { split; [discriminate|]. intros H. inversion H. reflexivity. }
  change CE4.STRIKE_PRICE_MODE with CE. cbv iota.
  unfold FindToken.get_instrument_token.
  destruct (CE4Instrument.token_chain m expiry) as [data|] eqn:Edata.
  2:{ cbn [key_truthy negb]. split; [discriminate|].
      intros H. inversion H. reflexivity. }
  rewrite FindTokenFacts.scan_token_first.
  destruct (find (FindToken.resolves ce0 CE) data) as [chain_item|] eqn:Efind.
  2:{ cbn [key_truthy negb]. split; [discriminate|].
      intros H. inversion H. reflexivity. }
  cbn [FindToken.option_data].
  destruct (FindToken.call_key chain_item) as [k|] eqn:Ek; cbn [option_map].
  2:{ cbn [key_truthy negb]. split; [discriminate|].
      intros H. inversion H. reflexivity. }
  destruct (key_truthy (Some (FindToken.last_field k))) eqn:Etoken; cbn [negb].
  2:{ split; [discriminate|]. intros H. inversion H. reflexivity. }
  split; [|discriminate].
  intros key ce_strike pe_strike H. inversion H. subst.
  exists expiry, data, chain_item, k.
  assert (Hagain : FindToken.last_field
                     ("NSE_FO|" ++ FindToken.last_field k)%string
                   = FindToken.last_field k).
  { change ("NSE_FO|" ++ FindToken.last_field k)%string
      with ("NSE_FO" ++ String "|" (FindToken.last_field k))%string.
    apply FindTokenFacts.last_field_of_key.
    apply FindTokenFacts.last_field_clean. }
  repeat (split; [first [reflexivity | assumption]|]).
  split.
  - intros token -> Hclean.
    change ("NSE_FO|" ++ token)%string
      with ("NSE_FO" ++ String "|" token)%string at 1.
    rewrite (FindTokenFacts.last_field_of_key _ _ Hclean). reflexivity.
  - split; [reflexivity|].
    unfold CE4Instrument.save_instrument_data.
    destruct (CE4Instrument.write_ok m); reflexivity.
Qed.

Lemma new_instrument_is_the_chain_key_witness :
  exists c',
    CE4Instrument.get_new_instrument demo_market no_cache
    = (Some ("NSE_FO|41234"%string, 24100, 24000), c')
    /\ c' = CE4Instrument.mkCache
              (Some (CE4Instrument.mkInstrumentData "NSE_FO|41234" 24100 24000
                       "2025-09-25"))
              true
    /\ exists chain_item,
         find (FindToken.resolves 24100 CE) keyed_chain = Some chain_item
         /\ FindToken.call_key chain_item = Some "NSE_FO|41234"%string.
Proof.
  destruct (CE4Instrument.get_new_instrument demo_market no_cache)
    as [r c'] eqn:E.
  assert (Hr : r = Some ("NSE_FO|41234"%string, 24100, 24000))
    by (vm_compute in E; injection E as <- _; reflexivity).
  subst r.
  destruct (proj1 (new_instrument_is_the_chain_key demo_market no_cache c')
              "NSE_FO|41234"%string 24100 24000 E)
    as (expiry & data & chain_item & k & Hsel & Hdata & Hfind & Hk & Hkey & _
        & _ & _ & Hc).
  exists c'. split; [reflexivity|].
  assert (He : expiry = "2025-09-25"%string)
    by (vm_compute in Hsel; injection Hsel as <-; reflexivity).
  subst expiry. split; [exact Hc|].
  injection Hdata as <-.
  exists chain_item. split; [exact Hfind|].
  vm_compute in Hfind. injection Hfind as <-. reflexivity.
Defined.

Module FindToken2Facts.
Import FindToken2.

Lemma listed_token_first (instruments : list Listed) (expiry : string)
    (strike : option Q) (option_type : Leg) :
  scan_token instruments expiry strike option_type
  = match find (resolves expiry strike option_type) instruments with
    | Some inst => instrument_token inst
    | None => None
    end.
Proof.
  induction instruments as [|inst rest IH]; [reflexivity|].
  cbn [scan_token find]. unfold resolves at 1.
  destruct (String.eqb _ expiry && strike_is _ strike && type_is _ option_type);
    [reflexivity|exact IH].
Qed.

(** A strike collected by [strike_prices] for a type at an expiry is the
    strike of a listed instrument that the token loop stops at. *)
Lemma collected_resolves (leg : Leg) (expiry : string)
    (instruments : list Listed) (x : Q) :
  In x (FindStrike2.strikes_of (type_of leg) expiry (map listing instruments)) ->
  exists inst, In inst instruments /\ resolves expiry (Some x) leg inst = true.
Proof.
  unfold FindStrike2.strikes_of. intros H.
  apply in_flat_map in H. destruct H as (i & Hi & Hx).
  apply in_map_iff in Hi. destruct Hi as (inst & <- & Hinst).
  exists inst. split; [exact Hinst|].
  unfold resolves.
  destruct (String.eqb (FindStrike2.expiry (listing inst)) expiry);
    cbn [negb] in Hx; [|contradiction].
  destruct (Py.truthy (FindStrike2.strike_price (listing inst)));
    cbn [negb] in Hx; [|contradiction].
  destruct (FindStrike2.strike_price (listing inst)) as [q|];
    [|destruct (FindStrike2.option_type (listing inst)), leg; contradiction].
  destruct (FindStrike2.option_type (listing inst)), leg; cbn in Hx;
    try contradiction; destruct Hx as [<- | []]; cbn;
    rewrite (proj2 (Qeq_bool_iff q q) (Qeq_refl q)); reflexivity.
Qed.

Lemma find_exists {A : Type} (f : A -> bool) (l : list A) (x : A) :
  In x l -> f x = true -> exists y, find f l = Some y.
Proof.
  intros Hin Hx. destruct (find f l) as [y|] eqn:E; [exists y; reflexivity|].
  rewrite (find_none f l E x Hin) in Hx. discriminate.
Qed.

End FindToken2Facts.

(** *** X10: the strike selected has a listing (trade_PE_CE1.py) *)

(** X10: when the instruments request and the token request of
    [get_new_instrument] of trade_PE_CE1.py see the same list and
    [strike_prices] selects strikes at an expiry other than ["0"], the token
    loop always finds an instrument: the first one listed with that expiry,
    the leg's type and the strike selected for the leg.  The call returns
    ["NSE_FO|<token>"] with both strikes for the token of that instrument and
    writes it to the leg's file, leaving the other leg's file alone; it
    returns nothing, and writes nothing, only when that token is absent or
    empty. *)
Theorem selected_strike_resolves (m : PECE1Instrument.Market)
    (files : PECE1Instrument.Files) (mode : Leg) (expiry : string)
    (ce_strike pe_strike : Q) :
  PECE1Instrument.token_response m = Some (PECE1Instrument.instruments m) ->
  FindStrike2.strike_prices
    (map FindToken2.listing (PECE1Instrument.instruments m))
    PECE1.LTP_LOWER_BOUND PECE1.LTP_UPPER_BOUND
  = (expiry, Some ce_strike, Some pe_strike) ->
  expiry <> "0"%string ->
  let strike := match mode with CE => ce_strike | PE => pe_strike end in
  exists inst,
    find (FindToken2.resolves expiry (Some strike) mode)
      (PECE1Instrument.instruments m) = Some inst
    /\ FindToken2.get_instrument_token (PECE1Instrument.token_response m)
         expiry (Some strike) mode
       = FindToken2.instrument_token inst
    /\ (key_truthy (FindToken2.instrument_token inst) = false ->
        PECE1Instrument.get_new_instrument m files mode = (None, files))
    /\ (forall token,
          FindToken2.instrument_token inst = Some token ->
          key_truthy (Some token) = true ->
          exists files',
            PECE1Instrument.get_new_instrument m files mode
            = (Some (("NSE_FO|" ++ token)%string, Some ce_strike, Some pe_strike),
               files')
            /\ files' (PECE1Log.other mode) = files (PECE1Log.other mode)
            /\ (PECE1Instrument.write_ok m = true ->
                PECE1Instrument.load_instrument_data files' true mode
                = Some (PECE1Instrument.mkInstrumentData
                          ("NSE_FO|" ++ token)%string (Some ce_strike)
                          (Some pe_strike) expiry))).
Proof.
  intros Hsame Hsel Hexp strike.
  assert (Hin : In strike
                  (FindStrike2.strikes_of (FindToken2.type_of mode) expiry
                     (map FindToken2.listing (PECE1Instrument.instruments m)))).
  { pose proof Hsel as H. unfold FindStrike2.strike_prices in H.
    destruct (map FindToken2.listing (PECE1Instrument.instruments m))
      as [|first others] eqn:E; [discriminate|].
    destruct (FindStrike2.nearest PECE1.LTP_LOWER_BOUND _) as [ce|] eqn:Ece;
      [|discriminate].
    destruct (FindStrike2.nearest PECE1.LTP_UPPER_BOUND _) as [pe|] eqn:Epe;
      [|discriminate].
    injection H as He Hce Hpe. subst ce pe. rewrite He in Ece, Epe.
    unfold strike. destruct mode; cbn [FindToken2.type_of].
    - exact (proj1 (FindStrike2Facts.nearest_least _ _ _ Ece)).
    - exact (proj1 (FindStrike2Facts.nearest_least _ _ _ Epe)). }
  destruct (FindToken2Facts.collected_resolves mode expiry _ strike Hin)
    as (inst0 & Hinst0 & Hres0).
  destruct (FindToken2Facts.find_exists _ _ inst0 Hinst0 Hres0) as (inst & Hfind).
  assert (Htoken : FindToken2.get_instrument_token
                     (PECE1Instrument.token_response m) expiry (Some strike) mode
                   = FindToken2.instrument_token inst).
  { rewrite Hsame. unfold FindToken2.get_instrument_token.
    rewrite FindToken2Facts.listed_token_first, Hfind. reflexivity. }
  assert (Hne : String.eqb expiry "0" = false)
    by (apply String.eqb_neq; exact Hexp).
  exists inst. split; [exact Hfind|]. split; [exact Htoken|].
  unfold PECE1Instrument.get_new_instrument. rewrite Hsel, Hne.
  replace (match mode with CE => Some ce_strike | PE => Some pe_strike end)
    with (Some strike) by (destruct mode; reflexivity).
  rewrite Htoken.
  split.
  - intros Hfalsy. rewrite Hfalsy. reflexivity.
  - intros token Ht Htruthy. rewrite Ht, Htruthy. cbn [negb].
    eexists. split; [reflexivity|].
    unfold PECE1Instrument.save_instrument_data,
      PECE1Instrument.load_instrument_data.
    split.
    + destruct (PECE1Instrument.write_ok m); [|reflexivity].
      destruct mode; reflexivity.
    + intros ->. destruct mode; reflexivity.
Qed.

Lemma selected_strike_resolves_witness :
  exists inst,
    find (FindToken2.resolves "2025-09-25" (Some 210) PE) listed_strikes
    = Some inst
    /\ FindToken2.instrument_token inst = Some "51006"%string
    /\ exists files',
         PECE1Instrument.get_new_instrument listed_market no_files PE
         = (Some ("NSE_FO|51006"%string, Some 90, Some 210), files')
         /\ files' CE = None.
Proof.
  assert (Hsel : FindStrike2.strike_prices
                   (map FindToken2.listing
                      (PECE1Instrument.instruments listed_market))
                   PECE1.LTP_LOWER_BOUND PECE1.LTP_UPPER_BOUND
                 = ("2025-09-25"%string, Some 90, Some 210))
    by (vm_compute; reflexivity).
  assert (Hexp : "2025-09-25"%string <> "0"%string) by discriminate.
  destruct (selected_strike_resolves listed_market no_files PE "2025-09-25" 90
              210 eq_refl Hsel Hexp) as (inst & Hfind & _ & _ & Hkey).
  assert (Ht : FindToken2.instrument_token inst = Some "51006"%string)
    by (vm_compute in Hfind; injection Hfind as <-; reflexivity).
  exists inst. split; [exact Hfind|]. split; [exact Ht|].
  destruct (Hkey "51006"%string Ht eq_refl) as (files' & Hnew & Hother & _).
  exists files'. split; [exact Hnew|exact Hother].
Defined.

(** ** The order of expiries and the first of the closest strikes *)

Module FindStrike2OrderFacts.
Import FindStrike2.

Lemma ascii_compare_refl (a : ascii) : Ascii.compare a a = Eq.
Proof. unfold Ascii.compare. apply N.compare_refl. Qed.

Lemma ascii_lt_trans (a b c : ascii) :
  Ascii.compare a b = Lt -> Ascii.compare b c = Lt -> Ascii.compare a c = Lt.
Proof.
  unfold Ascii.compare. rewrite !N.compare_lt_iff. apply N.lt_trans.
Qed.

Lemma string_lt_trans :
  forall a b c : string,
    String.compare a b = Lt -> String.compare b c = Lt ->
    String.compare a c = Lt.
Proof.
  induction a as [|x a IH]; intros [|y b] [|z c]; cbn [String.compare];
    try discriminate; try reflexivity.
  destruct (Ascii.compare x y) eqn:Exy; try discriminate;
    destruct (Ascii.compare y z) eqn:Eyz; try discriminate.
  - apply Ascii.compare_eq_iff in Exy. apply Ascii.compare_eq_iff in Eyz.
    subst. rewrite ascii_compare_refl. apply IH.
  - apply Ascii.compare_eq_iff in Exy. subst. rewrite Eyz. reflexivity.
  - apply Ascii.compare_eq_iff in Eyz. subst. rewrite Exy. reflexivity.
  - rewrite (ascii_lt_trans x y z Exy Eyz). reflexivity.
Qed.

Lemma ltb_trans (a b c : string) :
  String.ltb a b = true -> String.ltb b c = true -> String.ltb a c = true.
Proof.
  unfold String.ltb. intros Hab Hbc.
  destruct (String.compare a b) eqn:Eab; try discriminate.
  destruct (String.compare b c) eqn:Ebc; try discriminate.
  rewrite (string_lt_trans a b c Eab Ebc). reflexivity.
Qed.

(** [a < b] and not [c < b] give [a < c]. *)
Lemma ltb_before (a b c : string) :
  String.ltb a b = true -> String.ltb c b = false -> String.ltb a c = true.
Proof.
  intros Hab Hcb. unfold String.ltb in Hcb.
  destruct (String.compare c b) eqn:E; try discriminate.
  - apply String.compare_eq_iff in E. subst. exact Hab.
  - rewrite String.compare_antisym in E.
    apply (ltb_trans a b c Hab). unfold String.ltb.
    destruct (String.compare b c); try discriminate. reflexivity.
Qed.

Lemma ltb_irrefl (a : string) : String.ltb a a = false.
Proof.
  unfold String.ltb. destruct (String.compare a a) eqn:E; try reflexivity.
  pose proof (String.compare_antisym a a) as H. rewrite E in H. discriminate.
Qed.

(** [sorted(...)[0]]: an element that no element is smaller than. *)
Lemma smallest_least (others : list string) :
  forall first,
    In (smallest first others) (first :: others)
    /\ forall x, In x (first :: others) ->
         String.ltb x (smallest first others) = false.
Proof.
  induction others as [|x rest IH]; intros first; cbn [smallest].
  - split; [left; reflexivity|].
    intros y [<- | []]. apply ltb_irrefl.
  - destruct (IH (if String.ltb x first then x else first)) as [Hin Hleast].
    set (r := smallest (if String.ltb x first then x else first) rest) in *.
    destruct (String.ltb x first) eqn:E.
    + split.
      * destruct Hin as [<- | Hin];
          [right; left; reflexivity|right; right; exact Hin].
      * intros y [Hy | [Hy | Hy]].
        -- subst y. destruct (String.ltb first r) eqn:Efr; [|reflexivity].
           pose proof (Hleast x (or_introl eq_refl)) as Hx.
           rewrite (ltb_trans x first r E Efr) in Hx. discriminate.
        -- subst y. apply Hleast. left. reflexivity.
        -- apply Hleast. right. exact Hy.
    + split.
      * destruct Hin as [<- | Hin];
          [left; reflexivity|right; right; exact Hin].
      * intros y [Hy | [Hy | Hy]].
        -- subst y. apply Hleast. left. reflexivity.
        -- subst y. destruct (String.ltb x r) eqn:Exr; [|reflexivity].
           pose proof (Hleast first (or_introl eq_refl)) as Hf.
           rewrite (ltb_before x r first Exr Hf) in E. discriminate.
        -- apply Hleast. right. exact Hy.
Qed.

(** [min(..., key=...)] returns the first of the elements at the least
    distance. *)
Lemma nearest_from_first (bound : Q) (strikes : list Q) :
  forall best,
    (nearest_from bound best strikes = best
     /\ forall x, In x strikes -> Qabs (best - bound) <= Qabs (x - bound))
    \/ exists pre post,
         strikes = pre ++ nearest_from bound best strikes :: post
         /\ Qabs (nearest_from bound best strikes - bound) < Qabs (best - bound)
         /\ forall x, In x pre ->
              Qabs (nearest_from bound best strikes - bound)
              < Qabs (x - bound).
Proof.
  induction strikes as [|x rest IH]; intros best; cbn [nearest_from].
  - left. split; [reflexivity|]. intros x [].
  - destruct (Py.ltb (Qabs (x - bound)) (Qabs (best - bound))) eqn:E.
    + apply PyFacts.ltb_lt in E. right.
      destruct (IH x) as [[Hr Hrest] | (pre & post & Hsplit & Hlt & Hpre)].
      * exists [], rest. rewrite Hr. split; [reflexivity|].
        split; [exact E|]. intros y [].
      * exists (x :: pre), post. split; [cbn [app]; f_equal; exact Hsplit|].
        split; [apply Qlt_trans with (y := Qabs (x - bound)); assumption|].
        intros y [<- | Hy]; [exact Hlt|apply Hpre; exact Hy].
    + apply PyFacts.ltb_ge in E.
      destruct (IH best) as [[Hr Hrest] | (pre & post & Hsplit & Hlt & Hpre)].
      * left. split; [exact Hr|].
        intros y [<- | Hy]; [exact E|apply Hrest; exact Hy].
      * right. exists (x :: pre), post.
        split; [cbn [app]; f_equal; exact Hsplit|].
        split; [exact Hlt|].
        intros y [<- | Hy];
          [apply Qlt_le_trans with (y := Qabs (best - bound)); assumption
          |apply Hpre; exact Hy].
Qed.

Lemma nearest_first (bound : Q) (strikes : list Q) (r : Q) :
  nearest bound strikes = Some r ->
  exists pre post,
    strikes = pre ++ r :: post
    /\ forall x, In x pre -> Qabs (r - bound) < Qabs (x - bound).
Proof.
  destruct strikes as [|x rest]; [discriminate|].
  cbn [nearest]. intros H. injection H as <-.
  destruct (nearest_from_first bound rest x)
    as [[Hr _] | (pre & post & Hsplit & Hlt & Hpre)].
  - exists [], rest. rewrite Hr. split; [reflexivity|]. intros y [].
  - exists (x :: pre), post. split; [cbn [app]; f_equal; exact Hsplit|].
    intros y [<- | Hy]; [exact Hlt|apply Hpre; exact Hy].
Qed.

End FindStrike2OrderFacts.

(** *** X11: the expiry and the ties of findstrikeprice2.py *)

(** X11: when [strike_prices] of findstrikeprice2.py returns strikes, the
    expiry it returns is an expiry of the list that no expiry of the list
    is smaller than (in the order of strings), and each strike returned is
    the first, in listed order among the strikes of its type at that expiry,
    of those at the least distance from its bound: no strike of the type at
    that expiry is closer to the bound, and every strike listed before it is
    strictly farther. *)
Theorem earliest_expiry_first_closest
    (instruments : list FindStrike2.Instrument) (lower_bound upper_bound : Q)
    (nearest_expiry : string) (ce_strike pe_strike : Q) :
  FindStrike2.strike_prices instruments lower_bound upper_bound
  = (nearest_expiry, Some ce_strike, Some pe_strike) ->
  In nearest_expiry (map FindStrike2.expiry instruments)
  /\ (forall inst, In inst instruments ->
        String.ltb (FindStrike2.expiry inst) nearest_expiry = false)
  /\ (forall x,
        In x (FindStrike2.strikes_of FindStrike2.CE_type nearest_expiry
                instruments) ->
        Qabs (ce_strike - lower_bound) <= Qabs (x - lower_bound))
  /\ (exists pre post,
         FindStrike2.strikes_of FindStrike2.CE_type nearest_expiry instruments
         = pre ++ ce_strike :: post
         /\ forall x, In x pre ->
              Qabs (ce_strike - lower_bound) < Qabs (x - lower_bound))
  /\ (forall x,
        In x (FindStrike2.strikes_of FindStrike2.PE_type nearest_expiry
                instruments) ->
        Qabs (pe_strike - upper_bound) <= Qabs (x - upper_bound))
  /\ (exists pre post,
         FindStrike2.strikes_of FindStrike2.PE_type nearest_expiry instruments
         = pre ++ pe_strike :: post
         /\ forall x, In x pre ->
              Qabs (pe_strike - upper_bound) < Qabs (x - upper_bound)).
Proof.
  intros H. unfold FindStrike2.strike_prices in H.
  destruct instruments as [|first others]; [discriminate|].
  destruct (FindStrike2.nearest lower_bound _) as [ce|] eqn:Ece; [|discriminate].
  destruct (FindStrike2.nearest upper_bound _) as [pe|] eqn:Epe; [|discriminate].
  injection H as He Hce Hpe. subst ce pe. rewrite He in Ece, Epe.
  destruct (FindStrike2OrderFacts.smallest_least
              (map FindStrike2.expiry others) (FindStrike2.expiry first))
    as [Hin Hleast].
  rewrite He in Hin, Hleast.
  split; [exact Hin|]. split.
  - intros inst Hinst. apply Hleast.
    change (FindStrike2.expiry first :: map FindStrike2.expiry others)
      with (map FindStrike2.expiry (first :: others)).
    apply in_map. exact Hinst.
  - split; [exact (proj2 (FindStrike2Facts.nearest_least _ _ _ Ece))|].
    split; [exact (FindStrike2OrderFacts.nearest_first _ _ _ Ece)|].
    split; [exact (proj2 (FindStrike2Facts.nearest_least _ _ _ Epe))|].
    exact (FindStrike2OrderFacts.nearest_first _ _ _ Epe).
Qed.

Lemma earliest_expiry_first_closest_witness :
  In "2025-09-25"%string (map FindStrike2.expiry three_strikes)
  /\ (forall x,
        In x (FindStrike2.strikes_of FindStrike2.CE_type "2025-09-25"
                three_strikes) ->
        Qabs (90 - 100) <= Qabs (x - 100))
  /\ exists pre post,
       FindStrike2.strikes_of FindStrike2.CE_type "2025-09-25" three_strikes
       = pre ++ 90 :: post
       /\ forall x, In x pre -> Qabs (90 - 100) < Qabs (x - 100).
Proof.
  assert (Hsel : FindStrike2.strike_prices three_strikes 100 200
                 = ("2025-09-25"%string, Some 90, Some 210))
    by (vm_compute; reflexivity).
  destruct (earliest_expiry_first_closest three_strikes 100 200 "2025-09-25"
              90 210 Hsel) as (Hin & _ & Hleast & Hce & _).
  split; [exact Hin|]. split; [exact Hleast|exact Hce].
Defined.

(** ** The log buffer *)

Module PECE1JournalFacts.
Import PECE1Journal.

Lemma last_n_short {A : Type} (n : nat) (l : list A) :
  (List.length l <= n)%nat -> last_n n l = l.
Proof.
  intros H. unfold last_n.
  replace (List.length l - n)%nat with 0%nat by lia. reflexivity.
Qed.

Lemma last_n_length {A : Type} (n : nat) (l : list A) :
  List.length (last_n n l) = Nat.min n (List.length l).
Proof. unfold last_n. rewrite length_skipn. lia. Qed.

(** Cutting before appending changes nothing of what a later cut keeps. *)
Lemma last_n_app {A : Type} (n : nat) (l l' : list A) :
  last_n n (last_n n l ++ l') = last_n n (l ++ l').
Proof.
  destruct (Nat.le_gt_cases (List.length l) n) as [Hshort | Hlong].
  - rewrite (last_n_short n l Hshort). reflexivity.
  - unfold last_n at 1 3. rewrite !length_app, last_n_length.
    unfold last_n. rewrite !skipn_app, skipn_skipn, length_skipn.
    f_equal; f_equal; lia.
Qed.

Section Indicators.

Variables LIVE_IND PAPER_IND : string.
Variable is_live : bool.

Lemma log_last_n (buffer : list LogEntry) (timestamp msg : string) :
  log LIVE_IND PAPER_IND is_live buffer timestamp msg
  = last_n 100 (buffer ++ [entry LIVE_IND PAPER_IND is_live timestamp msg]).
Proof.
  unfold log.
  destruct (100 <? List.length (buffer ++ [entry LIVE_IND PAPER_IND is_live
                                        timestamp msg]))%nat eqn:E;
    [reflexivity|].
  apply Nat.ltb_ge in E. symmetry. apply last_n_short. exact E.
Qed.

Lemma log_all_last_n (lines : list (string * string)) :
  forall buffer,
    last_n 100 (log_all LIVE_IND PAPER_IND is_live buffer lines)
    = last_n 100
        (buffer
         ++ map (fun line => entry LIVE_IND PAPER_IND is_live (fst line)
                               (snd line)) lines).
Proof.
  induction lines as [|line lines IH]; intros buffer; cbn [log_all fold_left map].
  - rewrite app_nil_r. reflexivity.
  - fold (log_all LIVE_IND PAPER_IND is_live
            (log LIVE_IND PAPER_IND is_live buffer (fst line) (snd line)) lines).
    rewrite IH, log_last_n, last_n_app, <- app_assoc. reflexivity.
Qed.

Lemma log_all_bounded (lines : list (string * string)) :
  forall buffer,
    (List.length buffer <= 100)%nat ->
    (List.length (log_all LIVE_IND PAPER_IND is_live buffer lines) <= 100)%nat.
Proof.
  induction lines as [|line lines IH]; intros buffer Hb; cbn [log_all fold_left].
  - exact Hb.
  - apply IH. rewrite log_last_n, last_n_length. lia.
Qed.

End Indicators.

End PECE1JournalFacts.

(** *** X12: the log buffer of trade_PE_CE1.py *)

(** X12: a buffer of at most 100 entries stays one through any number of
    [log] calls, and after them it holds the most recent entries, at most
    100 of them, oldest first: the last 100 of the old buffer followed by one
    entry per call, each made of the clock reading and of the reading, the
    mode indicator in brackets and the message. *)
Theorem log_keeps_the_last_hundred (LIVE_IND PAPER_IND : string)
    (is_live : bool) (buffer : list PECE1Journal.LogEntry)
    (lines : list (string * string)) :
  (List.length buffer <= 100)%nat ->
  (List.length (PECE1Journal.log_all LIVE_IND PAPER_IND is_live buffer lines)
   <= 100)%nat
  /\ PECE1Journal.log_all LIVE_IND PAPER_IND is_live buffer lines
     = PECE1Journal.last_n 100
         (buffer
          ++ map (fun line =>
                    PECE1Journal.entry LIVE_IND PAPER_IND is_live (fst line)
                      (snd line)) lines).
Proof.
  intros Hb.
  pose proof (PECE1JournalFacts.log_all_bounded LIVE_IND PAPER_IND is_live lines
                buffer Hb) as Hlen.
  split; [exact Hlen|].
  rewrite <- PECE1JournalFacts.log_all_last_n.
  symmetry. apply PECE1JournalFacts.last_n_short. exact Hlen.
Qed.

Lemma log_keeps_the_last_hundred_witness :
  PECE1Journal.log_all "LIVE" "PAPER" false []
    [("09:20:00", "Starting"); ("09:20:02", "Loop ended")]%string
  = PECE1Journal.last_n 100
      ([] ++ map (fun line =>
                    PECE1Journal.entry "LIVE" "PAPER" false (fst line)
                      (snd line))
               [("09:20:00", "Starting"); ("09:20:02", "Loop ended")]%string).
Proof.
  assert (Hb : (@List.length PECE1Journal.LogEntry [] <= 100)%nat)
    by (cbn; lia).
  exact (proj2 (log_keeps_the_last_hundred "LIVE" "PAPER" false []
                  [("09:20:00", "Starting"); ("09:20:02", "Loop ended")]%string
                  Hb)).
Defined.

(** *** X13: the trades in memory and the trades file (trade_CE4.py) *)

(** X13: an order of trade_CE4.py that fails changes nothing.  One that goes
    through makes one record; if the day's trades file can be rewritten, the
    file (the paper file in paper mode, the live file in live mode) gains
    that record and the list in memory becomes the file's content, whatever
    the list held before, so that records whose save had failed are no
    longer in it; if the file cannot be rewritten, the files stay as they
    were and the list gains the record in paper mode and stays as it was in
    live mode. *)
Theorem saved_trades_mirror_the_file (is_live : bool) (L L' : CE4.Ledger)
    (gw : Gateway) (key : Key) (side : Side) (price : option Q) (ok : bool) :
  CE4.place_order is_live L gw key side price = (ok, L') ->
  (ok = false -> L' = L)
  /\ (ok = true ->
      exists t,
        action t = side /\ trade_key t = key
        /\ (save_ok gw = true ->
            if is_live
            then CE4.live_file L' = CE4.live_file L ++ [t]
                 /\ CE4.paper_file L' = CE4.paper_file L
                 /\ CE4.paper_trades L' = CE4.live_file L'
            else CE4.paper_file L' = CE4.paper_file L ++ [t]
                 /\ CE4.live_file L' = CE4.live_file L
                 /\ CE4.paper_trades L' = CE4.paper_file L')
        /\ (save_ok gw = false ->
            CE4.paper_file L' = CE4.paper_file L
            /\ CE4.live_file L' = CE4.live_file L
            /\ CE4.paper_trades L'
               = if is_live then CE4.paper_trades L
                 else CE4.paper_trades L ++ [t])).
Proof.
  unfold CE4.place_order.
  destruct (Py.truthy (Py.or_else price (rest_ltp gw))); cbn [negb];
    [|intros H; inversion H; split; [reflexivity|discriminate]].
  destruct (Py.or_else price (rest_ltp gw)) as [current_price|];
    [|intros H; inversion H; split; [reflexivity|discriminate]].
  assert (Hsettled : forall trades pnl t0,
            action t0 = SELL -> trade_key t0 = key ->
            action (fst (CE4.settle_sell is_live trades pnl key t0)) = SELL
            /\ trade_key (fst (CE4.settle_sell is_live trades pnl key t0)) = key).
  { intros trades pnl t0 Ha Hk. unfold CE4.settle_sell.
    destruct (last_buy trades key); cbn [fst]; split; try assumption;
      reflexivity. }
  destruct is_live; cbn [negb].
  - destruct (post_ok gw);
      [|intros H; inversion H; split; [reflexivity|discriminate]].
    destruct side.
    + intros H. inversion H. subst. split; [discriminate|]. intros _.
      exists (mkTrade key CE4.STRIKE_PRICE_MODE BUY CE4.LOT_SIZE
                (Py.round2 current_price) true None None None None).
      split; [reflexivity|]. split; [reflexivity|].
      unfold CE4.save_trade.
      split; intros ->; cbn; repeat split.
    + destruct (CE4.settle_sell true (CE4.paper_trades L) (CE4.overall_pnl L)
                  key _) as [t1 pnl1] eqn:E.
      intros H. inversion H. subst. split; [discriminate|]. intros _.
      exists t1.
      match type of E with
      | CE4.settle_sell true ?trades ?pnl key ?t0 = _ =>
        pose proof (Hsettled trades pnl t0 eq_refl eq_refl) as Ht
      end.
      rewrite E in Ht. cbn [fst] in Ht. destruct Ht as [Ha Hk].
      split; [exact Ha|]. split; [exact Hk|].
      unfold CE4.save_trade.
      split; intros ->; cbn; repeat split.
  - destruct side.
    + intros H. inversion H. subst. split; [discriminate|]. intros _.
      exists (mkTrade key CE4.STRIKE_PRICE_MODE BUY CE4.LOT_SIZE
                (Py.round2 current_price) false None None None None).
      split; [reflexivity|]. split; [reflexivity|].
      unfold CE4.save_trade.
      split; intros ->; cbn; repeat split.
    + destruct (CE4.settle_sell false _ (CE4.overall_pnl L) key _)
        as [t1 pnl1] eqn:E.
      intros H. inversion H. subst. split; [discriminate|]. intros _.
      exists t1.
      match type of E with
      | CE4.settle_sell false ?trades ?pnl key ?t0 = _ =>
        pose proof (Hsettled trades pnl t0 eq_refl eq_refl) as Ht
      end.
      rewrite E in Ht. cbn [fst] in Ht. destruct Ht as [Ha Hk].
      split; [exact Ha|]. split; [exact Hk|].
      unfold CE4.save_trade.
      split; intros ->; cbn; repeat split.
Qed.

Lemma saved_trades_mirror_the_file_witness :
  exists L' t,
    CE4.place_order false CE4.empty_ledger demo_gateway demo_key BUY (Some 100)
    = (true, L')
    /\ action t = BUY
    /\ CE4.paper_file L' = CE4.paper_file CE4.empty_ledger ++ [t]
    /\ CE4.paper_trades L' = CE4.paper_file L'.
Proof.
  destruct (CE4.place_order false CE4.empty_ledger demo_gateway demo_key BUY
              (Some 100)) as [ok L'] eqn:E.
  assert (Hok : ok = true) by (vm_compute in E; injection E as <- _; reflexivity).
  subst ok.
  destruct (proj2 (saved_trades_mirror_the_file false CE4.empty_ledger L'
                     demo_gateway demo_key BUY (Some 100) true E) eq_refl)
    as (t & Ha & _ & Hsaved & _).
  destruct (Hsaved eq_refl) as (Hfile & _ & Hmem).
  exists L', t. repeat split; assumption.
Defined.

(** ** The cache of index instruments *)

Module PECE1IndexFacts.
Import PECE1Index.

Lemma lookup_assign (k k' : string) (v : IndexInstrument) (d : Cache) :
  lookup k (assign k' v d) = if String.eqb k' k then Some v else lookup k d.
Proof.
  induction d as [|[k0 v0] rest IH]; cbn [assign lookup]; [reflexivity|].
  destruct (String.eqb k0 k') eqn:E0; cbn [lookup].
  - apply String.eqb_eq in E0. subst k0.
    destruct (String.eqb k' k); reflexivity.
  - rewrite IH. destruct (String.eqb k0 k) eqn:E1; [|reflexivity].
    apply String.eqb_eq in E1. subst k0. rewrite String.eqb_sym, E0.
    reflexivity.
Qed.

Lemma assign_not_nil (k : string) (v : IndexInstrument) (d : Cache) :
  assign k v d <> [].
Proof.
  destruct d as [|[k0 v0] rest]; cbn [assign]; [discriminate|].
  destruct (String.eqb k0 k); discriminate.
Qed.

Lemma cache_one_not_nil (d : Cache) (i : IndexInstrument) : cache_one d i <> [].
Proof.
  unfold cache_one. destruct (String.eqb (segment i) "NSE_INDEX");
    apply assign_not_nil.
Qed.

Lemma filled_not_nil (data : list IndexInstrument) :
  data <> [] -> fold_left cache_one data [] <> [].
Proof.
  intros H. destruct (exists_last H) as (l & i & ->).
  rewrite fold_left_app. cbn [fold_left]. apply cache_one_not_nil.
Qed.

(** The keys under which the loop stores an instrument. *)
Lemma lookup_cache_one (k : string) (d : Cache) (i : IndexInstrument) :
  lookup k (cache_one d i)
  = if String.eqb (cache_key (segment i) (trading_symbol i)) k
       || (String.eqb (segment i) "NSE_INDEX"
           && String.eqb (cache_key (segment i) (name i)) k)
    then Some i else lookup k d.
Proof.
  unfold cache_one.
  destruct (String.eqb (segment i) "NSE_INDEX"); cbn [andb].
  - rewrite !lookup_assign.
    destruct (String.eqb (cache_key (segment i) (name i)) k);
      destruct (String.eqb (cache_key (segment i) (trading_symbol i)) k);
      reflexivity.
  - rewrite lookup_assign, orb_false_r. reflexivity.
Qed.

Lemma lookup_filled (k : string) (data : list IndexInstrument) (d : Cache) :
  lookup k (fold_left cache_one data d)
  = match
      find (fun i =>
              String.eqb (cache_key (segment i) (trading_symbol i)) k
              || (String.eqb (segment i) "NSE_INDEX"
                  && String.eqb (cache_key (segment i) (name i)) k))
        (rev data)
    with
    | Some i => Some i
    | None => lookup k d
    end.
Proof.
  induction data as [|i l IH] using rev_ind; [reflexivity|].
  rewrite fold_left_app, rev_app_distr. cbn [fold_left rev app find].
  rewrite lookup_cache_one.
  destruct (String.eqb (cache_key (segment i) (trading_symbol i)) k
            || (String.eqb (segment i) "NSE_INDEX"
                && String.eqb (cache_key (segment i) (name i)) k));
    [reflexivity|exact IH].
Qed.

(** A key determines its segment and symbol when the segments have no bar. *)
Lemma cache_key_inj (a b c d : string) :
  FindToken.contains "|" a = false ->
  FindToken.contains "|" c = false ->
  cache_key a b = cache_key c d -> a = c /\ b = d.
Proof.
  unfold cache_key. revert c.
  induction a as [|x a IH]; intros [|y c]; cbn [append FindToken.contains];
    intros Ha Hc H.
  - injection H as H. split; [reflexivity|exact H].
  - injection H as Hy _. subst y. cbn in Hc. discriminate Hc.
  - injection H as Hx _. subst x. cbn in Ha. discriminate Ha.
  - injection H as Hx H. subst y.
    apply orb_false_iff in Ha. apply orb_false_iff in Hc.
    destruct (IH c (proj2 Ha) (proj2 Hc) H) as [-> ->].
    split; reflexivity.
Qed.

Lemma cache_key_eqb (a b c d : string) :
  FindToken.contains "|" a = false ->
  FindToken.contains "|" c = false ->
  String.eqb (cache_key a b) (cache_key c d)
  = String.eqb a c && String.eqb b d.
Proof.
  intros Ha Hc.
  destruct (String.eqb (cache_key a b) (cache_key c d)) eqn:E.
  - apply String.eqb_eq in E.
    destruct (cache_key_inj a b c d Ha Hc E) as [-> ->].
    rewrite !String.eqb_refl. reflexivity.
  - destruct (String.eqb a c) eqn:E1; [|reflexivity].
    destruct (String.eqb b d) eqn:E2; [|reflexivity].
    apply String.eqb_eq in E1. apply String.eqb_eq in E2. subst.
    rewrite String.eqb_refl in E. discriminate E.
Qed.

Lemma find_pointwise {A : Type} (f g : A -> bool) (l : list A) :
  Forall (fun x => f x = g x) l -> find f l = find g l.
Proof.
  induction 1 as [|x l Hx _ IH]; cbn [find]; [reflexivity|].
  rewrite Hx, IH. reflexivity.
Qed.

Lemma lookup_listed (data : list IndexInstrument) (segment symbol : string) :
  FindToken.contains "|" segment = false ->
  Forall (fun i => FindToken.contains "|" (PECE1Index.segment i) = false)
    data ->
  lookup (cache_key segment symbol) (fold_left cache_one data [])
  = find (listed_as segment symbol) (rev data).
Proof.
  intros Hseg Hdata. rewrite lookup_filled. cbn [lookup].
  rewrite (find_pointwise _ (listed_as segment symbol) (rev data)).
  - destruct (find (listed_as segment symbol) (rev data)); reflexivity.
  - apply Forall_rev. revert Hdata. apply Forall_impl. intros i Hi.
    unfold listed_as. rewrite !(cache_key_eqb _ _ _ _ Hi Hseg).
    destruct (String.eqb (PECE1Index.segment i) segment);
      destruct (String.eqb (trading_symbol i) symbol);
      destruct (String.eqb (PECE1Index.segment i) "NSE_INDEX");
      reflexivity.
Qed.

End PECE1IndexFacts.

(** X14 (trade_PE_CE1.py, [download_instruments] and
    [get_cached_instrument]).  When no segment contains a bar, a lookup of
    segment and symbol after a download returns the last element of the
    downloaded list that has the segment and either the symbol as its
    trading symbol or, in segment NSE_INDEX, as its name, and nothing when
    there is none.  For six hours after the download a lookup answers from
    the cache and leaves it as it is, whatever the instruments file would
    give; once the six hours are over, a lookup whose download fails returns
    nothing, although the cache still holds the instrument. *)
Theorem cached_instrument_is_the_last_listed
    (data : list PECE1Index.IndexInstrument) (now : Q)
    (st : PECE1Index.Store) (segment symbol : string) :
  FindToken.contains "|" segment = false ->
  Forall (fun i => FindToken.contains "|" (PECE1Index.segment i) = false)
    data ->
  let st' := snd (PECE1Index.download_instruments (Some data) now st) in
  let found := find (PECE1Index.listed_as segment symbol) (rev data) in
  PECE1Index.lookup (PECE1Index.cache_key segment symbol)
    (PECE1Index.instruments_cache st') = found
  /\ (forall now_check now_download response,
        data <> [] -> 0 <= now -> now_check <= now + 6 * 60 * 60 ->
        PECE1Index.get_cached_instrument st' now_check now_download response
          segment symbol = (found, st'))
  /\ (forall now_check now_download,
        now + 6 * 60 * 60 < now_check ->
        PECE1Index.get_cached_instrument st' now_check now_download None
          segment symbol = (None, st')).
Proof.
  intros Hseg Hdata st' found.
  assert (Hfound :
    PECE1Index.lookup (PECE1Index.cache_key segment symbol)
      (PECE1Index.instruments_cache st') = found)
    by exact (PECE1IndexFacts.lookup_listed data segment symbol Hseg Hdata).
  split; [exact Hfound|]. split.
  - intros now_check now_download response Hne Hnow Hcheck.
    unfold PECE1Index.get_cached_instrument.
    assert (Hfresh : PECE1Index.stale st' now_check = false).
    { unfold PECE1Index.stale.
      pose proof (PECE1IndexFacts.filled_not_nil data Hne) as Hfilled.
      subst st'. cbn [PECE1Index.download_instruments snd
                      PECE1Index.instruments_cache PECE1Index.cache_expiry].
      destruct (fold_left PECE1Index.cache_one data []) as [|e rest];
        [contradiction|].
      apply orb_false_iff. split.
      - apply negb_false_iff. unfold Py.truthy. apply negb_true_iff.
        destruct (Qeq_bool (now + 6 * 60 * 60) 0) eqn:E; [|reflexivity].
        apply Qeq_bool_iff in E. lra.
      - unfold Py.ltb. apply negb_false_iff. apply Qle_bool_iff. exact Hcheck. }
    rewrite Hfresh. cbn [negb]. rewrite Hfound.
    destruct found; [reflexivity|].
    destruct (String.eqb segment "NSE_INDEX"); reflexivity.
  - intros now_check now_download Hlate.
    unfold PECE1Index.get_cached_instrument.
    assert (Hstale : PECE1Index.stale st' now_check = true).
    { unfold PECE1Index.stale. subst st'.
      cbn [PECE1Index.download_instruments snd
           PECE1Index.instruments_cache PECE1Index.cache_expiry].
      destruct (fold_left PECE1Index.cache_one data []) as [|e rest];
        [reflexivity|].
      apply orb_true_iff. right. unfold Py.ltb. apply negb_true_iff.
      destruct (Qle_bool now_check (now + 6 * 60 * 60)) eqn:E; [|reflexivity].
      apply Qle_bool_iff in E. lra. }
    rewrite Hstale. reflexivity.
Qed.

Lemma cached_instrument_is_the_last_listed_witness :
  PECE1Index.get_cached_instrument
    (snd (PECE1Index.download_instruments (Some index_listing) 1000
            (PECE1Index.mkStore [] None)))
    2000 2000 None "NSE_INDEX" "Nifty 50"
  = (Some (PECE1Index.mkIndexInstrument "NSE_INDEX" "NIFTY 50" "Nifty 50"
             "26001" "NSE_INDEX|Nifty 50"),
     snd (PECE1Index.download_instruments (Some index_listing) 1000
            (PECE1Index.mkStore [] None))).
Proof.
  refine (proj1 (proj2 (cached_instrument_is_the_last_listed index_listing 1000
                   (PECE1Index.mkStore [] None) "NSE_INDEX" "Nifty 50"
                   _ _)) 2000 2000 None _ _ _).
  - reflexivity.
  - repeat constructor.
  - discriminate.
  - vm_compute. discriminate.
  - vm_compute. discriminate.
Defined.

(** ** Market hours *)

Module CE4ClockFacts.
Import CE4Clock.

(** The order of the tuples is the order of the times of day. *)
Lemma leb_of_day (a b : Time) :
  valid a -> valid b -> (leb a b = true <-> (of_day a <= of_day b)%Z).
Proof.
  destruct a as [ha ma sa ua], b as [hb mb sb ub].
  unfold valid, leb, of_day.
  cbn [hour minute second microsecond].
  intros Ha Hb.
  repeat first [rewrite orb_true_iff | rewrite andb_true_iff].
  rewrite !Z.ltb_lt, !Z.eqb_eq, Z.leb_le.
  lia.
Qed.

End CE4ClockFacts.

(** X15 (trade_CE4.py, [is_market_open]).  The market counts as open
    exactly from 09:20:00 to 15:30:00 of the day, both ends included: at
    15:30:00.000000 it is open, one microsecond later it is closed. *)
Theorem market_open_from_0920_to_1530 (now : CE4Clock.Time) :
  CE4Clock.valid now ->
  (CE4Clock.is_market_open now = true
   <-> (33600000000 <= CE4Clock.of_day now <= 55800000000)%Z).
Proof.
  intros Hnow. unfold CE4Clock.is_market_open.
  assert (Hopen : CE4Clock.valid (CE4Clock.dtime 9 20))
    by (unfold CE4Clock.valid; cbn; lia).
  assert (Hclose : CE4Clock.valid (CE4Clock.dtime 15 30))
    by (unfold CE4Clock.valid; cbn; lia).
  rewrite andb_true_iff.
  rewrite (CE4ClockFacts.leb_of_day _ _ Hopen Hnow).
  rewrite (CE4ClockFacts.leb_of_day _ _ Hnow Hclose).
  change (CE4Clock.of_day (CE4Clock.dtime 9 20)) with 33600000000%Z.
  change (CE4Clock.of_day (CE4Clock.dtime 15 30)) with 55800000000%Z.
  reflexivity.
Qed.

Lemma market_open_from_0920_to_1530_witness :
  CE4Clock.is_market_open (CE4Clock.mkTime 15 30 0 0) = true
  /\ CE4Clock.is_market_open (CE4Clock.mkTime 15 30 0 1) <> true.
Proof.
  split.
  - apply (proj2 (market_open_from_0920_to_1530 (CE4Clock.mkTime 15 30 0 0)
                    ltac:(unfold CE4Clock.valid; cbn; lia))).
    vm_compute. split; discriminate.
  - intros H.
    apply (proj1 (market_open_from_0920_to_1530 (CE4Clock.mkTime 15 30 0 1)
                    ltac:(unfold CE4Clock.valid; cbn; lia))) in H.
    vm_compute in H. destruct H as [_ H]. apply H. reflexivity.
Defined.
